(** * SecureAPK: static feature extraction and signal fusion

    A shallow embedding of the Python sources under [API_WEBAPP/]
    ([app.py], [analysis/utils.py], [analysis/icon_utils.py],
    [analysis/static_analyzer.py], [analysis/vt_lookup.py]) together with
    the properties the specification states about them.

    Conventions.
    - Python [float] is IEEE binary64: the kernel's primitive [float], whose
      [+], [*], [-], [/] and comparisons are the binary64 ones.  Only
      [math.log2] has no counterpart there; the entropy is therefore stated
      over the real numbers (module [Utils], section on [shannon_entropy]).
    - Python [int] is [Z]; [int / int] is the correctly rounded quotient and
      raises [OverflowError] outside the binary64 range.
    - Python [bytes] is [list byte]; [str] is [string], with [lower] and
      [upper] acting on the ASCII letters.
    - A call that may raise returns [result]; [try ... except] is
      [try_except] with the handler deciding which exceptions it catches. *)

From Stdlib Require Import ZArith List String Ascii Bool Lia.
From Stdlib.Strings Require Import Byte.
From Stdlib Require Import Floats.
From Stdlib Require Import Reals Lra.
From Stdlib Require Import Sorted Permutation.
Import ListNotations.

Set Warnings "-inexact-float,-register-all".

(* ================================================================== *)
(** * Part I: the embedded code *)
(* ================================================================== *)

(* ================================================================== *)
(** * The Python runtime the sources rely on *)
(* ================================================================== *)

Module Py.

(** The exception classes that occur in the sources or in the libraries
    they call.  All of them derive from [Exception]. *)
Inductive exn : Type :=
| BadZipFile
| FileNotFoundError
| JSONDecodeError
| KeyError
| TypeError
| AttributeError
| ValueError
| OverflowError
| ZeroDivisionError
| RequestException
| LibraryError (what : string).

Inductive result (A : Type) : Type :=
| Ok (a : A)
| Raise (e : exn).
Arguments Ok {A} a.
Arguments Raise {A} e.

Definition bind {A B : Type} (c : result A) (k : A -> result B) : result B :=
  match c with
  | Ok a => k a
  | Raise e => Raise e
  end.

(** [try: c except <classes>: h]: the handler returns [None] for an
    exception it does not catch. *)
Definition try_except {A : Type} (c : result A)
    (h : exn -> option (result A)) : result A :=
  match c with
  | Ok a => Ok a
  | Raise e => match h e with
               | Some r => r
               | None => Raise e
               end
  end.

(** [except Exception] catches every class above. *)
Definition except_Exception {A : Type} (r : result A) : exn -> option (result A) :=
  fun _ => Some r.

Definition bytes := list byte.

(** Code that may also go to the network: the URLs requested so far are
    threaded through, in request order. *)
Definition IO (A : Type) : Type := list string -> result A * list string.

Definition io_lift {A : Type} (c : result A) : IO A := fun tr => (c, tr).

Definition io_bind {A B : Type} (c : IO A) (k : A -> IO B) : IO B :=
  fun tr => match c tr with
            | (Ok a, tr') => k a tr'
            | (Raise e, tr') => (Raise e, tr')
            end.


End Py.
Export Py.

Declare Scope py_scope.
Delimit Scope py_scope with py.
Notation "x <- c ;; k" := (bind c (fun x => k))
  (at level 61, c at next level, right associativity) : py_scope.
Notation "x <~ c ;; k" := (io_bind c (fun x => k))
  (at level 61, c at next level, right associativity) : py_scope.
Open Scope py_scope.

(* ------------------------------------------------------------------ *)
(** ** Numbers *)

Module PyNum.

(** A Python integer as an exact (unrounded) binary float. *)
Definition Z2SF (z : Z) : spec_float :=
  match z with
  | Z0 => S754_zero false
  | Zpos p => S754_finite false p 0
  | Zneg p => S754_finite true p 0
  end.

(** [a / b] on two [int]s: the quotient rounded once, to nearest even;
    [ZeroDivisionError] on a zero divisor and [OverflowError] when the
    rounded quotient is not a finite binary64. *)
Definition int_truediv (a b : Z) : result float :=
  if (b =? 0)%Z then Raise ZeroDivisionError
  else match SFdiv prec emax (Z2SF a) (Z2SF b) with
       | S754_infinity _ => Raise OverflowError
       | q => Ok (SF2Prim q)
       end.

(** The builtin [min(a, b)] keeps [a] unless [b < a]. *)
Definition py_min (a b : float) : float :=
  if (b <? a)%float then b else a.

(** The builtin [max(a, b)] keeps [a] unless [b > a]. *)
Definition py_max (a b : float) : float :=
  if (a <? b)%float then b else a.

End PyNum.
Export PyNum.

(* ------------------------------------------------------------------ *)
(** ** Strings *)

Module PyStr.

Open Scope char_scope.

Definition is_upper (c : ascii) : bool := ("A" <=? c) && (c <=? "Z").
Definition is_lower (c : ascii) : bool := ("a" <=? c) && (c <=? "z").

Definition lower_char (c : ascii) : ascii :=
  if is_upper c then ascii_of_nat (nat_of_ascii c + 32) else c.

Definition upper_char (c : ascii) : ascii :=
  if is_lower c then ascii_of_nat (nat_of_ascii c - 32) else c.

Close Scope char_scope.
Open Scope string_scope.

Fixpoint str_map (f : ascii -> ascii) (s : string) : string :=
  match s with
  | EmptyString => EmptyString
  | String c s' => String (f c) (str_map f s')
  end.

(** [s.lower()] and [s.upper()]. *)
Definition lower (s : string) : string := str_map lower_char s.
Definition upper (s : string) : string := str_map upper_char s.

(** [sub in s] on two strings. *)
Fixpoint str_in (sub s : string) : bool :=
  prefix sub s ||
  match s with
  | EmptyString => false
  | String _ s' => str_in sub s'
  end.

(** [s.startswith(p)] and [s.endswith(p)]. *)
Definition startswith (s p : string) : bool := prefix p s.

Definition endswith (s p : string) : bool :=
  let n := String.length s in
  let m := String.length p in
  (m <=? n)%nat && (substring (n - m) m s =? p).

(** Truth value of a string: non-empty. *)
Definition str_truthy (s : string) : bool := negb (s =? "").

(** Truth value of an optional string ([None] or a [str]). *)
Definition opt_truthy (o : option string) : bool :=
  match o with
  | Some s => str_truthy s
  | None => false
  end.

End PyStr.
Export PyStr.

(* ------------------------------------------------------------------ *)
(** ** Values of the libraries *)

(** What [zipfile.ZipFile] offers to the sources: the entry names in
    archive order, and the payload of a named entry (reading may raise). *)
Record ZipArchive : Type := {
  namelist : list string;
  read : string -> result bytes
}.

(** A decoded image ([PIL.Image]): the sources read its [size] only. *)
Record Image : Type := {
  img_width : Z;
  img_height : Z;
  img_pixels : bytes
}.

(** [imagehash.ImageHash]: a boolean array of the given shape, flattened
    row by row.  [hash.size] is the number of cells of that shape. *)
Record ImageHash : Type := {
  hash_shape : nat * nat;
  hash_flat : list bool
}.

(** What [json.load] returns. *)
Inductive json : Type :=
| JNull
| JBool (b : bool)
| JInt (z : Z)
| JFloat (f : float)
| JStr (s : string)
| JList (items : list json)
| JDict (fields : list (string * json)).

(** The document [apkutils2]'s [get_manifest()] returns (the shape
    [xmltodict] produces): an element is a dictionary whose keys starting
    with ["@"] are its attributes, always strings, and whose other keys are
    its children (an element, a list of them for a repeated tag, a text, or
    [None] for an empty tag). *)
Inductive xml : Type :=
| XNone
| XText (s : string)
| XElem (attrs : list (string * string)) (kids : list (string * xml))
| XList (items : list xml).

(** Lookup in a dictionary kept as an association list. *)
Fixpoint assoc {V : Type} (key : string) (d : list (string * V)) : option V :=
  match d with
  | [] => None
  | (k, v) :: rest => if (k =? key)%string then Some v else assoc key rest
  end.

(* ================================================================== *)
(** * analysis/utils.py *)
(* ================================================================== *)

Module Utils.

Local Open Scope list_scope.

(** *** Optional buffers *)

(** [data or b""] *)
Definition bytes_or_empty (data : option bytes) : bytes :=
  match data with
  | Some d => d
  | None => []
  end.

(** [x if data else dflt] for optional bytes: [None] and [b""] are false. *)
Definition bytes_truthy (data : option bytes) : bool :=
  match data with
  | Some (_ :: _) => true
  | _ => false
  end.

(** *** [sha256_file] *)

Section Hashing.

(** [open(path, "rb")]: the bytes behind the path, or the error. *)
Variable open_rb : string -> result bytes.
(** [hashlib.sha256(data).hexdigest()]; feeding a hash object chunk by
    chunk hashes the concatenation of the chunks. *)
Variable sha256_hexdigest : bytes -> string.

Definition chunk_size : nat := N.to_nat 8192.

(** [iter(lambda: f.read(8192), b"")]: chunks up to the first empty one. *)
Fixpoint read_chunks (fuel : nat) (rest : bytes) : list bytes :=
  match fuel with
  | O => []
  | S fuel' =>
      match firstn chunk_size rest with
      | [] => []
      | chunk => chunk :: read_chunks fuel' (skipn chunk_size rest)
      end
  end.

Definition sha256_file (path : string) : result string :=
  content <- open_rb path ;;
  let fed := fold_left (fun h chunk => h ++ chunk)
               (read_chunks (S (List.length content)) content) [] in
  Ok (sha256_hexdigest fed).

End Hashing.

(** *** [shannon_entropy]

    The byte histogram is computed as in the source.  The sum itself uses
    [math.log2]; it is taken over the real numbers, so the value below is
    the exact one that the binary64 loop of the source approximates. *)

(** [freq[b] += 1]; the index is a byte and the table has 256 cells, so
    the index is always in range. *)
Fixpoint list_incr (freq : list nat) (i : nat) : list nat :=
  match freq, i with
  | [], _ => []
  | c :: rest, O => S c :: rest
  | c :: rest, S i' => c :: list_incr rest i'
  end.

Definition byte_freq (data : bytes) : list nat :=
  fold_left (fun freq b => list_incr freq (Byte.to_nat b)) data
    (repeat 0%nat 256).

Definition log2 (x : R) : R := (ln x / ln 2)%R.

(** One iteration of [for c in freq]. *)
Definition entropy_step (length : nat) (entropy : R) (c : nat) : R :=
  if (c =? 0)%nat then entropy
  else let p := (INR c / INR length)%R in (entropy - p * log2 p)%R.

Definition shannon_entropy (data : bytes) : R :=
  match data with
  | [] => 0%R
  | _ => fold_left (entropy_step (List.length data)) (byte_freq data) 0%R
  end.

(** *** [extract_zip_entry_bytes] *)

(** The body of [for n in z.namelist()]: the first name that contains
    the needle, both lowered, ends the loop with [z.read(n)]. *)
Fixpoint first_entry (z : ZipArchive) (name_contains : string)
    (names : list string) : result (option bytes) :=
  match names with
  | [] => Ok None
  | n :: rest =>
      if str_in (lower name_contains) (lower n) then
        data <- read z n ;; Ok (Some data)
      else first_entry z name_contains rest
  end.

(** [except BadZipFile: return None]; any other exception propagates. *)
Definition except_BadZipFile {A : Type} (r : result A)
    : exn -> option (result A) :=
  fun e => match e with
           | BadZipFile => Some r
           | _ => None
           end.

Section Archive.

(** [ZipFile(path, 'r')] *)
Variable ZipFile : string -> result ZipArchive.

Definition extract_zip_entry_bytes (apk_path name_contains : string)
    : result (option bytes) :=
  try_except
    (z <- ZipFile apk_path ;;
     first_entry z name_contains (namelist z))
    (except_BadZipFile (Ok None)).

End Archive.

(** *** [extract_all_strings] *)

Definition printable (b : byte) : bool :=
  (32 <=? Byte.to_N b)%N && (Byte.to_N b <=? 126)%N.

Definition chr (b : byte) : ascii := ascii_of_byte b.

(** [''.join(acc)] *)
Definition join (acc : list ascii) : string := string_of_list_ascii acc.

(** [len(acc) >= min_len] *)
Definition long_enough (min_len : Z) (n : nat) : bool :=
  (Z.of_nat n >=? min_len)%Z.

(** One iteration of [for b in data], on the pair [(out, acc)]. *)
Definition scan_step (min_len : Z) (st : list string * list ascii) (b : byte)
    : list string * list ascii :=
  let '(out, acc) := st in
  if printable b then (out, acc ++ [chr b])
  else ((if long_enough min_len (List.length acc) then out ++ [join acc]
         else out), []).

Definition extract_all_strings (data : option bytes) (min_len : Z)
    : list string :=
  let '(out, acc) :=
    fold_left (scan_step min_len) (bytes_or_empty data) ([], []) in
  if long_enough min_len (List.length acc) then out ++ [join acc] else out.

(** The default of the keyword argument [min_len]. *)
Definition default_min_len : Z := 5.

(** *** [count_suspicious_strings] *)

Record Suspicious : Type := {
  urls : list string;
  ips : list string;
  keywords : Z;
  url_count : Z;
  ip_count : Z;
  keyword_hits : Z
}.

Definition keyword_catalog : list string :=
  [ "login";"signin";"signup";"user";"username";"userid";
    "password";"passwd";"pwd";"passcode";"pin";"mpin";"credential";"creds";
    "otp";"totp";"mfa";"2fa";"auth";"authenticate";"token";"sessionid";
    "bank";"banking";"netbanking";"ifsc";"upi";"imps";"neft";"rtgs";"swift";
    "account";"accno";"acno";"iban";"sortcode";"routing";"balance";
    "transaction";"txn";"transfer";"payment";"payout";"deposit";"withdrawal";
    "atm";"card";"debit";"credit";"cvc";"cvv";"expdate";"expiry";"mastercard";
    "visa";"rupay";"amex";"wallet";"paytm";"gpay";"googlepay";"phonepe";
    "bhim";"paypal";"stripe";"cashapp";"venmo";"zelle";
    "verify";"verification";"update";"reset";"recover";"unlock";"lock";
    "security";"secure";"confidential";"secret";"confidentiality";
    "key";"privatekey";"publickey";"apikey";"jwt";"license";"serial";
    "free";"prize";"winner";"lottery";"offer";"bonus";"promotion";"deal";
    "click";"link";"download";"install";"setup";"activate";"activation";
    "urgent";"alert";"important";"attention";"warning";"suspend";"disabled";
    "blocked";"breach";"compromise";"hacked";"unauthorized";"illegal";"fraud";
    "exploit";"shell";"payload";"reverse";"meterpreter";"bind";"inject";
    "execute";"cmd";"command";"powershell";"bash";"sh";"exe";"dll";"so";"bin";
    "registry";"hkey";"startup";"boot";"autorun";"persistence";"rootkit";
    "keylogger";"logger";"capture";"screenshot";"spy";"steal";"exfil";
    "encrypt";"decrypt";"ransom";"bitcoin";"btc";"monero";"xmr";"crypto";
    "email";"mail";"outlook";"gmail";"yahoo";"hotmail";"imap";"smtp";"pop3";
    "office365";"o365";"exchange";"webmail";"phish";"spoof";"spoofed";
    "ssn";"dob";"pan";"aadhar";"aadhaar";"passport";"drivinglicense";
    "insurance";"medical";"policy";"tax";"irs";"income";"salary";"payroll"
  ]%string.

Section Suspicious.

(** [URL_REGEX.search(s)] and [IP_REGEX.search(s)] as truth values: the
    two compiled patterns of the module, run by the [re] library. *)
Variable URL_REGEX_search : string -> bool.
Variable IP_REGEX_search : string -> bool.

(** [any(k in s.lower() for k in keywords)] *)
Definition keyword_hit (s : string) : bool :=
  existsb (fun k => str_in k (lower s)) keyword_catalog.

Definition count_suspicious_strings (strings : list string) : Suspicious :=
  let urls := filter URL_REGEX_search strings in
  let ips := filter IP_REGEX_search strings in
  let kw_hits :=
    fold_left (fun acc s => (acc + if keyword_hit s then 1 else 0)%Z)
      strings 0%Z in
  {| urls := urls;
     ips := ips;
     keywords := kw_hits;
     url_count := Z.of_nat (List.length urls);
     ip_count := Z.of_nat (List.length ips);
     keyword_hits := kw_hits |}.

End Suspicious.

End Utils.

(* ================================================================== *)
(** * analysis/icon_utils.py *)
(* ================================================================== *)

Module IconUtils.

Local Open Scope list_scope.

(** *** [extract_primary_icon] *)

(** The test of the fallback scan, on the lowered name. *)
Definition icon_candidate_name (n : string) : bool :=
  let nl := lower n in
  startswith nl "res/"
  && (endswith nl ".png" || endswith nl ".webp")
  && (str_in "mipmap" nl || str_in "drawable" nl).

(** The tuples [(n, area, data, img)] of the candidate list. *)
Record candidate : Type := {
  cand_name : string;
  cand_area : Z;
  cand_data : bytes;
  cand_img : Image
}.

(** [candidates.sort(key=lambda x: x[1], reverse=True)]: a stable sort,
    largest area first; equal areas keep their order. *)
Fixpoint insert_desc (c : candidate) (sorted : list candidate)
    : list candidate :=
  match sorted with
  | [] => [c]
  | c' :: rest =>
      if (cand_area c <? cand_area c')%Z then c' :: insert_desc c rest
      else c :: sorted
  end.

Definition sort_desc (cs : list candidate) : list candidate :=
  fold_right insert_desc [] cs.

(** [str in list]. *)
Definition name_in (n : string) (names : list string) : bool :=
  existsb (String.eqb n) names.

Section Icons.

Variable ZipFile : string -> result ZipArchive.
(** [Image.open(BytesIO(data))] *)
Variable Image_open : bytes -> result Image.

(** The loop that fills [candidates]: a candidate that cannot be read or
    decoded is skipped ([except Exception: continue]). *)
Fixpoint collect_candidates (z : ZipArchive) (names : list string)
    : list candidate :=
  match names with
  | [] => []
  | n :: rest =>
      if icon_candidate_name n then
        match (data <- read z n ;;
               img <- Image_open data ;;
               Ok {| cand_name := n;
                     cand_area := (img_width img * img_height img)%Z;
                     cand_data := data;
                     cand_img := img |}) with
        | Ok c => c :: collect_candidates z rest
        | Raise _ => collect_candidates z rest
        end
      else collect_candidates z rest
  end.

Definition extract_primary_icon (apk_path : string)
    (icon_path_hint : option string) : result (option bytes * option Image) :=
  z <- ZipFile apk_path ;;
  let names := namelist z in
  let fallback :=
    match sort_desc (collect_candidates z names) with
    | [] => Ok (None, None)
    | c :: _ => Ok (Some (cand_data c), Some (cand_img c))
    end in
  match icon_path_hint with
  | Some hint =>
      if str_truthy hint && name_in hint names then
        data <- read z hint ;;
        img <- Image_open data ;;
        Ok (Some data, Some img)
      else fallback
  | None => fallback
  end.

End Icons.

(** *** [similarity_score] *)

(** [h.hash.size] *)
Definition hash_size (h : ImageHash) : Z :=
  Z.of_nat (fst (hash_shape h) * snd (hash_shape h)).

Definition shape_eqb (a b : nat * nat) : bool :=
  (fst a =? fst b)%nat && (snd a =? snd b)%nat.

(** [numpy.count_nonzero(a.flatten() != b.flatten())] *)
Fixpoint count_differing (a b : list bool) : Z :=
  match a, b with
  | x :: a', y :: b' =>
      ((if Bool.eqb x y then 0 else 1) + count_differing a' b')%Z
  | _, _ => 0%Z
  end.

(** [h1 - h2] of [imagehash]: the Hamming distance, and [TypeError] on
    hashes of different shapes. *)
Definition hash_sub (h1 h2 : ImageHash) : result Z :=
  if shape_eqb (hash_shape h1) (hash_shape h2) then
    Ok (count_differing (hash_flat h1) (hash_flat h2))
  else Raise TypeError.

Section Similarity.

(** [imagehash.hex_to_hash] *)
Variable hex_to_hash : string -> result ImageHash.

Definition similarity_score (hash1 hash2 : option string) : result float :=
  match hash1, hash2 with
  | Some s1, Some s2 =>
      if negb (str_truthy s1) || negb (str_truthy s2) then Ok 0%float
      else
        h1 <- hex_to_hash s1 ;;
        h2 <- hex_to_hash s2 ;;
        let max_bits := hash_size h1 in
        dist <- hash_sub h1 h2 ;;
        ratio <- int_truediv dist max_bits ;;
        Ok (1.0 - ratio)%float
  | _, _ => Ok 0%float
  end.

End Similarity.

End IconUtils.

(* ================================================================== *)
(** * analysis/vt_lookup.py *)
(* ================================================================== *)

Module VtLookup.

Local Open Scope list_scope.

(** A [requests.Response]: the status code and what [resp.json()] gives. *)
Record Response : Type := {
  status_code : Z;
  resp_json : result json
}.

(** The dictionary [{"detections": ..., "total": ...}]. *)
Record VtResult : Type := {
  detections : Z;
  total : Z
}.

Definition VT_BASE_URL : string := "https://www.virustotal.com/api/v3/files/".

(** [d.get(key, default)]: only a dictionary has [get]. *)
Definition json_get (d : json) (key : string) (default : json) : result json :=
  match d with
  | JDict fields =>
      Ok (match assoc key fields with Some v => v | None => default end)
  | _ => Raise AttributeError
  end.

(** A statistic as an operand of [+].  The service reports integers
    ([bool] counts as one); anything else is a [TypeError] here. *)
Definition json_int (v : json) : result Z :=
  match v with
  | JInt z => Ok z
  | JBool b => Ok (if b then 1 else 0)%Z
  | _ => Raise TypeError
  end.

Definition stat (stats : json) (key : string) : result Z :=
  v <- json_get stats key (JInt 0) ;; json_int v.

(** [sum(stats.get(k, 0) for k in keys)] *)
Fixpoint sum_stats (stats : json) (keys : list string) (acc : Z) : result Z :=
  match keys with
  | [] => Ok acc
  | k :: rest => v <- stat stats k ;; sum_stats stats rest (acc + v)%Z
  end.

Definition except_RequestException {A : Type} (r : result A)
    : exn -> option (result A) :=
  fun e => match e with
           | RequestException => Some r
           | _ => None
           end.

Definition no_data : VtResult := {| detections := 0; total := 0 |}.

Section Lookup.

(** [requests.get(url, headers=HEADERS, timeout=15)] *)
Variable requests_get : string -> result Response.

Definition vt_lookup_sha256 (sha256 : string) : IO VtResult :=
  let url := (VT_BASE_URL ++ sha256)%string in
  fun tr =>
    (try_except
       (resp <- requests_get url ;;
        if (status_code resp =? 200)%Z then
          data <- resp_json resp ;;
          d1 <- json_get data "data" (JDict []) ;;
          d2 <- json_get d1 "attributes" (JDict []) ;;
          stats <- json_get d2 "last_analysis_stats" (JDict []) ;;
          malicious <- stat stats "malicious" ;;
          suspicious <- stat stats "suspicious" ;;
          let detections := (malicious + suspicious)%Z in
          total <- sum_stats stats
                     ["harmless"; "malicious"; "suspicious"; "undetected";
                      "timeout"]%string 0%Z ;;
          let total := Z.max total 1 in
          Ok {| detections := detections; total := total |}
        else if (status_code resp =? 404)%Z then Ok no_data
        else Ok no_data)
       (except_RequestException (Ok no_data)),
     tr ++ [url]).

End Lookup.

End VtLookup.

(* ================================================================== *)
(** * analysis/static_analyzer.py *)
(* ================================================================== *)

(** An [androguard] APK object, as far as the sources use it: the
    [package] attribute and the outcome of each accessor. *)
Record AG_APK_obj : Type := {
  ag_package : option string;
  ag_get_app_name : result (option string);
  ag_get_androidversion_name : result (option string);
  ag_get_androidversion_code : result (option string);
  ag_get_permissions : result (list string);
  ag_get_certificates_der_v2 : result (list bytes);
  ag_get_certificates_der_v3 : result (list bytes);
  ag_get_certificates_der_v1 : result (list bytes);
  ag_get_app_icon : result (option string)
}.

(** An [apkutils2] APK object. *)
Record AU_APK_obj : Type := {
  au_get_manifest : result xml;
  au_get_app_icon : result (option string)
}.

(** The libraries the analysis imports.  Each is a function of what it is
    given; a parser that fails on an input raises.  [lib_AG_APK] and
    [lib_AU_APK] are [None] when the import at module load failed. *)
Record Libs : Type := {
  lib_sha256_hexdigest : bytes -> string;
  lib_json_load : bytes -> result json;
  lib_ZipFile : bytes -> result ZipArchive;
  lib_AG_APK : option (bytes -> result AG_APK_obj);
  lib_AU_APK : option (bytes -> result AU_APK_obj);
  lib_Image_open : bytes -> result Image;
  lib_phash : Image -> result string;
  lib_hex_to_hash : string -> result ImageHash;
  lib_URL_REGEX_search : string -> bool;
  lib_IP_REGEX_search : string -> bool
}.

(** What lies outside the process: the files by path, and the network. *)
Record World : Type := {
  files : string -> option bytes;
  requests_get : string -> result VtLookup.Response
}.

Module StaticAnalyzer.
Import Utils IconUtils VtLookup.

Local Open Scope list_scope.

Record AnalysisResult : Type := {
  sha256 : string;
  package : option string;
  app_label : option string;
  version_name : option string;
  version_code : option string;
  permissions : list string;
  dangerous_permissions : list string;
  cert_fingerprint : option string;
  cert_trusted_match : bool;
  icon_hash : option string;
  icon_similarity_score : float;
  entropy_classes_dex : R;
  suspicious : Suspicious;
  vt : VtResult
}.

Definition DANGEROUS_PERMS : list string :=
  [ "android.permission.READ_SMS"; "android.permission.RECEIVE_SMS";
    "android.permission.SEND_SMS";
    "android.permission.READ_CONTACTS"; "android.permission.WRITE_CONTACTS";
    "android.permission.READ_PHONE_STATE"; "android.permission.CALL_PHONE";
    "android.permission.PROCESS_OUTGOING_CALLS";
    "android.permission.RECORD_AUDIO";
    "android.permission.READ_EXTERNAL_STORAGE";
    "android.permission.WRITE_EXTERNAL_STORAGE";
    "android.permission.SYSTEM_ALERT_WINDOW";
    "android.permission.REQUEST_INSTALL_PACKAGES" ]%string.

(** The dictionary a backend returns. *)
Record ExtractionRecord : Type := {
  rec_package : option string;
  rec_label : option string;
  rec_version_name : option string;
  rec_version_code : option string;
  rec_permissions : list string;
  rec_cert_fingerprint : option string;
  rec_icon_hint : option string
}.

(** ** Dictionaries and dynamic values *)

(** [str(x)] on [None] or a string. *)
Definition py_str (x : option string) : string :=
  match x with
  | Some s => s
  | None => "None"
  end.

(** [x[key]] on a manifest node, for a child key. *)
Definition xml_item (x : xml) (key : string) : result xml :=
  match x with
  | XElem _ kids =>
      match assoc key kids with
      | Some v => Ok v
      | None => Raise KeyError
      end
  | _ => Raise TypeError
  end.

(** [x[key]] for an attribute key. *)
Definition xml_attr_item (x : xml) (key : string) : result string :=
  match x with
  | XElem attrs _ =>
      match assoc key attrs with
      | Some v => Ok v
      | None => Raise KeyError
      end
  | _ => Raise TypeError
  end.

(** [x.get(key, default)] for a child key. *)
Definition xml_get (x : xml) (key : string) (default : xml) : result xml :=
  match x with
  | XElem _ kids =>
      Ok (match assoc key kids with Some v => v | None => default end)
  | _ => Raise AttributeError
  end.

(** [x.get(key)] for an attribute key. *)
Definition xml_attr_get (x : xml) (key : string) : result (option string) :=
  match x with
  | XElem attrs _ => Ok (assoc key attrs)
  | _ => Raise AttributeError
  end.

(** [x.get(k1) or x.get(k2)] *)
Definition xml_attr_get_or (x : xml) (k1 k2 : string)
    : result (option string) :=
  v1 <- xml_attr_get x k1 ;;
  if opt_truthy v1 then Ok v1 else xml_attr_get x k2.

Fixpoint chars (s : string) : list string :=
  match s with
  | EmptyString => []
  | String c s' => String c EmptyString :: chars s'
  end.

(** The items [for p in uses] visits. *)
Definition xml_iter (x : xml) : result (list xml) :=
  match x with
  | XList items => Ok items
  | XElem attrs kids =>
      Ok (map (fun kv => XText (fst kv)) attrs
          ++ map (fun kv => XText (fst kv)) kids)
  | XText s => Ok (map XText (chars s))
  | XNone => Raise TypeError
  end.

Definition json_truthy (v : json) : bool :=
  match v with
  | JNull => false
  | JBool b => b
  | JInt z => negb (z =? 0)%Z
  | JFloat f => negb (f =? 0)%float
  | JStr s => str_truthy s
  | JList items => match items with [] => false | _ => true end
  | JDict fields => match fields with [] => false | _ => true end
  end.

(** The items [for c in v] visits. *)
Definition json_iter (v : json) : result (list json) :=
  match v with
  | JList items => Ok items
  | JDict fields => Ok (map (fun kv => JStr (fst kv)) fields)
  | JStr s => Ok (map JStr (chars s))
  | _ => Raise TypeError
  end.

(** [c.lower()]: only a string has [lower]. *)
Definition json_lower (c : json) : result string :=
  match c with
  | JStr s => Ok (lower s)
  | _ => Raise AttributeError
  end.

Fixpoint map_result {A B : Type} (f : A -> result B) (l : list A)
    : result (list B) :=
  match l with
  | [] => Ok []
  | a :: rest => b <- f a ;; bs <- map_result f rest ;; Ok (b :: bs)
  end.

(** ** Sets of strings

    [set(perms).intersection(DANGEROUS_PERMS)] and [sorted(...)].  A set is
    kept as a list without repetition; the order in which Python would
    enumerate it is not specified, and [sorted] makes it immaterial. *)

Fixpoint set_of (l : list string) : list string :=
  match l with
  | [] => []
  | x :: rest =>
      let s := set_of rest in
      if name_in x s then s else x :: s
  end.

Definition intersection (a b : list string) : list string :=
  filter (fun x => name_in x b) a.

Fixpoint insert_sorted (x : string) (l : list string) : list string :=
  match l with
  | [] => [x]
  | y :: rest =>
      if String.leb x y then x :: l else y :: insert_sorted x rest
  end.

Definition sorted (l : list string) : list string :=
  fold_right insert_sorted [] l.

(** ** The analyzer *)

Section Analyzer.

Variable L : Libs.
Variable W : World.

(** [open(path, "rb")] *)
Definition open_rb (path : string) : result bytes :=
  match files W path with
  | Some content => Ok content
  | None => Raise FileNotFoundError
  end.

(** [os.path.exists(path)] *)
Definition path_exists (path : string) : bool :=
  match files W path with
  | Some _ => true
  | None => false
  end.

(** [ZipFile(path, 'r')] *)
Definition ZipFile (path : string) : result ZipArchive :=
  content <- open_rb path ;; lib_ZipFile L content.

Definition hexdigest (data : bytes) : string := lib_sha256_hexdigest L data.

Definition empty_trusted_data : json :=
  JDict [ ("trusted_certs", JList []); ("trusted_icons", JList []);
          ("bank_packages", JList []) ]%string.

Definition _load_trusted_data (json_path : string) : result json :=
  if negb (path_exists json_path) then Ok empty_trusted_data
  else content <- open_rb json_path ;; lib_json_load L content.

(** [a.get_certificates_der_v2() or a.get_certificates_der_v3()
     or a.get_certificates_der_v1()] *)
Definition ag_certificates (a : AG_APK_obj) : result (list bytes) :=
  v2 <- ag_get_certificates_der_v2 a ;;
  match v2 with
  | _ :: _ => Ok v2
  | [] =>
      v3 <- ag_get_certificates_der_v3 a ;;
      match v3 with
      | _ :: _ => Ok v3
      | [] => ag_get_certificates_der_v1 a
      end
  end.

Definition _extract_manifest_with_androguard (apk_path : string)
    : result (option ExtractionRecord) :=
  match lib_AG_APK L with
  | None => Ok None
  | Some AG_APK =>
      try_except
        (a <- (content <- open_rb apk_path ;; AG_APK content) ;;
         let pkg := ag_package a in
         label <- ag_get_app_name a ;;
         version_name <- ag_get_androidversion_name a ;;
         code <- ag_get_androidversion_code a ;;
         version_code <-
           (if opt_truthy code then
              code' <- ag_get_androidversion_code a ;; Ok (Some (py_str code'))
            else Ok None) ;;
         perms <- ag_get_permissions a ;;
         fp <- try_except
                 (certs <- ag_certificates a ;;
                  match certs with
                  | cert :: _ => Ok (Some (hexdigest cert))
                  | [] => Ok None
                  end)
                 (except_Exception (Ok None)) ;;
         icon_hint <- try_except (ag_get_app_icon a)
                        (except_Exception (Ok None)) ;;
         Ok (Some {| rec_package := pkg;
                     rec_label := label;
                     rec_version_name := version_name;
                     rec_version_code := version_code;
                     rec_permissions := perms;
                     rec_cert_fingerprint := fp;
                     rec_icon_hint := icon_hint |}))
        (except_Exception (Ok None))
  end.

(** The loop over [uses]: a name that is true is appended. *)
Fixpoint permission_names (uses : list xml) (perms : list string)
    : result (list string) :=
  match uses with
  | [] => Ok perms
  | p :: rest =>
      name <- xml_attr_get_or p "@android:name" "@name" ;;
      match name with
      | Some n =>
          if str_truthy n then permission_names rest (perms ++ [n])
          else permission_names rest perms
      | None => permission_names rest perms
      end
  end.

Definition signature_file (n : string) : bool :=
  let u := upper n in
  startswith u "META-INF/"
  && (endswith u ".RSA" || endswith u ".DSA" || endswith u ".EC").

(** The scan of [META-INF/] for the first signature file. *)
Fixpoint first_signature (z : ZipArchive) (names : list string)
    : result (option string) :=
  match names with
  | [] => Ok None
  | n :: rest =>
      if signature_file n then
        data <- read z n ;; Ok (Some (hexdigest data))
      else first_signature z rest
  end.

Definition _extract_manifest_with_apkutils (apk_path : string)
    : result (option ExtractionRecord) :=
  match lib_AU_APK L with
  | None => Ok None
  | Some AU_APK =>
      try_except
        (a <- (content <- open_rb apk_path ;; AU_APK content) ;;
         manifest <- au_get_manifest a ;;
         root <- xml_item manifest "manifest" ;;
         pkg <- xml_attr_item root "@package" ;;
         app <- xml_get root "application" (XElem [] []) ;;
         label <- xml_attr_get_or app "@android:label" "@label" ;;
         version_name <-
           xml_attr_get_or root "@android:versionName" "@versionName" ;;
         version_code <-
           xml_attr_get_or root "@android:versionCode" "@versionCode" ;;
         uses <- xml_get root "uses-permission" (XList []) ;;
         let uses := match uses with
                     | XElem _ _ => XList [uses]
                     | _ => uses
                     end in
         items <- xml_iter uses ;;
         perms <- permission_names items [] ;;
         icon_hint <- try_except (au_get_app_icon a)
                        (except_Exception (Ok None)) ;;
         fp <- try_except
                 (z <- ZipFile apk_path ;; first_signature z (namelist z))
                 (except_Exception (Ok None)) ;;
         Ok (Some {| rec_package := Some pkg;
                     rec_label := label;
                     rec_version_name := version_name;
                     rec_version_code :=
                       if opt_truthy version_code
                       then Some (py_str version_code) else None;
                     rec_permissions := perms;
                     rec_cert_fingerprint := fp;
                     rec_icon_hint := icon_hint |}))
        (except_Exception (Ok None))
  end.

(** [first(apk_path) or second(apk_path) or {}]: [None] stands for the
    empty dictionary, every other value is a backend's dictionary. *)
Definition extract_meta (apk_path : string) : result (option ExtractionRecord) :=
  m1 <- _extract_manifest_with_androguard apk_path ;;
  match m1 with
  | Some _ => Ok m1
  | None => _extract_manifest_with_apkutils apk_path
  end.

(** [meta.get(key)] and [meta.get('permissions', [])]. *)
Definition meta_get {A : Type} (meta : option ExtractionRecord)
    (field : ExtractionRecord -> option A) : option A :=
  match meta with
  | Some r => field r
  | None => None
  end.

Definition meta_permissions (meta : option ExtractionRecord) : list string :=
  match meta with
  | Some r => rec_permissions r
  | None => []
  end.

(** [sorted(set(perms).intersection(DANGEROUS_PERMS))] *)
Definition dangerous_of (perms : list string) : list string :=
  sorted (intersection (set_of perms) DANGEROUS_PERMS).

(** [shannon_entropy(classes) if classes else 0.0] *)
Definition entropy_of (classes : option bytes) : R :=
  if bytes_truthy classes then shannon_entropy (bytes_or_empty classes)
  else 0%R.

(** [(cert_fp and cert_fp.lower() in trusted_certs) or False], as the
    [bool(...)] the result stores. *)
Definition cert_match_of (cert_fp : option string)
    (trusted_certs : list string) : bool :=
  match cert_fp with
  | Some fp => str_truthy fp && name_in (lower fp) trusted_certs
  | None => false
  end.

(** [similarity_score(icon_hash, h)] for an entry [h] of the trust
    document: a false entry counts as absent, and a true entry that is not
    a string fails in [hex_to_hash], after [icon_hash] was converted. *)
Definition similarity_with_entry (icon_hash : string) (h : json)
    : result float :=
  match h with
  | JStr s => similarity_score (lib_hex_to_hash L) (Some icon_hash) (Some s)
  | _ =>
      if json_truthy h then
        _ <- lib_hex_to_hash L icon_hash ;; Raise TypeError
      else Ok 0%float
  end.

(** The loop [icon_sim = max(icon_sim, similarity_score(icon_hash, h))]. *)
Fixpoint best_similarity (icon_hash : string) (entries : list json)
    (icon_sim : float) : result float :=
  match entries with
  | [] => Ok icon_sim
  | h :: rest =>
      s <- similarity_with_entry icon_hash h ;;
      best_similarity icon_hash rest (py_max icon_sim s)
  end.

Definition analyze_apk (apk_path trusted_data_path : string)
    (vt_enabled : bool) : IO AnalysisResult :=
  meta <~ io_lift (extract_meta apk_path) ;;
  let pkg := meta_get meta rec_package in
  let label := meta_get meta rec_label in
  let version_name := meta_get meta rec_version_name in
  let version_code := meta_get meta rec_version_code in
  let perms := meta_permissions meta in
  let dangerous := dangerous_of perms in
  classes <~ io_lift (extract_zip_entry_bytes ZipFile apk_path "classes.dex") ;;
  let entropy := entropy_of classes in
  let strings := if bytes_truthy classes
                 then extract_all_strings classes default_min_len else [] in
  strings <~ io_lift
    (match strings with
     | [] =>
         manifest_bytes <-
           extract_zip_entry_bytes ZipFile apk_path "AndroidManifest.xml" ;;
         Ok (extract_all_strings
               (Some (bytes_or_empty manifest_bytes)) default_min_len)
     | _ => Ok strings
     end) ;;
  let suspicious :=
    count_suspicious_strings (lib_URL_REGEX_search L) (lib_IP_REGEX_search L)
      strings in
  let icon_hint := meta_get meta rec_icon_hint in
  icon <~ io_lift
    (extract_primary_icon ZipFile (lib_Image_open L) apk_path icon_hint) ;;
  let icon_img := snd icon in
  icon_hash <~ io_lift
    (match icon_img with
     | Some img => h <- lib_phash L img ;; Ok (Some h)
     | None => Ok None
     end) ;;
  sha256 <~ io_lift (sha256_file open_rb (lib_sha256_hexdigest L) apk_path) ;;
  vt <~ (if vt_enabled then vt_lookup_sha256 (requests_get W) sha256
         else io_lift (Ok no_data)) ;;
  trusted <~ io_lift (_load_trusted_data trusted_data_path) ;;
  let cert_fp := meta_get meta rec_cert_fingerprint in
  trusted_certs <~ io_lift
    (certs <- json_get trusted "trusted_certs" (JList []) ;;
     items <- json_iter certs ;;
     map_result json_lower items) ;;
  let cert_match := cert_match_of cert_fp trusted_certs in
  icon_sim <~ io_lift
    (match icon_hash with
     | Some h =>
         if str_truthy h then
           icons <- json_get trusted "trusted_icons" (JList []) ;;
           entries <- json_iter icons ;;
           best_similarity h entries 0%float
         else Ok 0%float
     | None => Ok 0%float
     end) ;;
  io_lift (Ok {| sha256 := sha256;
                 package := pkg;
                 app_label := label;
                 version_name := version_name;
                 version_code := version_code;
                 permissions := perms;
                 dangerous_permissions := dangerous;
                 cert_fingerprint := cert_fp;
                 cert_trusted_match := cert_match;
                 icon_hash := icon_hash;
                 icon_similarity_score := icon_sim;
                 entropy_classes_dex := entropy;
                 suspicious := suspicious;
                 vt := vt |}).

End Analyzer.

End StaticAnalyzer.

(* ================================================================== *)
(** * app.py: signal fusion *)
(* ================================================================== *)

Module App.

Open Scope float_scope.

(** [combine_ml_vt_mb(ml_prob, vt_detections, vt_total, mb_detections)].
    [vt_score] and [mb_score] are the [int] 0 on the else-branches; the
    multiplication by [0.15] turns it into [0.0]. *)
Definition combine_ml_vt_mb (ml_prob : float)
    (vt_detections vt_total mb_detections : Z) : result (float * string) :=
  vt_score <- (if (vt_total >? 0)%Z then int_truediv vt_detections vt_total
               else Ok 0) ;;
  let mb_score := if (mb_detections >? 0)%Z then 1.0 else 0 in
  let final_score := 0.7 * ml_prob + 0.15 * vt_score + 0.15 * mb_score in
  let final_score := py_min final_score 1.0 in
  let decision :=
    if (vt_detections >? 5)%Z || (mb_detections >? 0)%Z then
      "Likely Malware (Confirmed)"%string
    else if (vt_detections =? 0)%Z && (mb_detections =? 0)%Z
            && (0.7 <? ml_prob) then
      "Suspicious (New Malware?)"%string
    else if (vt_detections =? 0)%Z && (mb_detections =? 0)%Z
            && (ml_prob <? 0.3) then
      "Likely Safe"%string
    else
      "Potentially Risky"%string in
  Ok (final_score, decision).

End App.

(* ================================================================== *)
(** * analysis/utils.py, continued: [is_valid_apk] *)
(* ================================================================== *)

Module UtilsRest.
Import Utils StaticAnalyzer.

Local Open Scope list_scope.
Local Open Scope string_scope.

Section Validity.

(** [ZipFile(path, 'r')] *)
Variable ZipFile : string -> result ZipArchive.

Definition is_valid_apk (path : string) : result bool :=
  try_except
    (z <- ZipFile path ;;
     let names := set_of (namelist z) in
     Ok (existsb (fun n => endswith n "AndroidManifest.xml") names))
    (except_Exception (Ok false)).

End Validity.

End UtilsRest.

(* ================================================================== *)
(** * app.py, continued: upload filter, second reputation lookup,
      feature row *)
(* ================================================================== *)

Module AppRest.
Import Utils IconUtils VtLookup StaticAnalyzer.

Local Open Scope list_scope.
Local Open Scope string_scope.

(** *** [allowed_file] *)

Definition ALLOWED_EXTENSIONS : list string := ["apk"].

(** [filename.rsplit('.', 1)[1]]: what follows the last dot; [None] when
    there is no dot (the index would be out of range). *)
Fixpoint after_last_dot (s : string) : option string :=
  match s with
  | EmptyString => None
  | String c s' =>
      match after_last_dot s' with
      | Some tail => Some tail
      | None => if (c =? ".")%char then Some s' else None
      end
  end.

Definition allowed_file (filename : string) : bool :=
  str_in "." filename
  && match after_last_dot filename with
     | Some ext => name_in (lower ext) ALLOWED_EXTENSIONS
     | None => false
     end.

(** *** [malwarebazaar_lookup_sha256] *)

(** The response of [requests.post]: status, [resp.json()], [resp.text]. *)
Record PostResponse : Type := {
  post_status : Z;
  post_json : result json;
  post_text : string
}.

(** The ["raw"] entry: the decoded body, or [{"error": resp.text}], or
    [{"error": str(e)}] for the exception [e] that was caught. *)
Inductive mb_raw : Type :=
| RawBody (body : json)
| RawErrorText (text : string)
| RawException (e : exn).

Record MbResult : Type := {
  mb_detections : Z;
  mb_raw_entry : mb_raw
}.

(** [key in j] for a string [key]. *)
Definition json_contains (j : json) (key : string) : result bool :=
  match j with
  | JDict fields =>
      Ok (match assoc key fields with Some _ => true | None => false end)
  | JList items =>
      Ok (existsb (fun v => match v with
                            | JStr s => s =? key
                            | _ => false
                            end) items)
  | JStr s => Ok (str_in key s)
  | _ => Raise TypeError
  end.

(** [len(j)] *)
Definition json_len (j : json) : result Z :=
  match j with
  | JList items => Ok (Z.of_nat (List.length items))
  | JDict fields => Ok (Z.of_nat (List.length fields))
  | JStr s => Ok (Z.of_nat (String.length s))
  | _ => Raise TypeError
  end.

Definition MB_URL : string := "https://mb-api.abuse.ch/api/v1/".

Section Bazaar.

(** [requests.post(url, data={"query": "get_info", "hash": sha256},
     headers=headers, timeout=15)], by URL and hash. *)
Variable requests_post : string -> string -> result PostResponse.

Definition malwarebazaar_lookup_sha256 (sha256 : string) : result MbResult :=
  try_except
    (resp <- requests_post MB_URL sha256 ;;
     if (post_status resp =? 200)%Z then
       json_data <- post_json resp ;;
       has_data <- json_contains json_data "data" ;;
       detections <-
         (if has_data then
            data <- json_get json_data "data" (JList []) ;; json_len data
          else Ok 0%Z) ;;
       Ok {| mb_detections := detections; mb_raw_entry := RawBody json_data |}
     else
       Ok {| mb_detections := 0;
             mb_raw_entry := RawErrorText (post_text resp) |})
    (fun e => Some (Ok {| mb_detections := 0;
                          mb_raw_entry := RawException e |})).

End Bazaar.

(** *** The feature row of [analyze] *)








End AppRest.

(* ================================================================== *)
(** * The specification's vocabulary

    Definitions written from the words of the specification, against
    which the embedded code is compared in Part II. *)
(* ================================================================== *)

Module Spec.
Import Utils.

Local Open Scope list_scope.

(** ** Fusion *)

Section Fusion.

Open Scope float_scope.

(** The four verdicts of the decision engine and the labels the code
    returns for them. *)
Inductive verdict : Type :=
| ConfirmedMalicious
| SuspiciousUndetected
| LikelySafe
| PotentiallyRisky.

Definition verdict_label (v : verdict) : string :=
  match v with
  | ConfirmedMalicious => "Likely Malware (Confirmed)"
  | SuspiciousUndetected => "Suspicious (New Malware?)"
  | LikelySafe => "Likely Safe"
  | PotentiallyRisky => "Potentially Risky"
  end.

(** The specification's reading of the fusion, written from its words:
    a ratio, a secondary signal, a clamped weighted sum, and a rule list
    of which the first rule that applies wins. *)
Definition fuse_ratio (detectionCount detectionTotal : Z) : result float :=
  if (0 <? detectionTotal)%Z then int_truediv detectionCount detectionTotal
  else Ok 0.

Definition fuse_secondary (secondaryDetectionCount : Z) : float :=
  if (0 <? secondaryDetectionCount)%Z then 1.0 else 0.

Definition fuse_score (mlProbability ratio : float)
    (secondaryDetectionCount : Z) : float :=
  py_min (0.7 * mlProbability + 0.15 * ratio
          + 0.15 * fuse_secondary secondaryDetectionCount) 1.0.

Definition fuse_rules (p : float) (d m : Z) : list (bool * verdict) :=
  [ ((5 <? d)%Z || (0 <? m)%Z, ConfirmedMalicious);
    ((d =? 0)%Z && (m =? 0)%Z && (0.7 <? p), SuspiciousUndetected);
    ((d =? 0)%Z && (m =? 0)%Z && (p <? 0.3), LikelySafe) ].

Fixpoint first_match (rules : list (bool * verdict)) (otherwise : verdict)
    : verdict :=
  match rules with
  | [] => otherwise
  | (true, v) :: _ => v
  | (false, _) :: rest => first_match rest otherwise
  end.

Definition fuse_verdict (p : float) (d m : Z) : verdict :=
  first_match (fuse_rules p d m) PotentiallyRisky.

(** The conditions of the three rules, as propositions. *)
Definition rule_confirmed (d m : Z) : Prop := (5 < d \/ 0 < m)%Z.
Definition rule_suspicious (p : float) (d m : Z) : Prop :=
  d = 0%Z /\ m = 0%Z /\ (0.7 <? p) = true.
Definition rule_safe (p : float) (d m : Z) : Prop :=
  d = 0%Z /\ m = 0%Z /\ (p <? 0.3) = true.

End Fusion.

(** ** Printable strings *)

(** The buffer cut at every byte outside [32, 126]: the runs between the
    cuts, in order (one more run than there are cuts; a run may be
    empty). *)
Fixpoint runs (data : bytes) : list bytes :=
  match data with
  | [] => [[]]
  | b :: rest =>
      if printable b then
        match runs rest with
        | r :: rs => (b :: r) :: rs
        | [] => [[b]]
        end
      else [] :: runs rest
  end.

(** The cutting bytes, in order. *)
Definition cuts (data : bytes) : bytes :=
  filter (fun b => negb (printable b)) data.

(** The runs put back together around the cutting bytes. *)
Fixpoint weave (rs : list bytes) (cuts : bytes) : bytes :=
  match rs, cuts with
  | r :: rs', c :: cuts' => r ++ c :: weave rs' cuts'
  | r :: _, [] => r
  | [], _ => []
  end.

Definition text (run : bytes) : string := string_of_list_ascii (map chr run).

Definition at_least (minLength : Z) (run : bytes) : bool :=
  (minLength <=? Z.of_nat (List.length run))%Z.

Definition printable_strings (data : bytes) (minLength : Z) : list string :=
  map text (filter (at_least minLength) (runs data)).

(** ** Archive entries *)

(** [needle] occurs in [name] when case is ignored. *)
Definition contains_ci (needle name : string) : Prop :=
  exists pre post : string,
    lower name = (pre ++ lower needle ++ post)%string.

(** ** Sensitive permissions *)

(** Ascending with no two equal neighbours: every element is strictly
    below all later ones in the order of the code points. *)
Definition strictly_ascending (l : list string) : Prop :=
  StronglySorted (fun a b => String.ltb a b = true) l.

(** ** Trust database *)

(** The certificate set of a trust document: the entries under
    ["trusted_certs"], lowered. *)
Definition trusted_certs_of (trusted : json) : result (list string) :=
  certs <- VtLookup.json_get trusted "trusted_certs" (JList []) ;;
  items <- StaticAnalyzer.json_iter certs ;;
  StaticAnalyzer.map_result StaticAnalyzer.json_lower items.

(** The icon-hash list of a trust document. *)
Definition trusted_icons_of (trusted : json) : result (list json) :=
  icons <- VtLookup.json_get trusted "trusted_icons" (JList []) ;;
  StaticAnalyzer.json_iter icons.

(** ** Network *)


(** ** Icon similarity *)

(** [1 - (Hamming distance / bit length)] on two decoded hashes. *)
Definition similarity_of (h1 h2 : ImageHash) : result float :=
  dist <- IconUtils.hash_sub h1 h2 ;;
  ratio <- int_truediv dist (IconUtils.hash_size h1) ;;
  Ok (1.0 - ratio)%float.

(** ** Manifest extraction *)

(** The chain of backends: the first backend's record if it has one,
    else the second's, else none. *)
Definition first_record (m1 m2 : option StaticAnalyzer.ExtractionRecord)
    : option StaticAnalyzer.ExtractionRecord :=
  match m1 with
  | Some r => Some r
  | None => m2
  end.

End Spec.

(* ================================================================== *)
(** * Concrete environments

    Libraries, files and network answers on which the embedded code can
    be run; the examples of Part II are stated on them. *)
(* ================================================================== *)

Module Scenario.
Import Utils IconUtils VtLookup StaticAnalyzer.

Local Open Scope list_scope.
Local Open Scope string_scope.

Definition bytes_eqb (a b : bytes) : bool :=
  string_of_list_byte a =? string_of_list_byte b.

(** *** File contents *)

Definition apk_bytes : bytes :=
  list_byte_of_string "PK: package of com.example.bank".

Definition trust_bytes : bytes :=
  list_byte_of_string "trust document of the bank".

Definition cert_der : bytes := [x30; x82; x01; x0a].

Definition dex_payload : bytes := [x41].

Definition manifest_payload : bytes :=
  list_byte_of_string "see http://example.test/login".

(** *** Library behaviour on these contents *)

Definition bank_archive : ZipArchive :=
  {| namelist := ["AndroidManifest.xml"; "META-INF/CERT.RSA"; "Classes.DEX"];
     read := fun n =>
       if n =? "AndroidManifest.xml" then Ok manifest_payload
       else if n =? "META-INF/CERT.RSA" then Ok cert_der
       else if n =? "Classes.DEX" then Ok dex_payload
       else Raise KeyError |}.

Definition bank_apk : AG_APK_obj :=
  {| ag_package := Some "com.example.bank";
     ag_get_app_name := Ok (Some "Bank");
     ag_get_androidversion_name := Ok (Some "1.0");
     ag_get_androidversion_code := Ok (Some "7");
     ag_get_permissions :=
       Ok ["android.permission.SEND_SMS"; "android.permission.INTERNET";
           "android.permission.READ_SMS"; "android.permission.SEND_SMS"];
     ag_get_certificates_der_v2 := Ok [];
     ag_get_certificates_der_v3 := Ok [cert_der];
     ag_get_certificates_der_v1 := Raise (LibraryError "no v1 block");
     ag_get_app_icon := Raise (LibraryError "no icon resource") |}.

Definition bank_manifest : xml :=
  XElem []
    [("manifest",
      XElem [("@package", "com.example.bank");
             ("@android:versionName", "1.0");
             ("@android:versionCode", "7")]
            [("application", XElem [("@android:label", "Bank")] []);
             ("uses-permission",
              XList [XElem [("@android:name", "android.permission.READ_SMS")] [];
                     XElem [("@android:name", "android.permission.INTERNET")]
                           []])])].

Definition bank_apk_au : AU_APK_obj :=
  {| au_get_manifest := Ok bank_manifest;
     au_get_app_icon := Ok None |}.

Definition trust_document : json :=
  JDict [("trusted_certs", JList [JStr "AB12"; JStr "cd34"]);
         ("trusted_icons", JList [JStr "ffffffffffffffff"]);
         ("bank_packages", JList [JStr "com.example.bank"])].

(** [imagehash.hex_to_hash] on the 16-digit strings that [phash] prints
    for its 8 by 8 hashes, most significant bit first; any other string is
    refused here. *)
Definition hex_value (c : ascii) : option N :=
  let n := N_of_ascii c in
  if (48 <=? n)%N && (n <=? 57)%N then Some (n - 48)%N
  else if (97 <=? n)%N && (n <=? 102)%N then Some (n - 87)%N
  else if (65 <=? n)%N && (n <=? 70)%N then Some (n - 55)%N
  else None.

Definition nibble (v : N) : list bool :=
  [N.testbit v 3; N.testbit v 2; N.testbit v 1; N.testbit v 0].

Fixpoint hex_bits (s : string) : option (list bool) :=
  match s with
  | EmptyString => Some []
  | String c s' =>
      match hex_value c, hex_bits s' with
      | Some v, Some bits => Some (nibble v ++ bits)%list
      | _, _ => None
      end
  end.

Definition hex_to_hash_16 (s : string) : result ImageHash :=
  if (String.length s =? 16)%nat then
    match hex_bits s with
    | Some bits => Ok {| hash_shape := (8, 8)%nat; hash_flat := bits |}
    | None => Raise ValueError
    end
  else Raise ValueError.

(** The libraries with [androguard] present. *)
Definition libs : Libs :=
  {| lib_sha256_hexdigest := fun data =>
       if bytes_eqb data cert_der then "ab12" else "9f86d081884c7d65";
     lib_json_load := fun content =>
       if bytes_eqb content trust_bytes then Ok trust_document
       else Raise JSONDecodeError;
     lib_ZipFile := fun content =>
       if bytes_eqb content apk_bytes then Ok bank_archive
       else Raise BadZipFile;
     lib_AG_APK := Some (fun content =>
       if bytes_eqb content apk_bytes then Ok bank_apk
       else Raise (LibraryError "not an APK"));
     lib_AU_APK := Some (fun content =>
       if bytes_eqb content apk_bytes then Ok bank_apk_au
       else Raise (LibraryError "not an APK"));
     lib_Image_open := fun _ => Raise (LibraryError "cannot identify image");
     lib_phash := fun _ => Raise (LibraryError "no image");
     lib_hex_to_hash := hex_to_hash_16;
     (* the two patterns, as far as the texts of the scenario go: one of
        them holds a URL, none an IP literal *)
     lib_URL_REGEX_search := fun s => str_in "http://" (lower s);
     lib_IP_REGEX_search := fun _ => false |}.


(** *** Worlds *)

Definition upload_path : string := "/tmp/upload.apk".
Definition trust_path : string := "trusted_bank_data.json".

(** The upload and the trust document in place; the network is down. *)
Definition world : World :=
  {| files := fun path =>
       if path =? upload_path then Some apk_bytes
       else if path =? trust_path then Some trust_bytes
       else None;
     requests_get := fun _ => Raise RequestException |}.

(** The same two contents under other paths; the network answers. *)
Definition world_elsewhere : World :=
  {| files := fun path =>
       if path =? "/srv/queue/0001.apk" then Some apk_bytes
       else if path =? "/etc/secureapk/trust.json" then Some trust_bytes
       else None;
     requests_get := fun _ =>
       Ok {| status_code := 200;
             resp_json :=
               Ok (JDict [("data", JDict [("attributes",
                     JDict [("last_analysis_stats",
                       JDict [("malicious", JInt 9);
                              ("harmless", JInt 50)])])])]) |} |}.

(** The trust file exists but holds a single opening brace. *)
Definition world_broken_trust : World :=
  {| files := fun path =>
       if path =? upload_path then Some apk_bytes
       else if path =? trust_path then Some [x7b]
       else None;
     requests_get := fun _ => Raise RequestException |}.

(** *** Observations *)

(** What a run shows of the reputation lookup: the recorded answer and
    the URLs requested; [None] for a run that raised. *)
Definition lookup_outcome (run : result AnalysisResult * list string)
    : option (VtResult * list string) :=
  match run with
  | (Ok r, requested) => Some (vt r, requested)
  | (Raise _, _) => None
  end.

End Scenario.

(* ================================================================== *)
(** * Auxiliary notions of the proofs *)
(* ================================================================== *)

Module Invariants.
Import Utils.

Local Open Scope list_scope.

(** ** The scanner of [extract_all_strings] *)

(** What the loop has emitted once the buffer is consumed, for any state
    [(out, acc)] it is started in. *)
Definition flush (min_len : Z) (st : list string * list ascii) : list string :=
  let '(out, acc) := st in
  if long_enough min_len (List.length acc) then out ++ [join acc] else out.

Definition emit (min_len : Z) (accs : list (list ascii)) : list string :=
  map join (filter (fun a => long_enough min_len (List.length a)) accs).

(** ** The histogram and the sum of [shannon_entropy] *)

(** Number of bytes of value [i] in the buffer. *)
Definition byte_count (i : nat) (data : bytes) : nat :=
  List.length (filter (fun b => (Byte.to_nat b =? i)%nat) data).

(** The contribution of a cell holding [c] to the entropy of a buffer
    of [n] bytes, and the sum of the contributions. *)
Definition term (n c : nat) : R :=
  if (c =? 0)%nat then 0%R
  else (- (INR c / INR n * log2 (INR c / INR n)))%R.

Fixpoint sum_terms (n : nat) (l : list nat) : R :=
  match l with
  | [] => 0%R
  | c :: rest => (term n c + sum_terms n rest)%R
  end.

End Invariants.

(* ================================================================== *)
(** * Fragments of the sources and further cases

    Two expressions of the sources under names of their own, and the
    inputs on which Part II runs the code beyond the scenario above. *)
(* ================================================================== *)

Module Fragments.
Import Utils IconUtils VtLookup StaticAnalyzer.

Local Open Scope list_scope.
Local Open Scope string_scope.

(** [data.get("data", {}).get("attributes", {})
        .get("last_analysis_stats", {})] of [vt_lookup_sha256]. *)
Definition stats_of (resp : Response) : result json :=
  data <- resp_json resp ;;
  d1 <- json_get data "data" (JDict []) ;;
  d2 <- json_get d1 "attributes" (JDict []) ;;
  json_get d2 "last_analysis_stats" (JDict []).

(** What [if name: perms.append(name)] appends for one element. *)
Definition kept_name (name : option string) : list string :=
  match name with
  | Some n => if str_truthy n then [n] else []
  | None => []
  end.

End Fragments.

Module Cases.
Import Utils IconUtils VtLookup StaticAnalyzer AppRest Scenario.

Local Open Scope list_scope.
Local Open Scope string_scope.

(** The 256 byte values, each once. *)
Definition all_bytes : bytes :=
  map (fun n => match Byte.of_nat n with Some b => b | None => x00 end)
      (seq 0 256).

(** An archive with three decodable images under [res/], the last two
    of the same, largest area, one resource that does not decode, and one
    image outside [res/]. *)
Definition icon_archive : ZipArchive :=
  {| namelist := ["res/mipmap-mdpi/ic_launcher.png";
                  "res/mipmap-xhdpi/ic_launcher.png";
                  "res/drawable/broken.png";
                  "RES/Drawable-XHDPI/banner.WEBP";
                  "assets/logo.png"];
     read := fun n =>
       if n =? "res/mipmap-mdpi/ic_launcher.png" then Ok [x01]
       else if n =? "res/mipmap-xhdpi/ic_launcher.png" then Ok [x02]
       else if n =? "res/drawable/broken.png" then Ok [x00]
       else if n =? "RES/Drawable-XHDPI/banner.WEBP" then Ok [x03]
       else if n =? "assets/logo.png" then Ok [x04]
       else Raise KeyError |}.

Definition icon_decoder (data : bytes) : result Image :=
  match data with
  | [x01] => Ok {| img_width := 48; img_height := 48; img_pixels := [] |}
  | [x02] => Ok {| img_width := 96; img_height := 96; img_pixels := [] |}
  | [x03] => Ok {| img_width := 192; img_height := 48; img_pixels := [] |}
  | [x04] => Ok {| img_width := 512; img_height := 512; img_pixels := [] |}
  | _ => Raise (LibraryError "cannot identify image")
  end.

Definition icon_zip (path : string) : result ZipArchive :=
  if path =? upload_path then Ok icon_archive else Raise FileNotFoundError.

(** A reputation service that knows the file. *)
Definition bazaar_hit : PostResponse :=
  {| post_status := 200;
     post_json := Ok (JDict [("query_status", JStr "ok");
                             ("data", JList [JDict []; JDict []])]);
     post_text := "" |}.



(** The archive of the scenario with a launcher icon added. *)
Definition bank_archive_icon : ZipArchive :=
  {| namelist := ["AndroidManifest.xml"; "META-INF/CERT.RSA"; "Classes.DEX";
                  "res/mipmap-mdpi/ic_launcher.png"];
     read := fun n =>
       if n =? "res/mipmap-mdpi/ic_launcher.png" then Ok [x01]
       else read bank_archive n |}.

(** The libraries when the image library is at hand: the icon decodes,
    and its perceptual hash differs from the trusted one in one bit. *)
Definition libs_icon : Libs :=
  {| lib_sha256_hexdigest := lib_sha256_hexdigest libs;
     lib_json_load := lib_json_load libs;
     lib_ZipFile := fun content =>
       if bytes_eqb content apk_bytes then Ok bank_archive_icon
       else Raise BadZipFile;
     lib_AG_APK := lib_AG_APK libs;
     lib_AU_APK := lib_AU_APK libs;
     lib_Image_open := fun data =>
       match data with
       | [x01] => Ok {| img_width := 48; img_height := 48; img_pixels := [] |}
       | _ => Raise (LibraryError "cannot identify image")
       end;
     lib_phash := fun _ => Ok "fffffffffffffffe";
     lib_hex_to_hash := lib_hex_to_hash libs;
     lib_URL_REGEX_search := lib_URL_REGEX_search libs;
     lib_IP_REGEX_search := lib_IP_REGEX_search libs |}.

(** The upload is in place, but it is no archive; the network answers. *)
Definition world_no_archive : World :=
  {| files := fun path =>
       if path =? upload_path then Some trust_bytes else None;
     requests_get := requests_get world_elsewhere |}.

(** A manifest with an empty version code and a permission element
    without name. *)
Definition odd_manifest : xml :=
  XElem []
    [("manifest",
      XElem [("@package", "com.example.odd");
             ("@android:versionCode", "")]
            [("uses-permission",
              XList [XElem [("@android:name", "android.permission.CAMERA")] [];
                     XElem [] [];
                     XElem [("@name", "android.permission.CAMERA")] []])])].

Definition libs_odd : Libs :=
  {| lib_sha256_hexdigest := lib_sha256_hexdigest libs;
     lib_json_load := lib_json_load libs;
     lib_ZipFile := lib_ZipFile libs;
     lib_AG_APK := None;
     lib_AU_APK := Some (fun _ =>
       Ok {| au_get_manifest := Ok odd_manifest;
             au_get_app_icon := Ok None |});
     lib_Image_open := lib_Image_open libs;
     lib_phash := lib_phash libs;
     lib_hex_to_hash := lib_hex_to_hash libs;
     lib_URL_REGEX_search := lib_URL_REGEX_search libs;
     lib_IP_REGEX_search := lib_IP_REGEX_search libs |}.

End Cases.

(* ================================================================== *)
(** * Part II: properties *)
(* ================================================================== *)

(* ------------------------------------------------------------------ *)
(** ** Integer true division *)

Module PyNumFacts.

Local Open Scope Z_scope.

Lemma digits2_pos_bounds (p : positive) :
  2 ^ (Zpos (digits2_pos p) - 1) <= Zpos p < 2 ^ Zpos (digits2_pos p).
Proof.
  induction p as [p IH|p IH|]; cbn [digits2_pos].
  - rewrite Pos2Z.inj_succ.
    replace (Z.succ (Zpos (digits2_pos p)) - 1) with (Zpos (digits2_pos p)) by lia.
    rewrite Z.pow_succ_r by lia.
    assert (2 ^ Zpos (digits2_pos p) = 2 * 2 ^ (Zpos (digits2_pos p) - 1)).
    { rewrite <- Z.pow_succ_r by lia. f_equal. lia. }
    lia.
  - rewrite Pos2Z.inj_succ.
    replace (Z.succ (Zpos (digits2_pos p)) - 1) with (Zpos (digits2_pos p)) by lia.
    rewrite Z.pow_succ_r by lia.
    assert (2 ^ Zpos (digits2_pos p) = 2 * 2 ^ (Zpos (digits2_pos p) - 1)).
    { rewrite <- Z.pow_succ_r by lia. f_equal. lia. }
    lia.
  - simpl. lia.
Qed.

Lemma Zdigits2_le (m n : Z) :
  0 <= m < 2 ^ n -> 0 <= n -> Zdigits2 m <= n.
Proof.
  intros [H0 Hm] Hn. destruct m as [|p|p]; simpl; try lia.
  pose proof (digits2_pos_bounds p) as [Hlo _].
  destruct (Z_le_gt_dec (Zpos (digits2_pos p)) n) as [|Hgt]; [assumption|].
  exfalso.
  assert (2 ^ n <= 2 ^ (Zpos (digits2_pos p) - 1))
    by (apply Z.pow_le_mono_r; lia).
  lia.
Qed.

Lemma shr_1_m (mrs : shr_record) :
  0 <= shr_m mrs -> shr_m (shr_1 mrs) = shr_m mrs / 2.
Proof.
  destruct mrs as [m r s]. simpl. intros Hm.
  destruct m as [|[p|p|]|p]; simpl; try lia; try reflexivity.
  - rewrite Pos2Z.inj_xI. apply Z.div_unique with 1; lia.
  - rewrite Pos2Z.inj_xO. apply Z.div_unique with 0; lia.
Qed.

Lemma pow2_double (p : positive) :
  2 ^ Zpos p~0 = 2 ^ Zpos p * 2 ^ Zpos p.
Proof.
  replace (Zpos p~0) with (Zpos p + Zpos p) by lia.
  apply Z.pow_add_r; lia.
Qed.

Lemma pow2_double_succ (p : positive) :
  2 ^ Zpos p~1 = 2 * (2 ^ Zpos p * 2 ^ Zpos p).
Proof.
  replace (Zpos p~1) with (Z.succ (Zpos p~0)) by lia.
  rewrite Z.pow_succ_r by lia. now rewrite pow2_double.
Qed.

Lemma iter_shr_1_m (p : positive) :
  forall mrs, 0 <= shr_m mrs ->
    shr_m (SpecFloat.iter_pos shr_1 p mrs) = shr_m mrs / 2 ^ Zpos p.
Proof.
  induction p as [p IH|p IH|]; intros mrs Hm; cbn [SpecFloat.iter_pos].
  - assert (Hp : 0 < 2 ^ Zpos p) by (apply Z.pow_pos_nonneg; lia).
    assert (H1 : 0 <= shr_m (shr_1 mrs)).
    { rewrite shr_1_m by assumption. apply Z.div_pos; lia. }
    assert (H2 : 0 <= shr_m (SpecFloat.iter_pos shr_1 p (shr_1 mrs))).
    { rewrite IH by assumption. apply Z.div_pos; assumption. }
    rewrite IH by assumption. rewrite IH by assumption.
    rewrite shr_1_m by assumption.
    rewrite !Z.div_div by lia.
    now rewrite pow2_double_succ.
  - assert (Hp : 0 < 2 ^ Zpos p) by (apply Z.pow_pos_nonneg; lia).
    assert (H2 : 0 <= shr_m (SpecFloat.iter_pos shr_1 p mrs)).
    { rewrite IH by assumption. apply Z.div_pos; assumption. }
    rewrite IH by assumption. rewrite IH by assumption.
    rewrite !Z.div_div by lia.
    now rewrite pow2_double.
  - rewrite shr_1_m by assumption. reflexivity.
Qed.

(** Shifting to the exponent that [fexp] prescribes keeps a mantissa below
    the bound [2 ^ (B - e)] and the exponent at most [B - prec]. *)
Lemma shr_fexp_bound (B m e : Z) (l : location) :
  0 <= m < 2 ^ (B - e) -> e <= B - prec -> SpecFloat.emin prec emax <= B - prec ->
  0 <= shr_m (fst (shr_fexp prec emax m e l))
       < 2 ^ (B - snd (shr_fexp prec emax m e l)) /\
  snd (shr_fexp prec emax m e l) <= B - prec.
Proof.
  intros [H0 Hm] He Hmin. unfold shr_fexp, shr.
  assert (Hrec : shr_m (shr_record_of_loc m l) = m)
    by (destruct l as [|[]]; reflexivity).
  assert (Hd : Zdigits2 m <= B - e)
    by (apply Zdigits2_le; unfold prec in *; lia).
  assert (Hf : SpecFloat.fexp prec emax (Zdigits2 m + e) <= B - prec)
    by (unfold SpecFloat.fexp; lia).
  destruct (SpecFloat.fexp prec emax (Zdigits2 m + e) - e) as [|n|n] eqn:En;
    cbn [fst snd].
  - rewrite Hrec. lia.
  - rewrite iter_shr_1_m by (rewrite Hrec; lia). rewrite Hrec.
    assert (Hp : 0 < 2 ^ Zpos n) by (apply Z.pow_pos_nonneg; lia).
    split; [|lia]. split; [apply Z.div_pos; lia|].
    apply Z.div_lt_upper_bound; [assumption|].
    rewrite <- Z.pow_add_r by (unfold prec in *; lia).
    replace (Zpos n + (B - (e + Zpos n))) with (B - e) by lia.
    assumption.
  - rewrite Hrec. lia.
Qed.

Lemma round_nearest_even_bound (m : Z) (l : location) :
  0 <= m -> 0 <= round_nearest_even m l <= m + 1.
Proof.
  intros Hm. unfold round_nearest_even.
  destruct l as [|[]]; try lia. destruct (Z.even m); lia.
Qed.

Lemma binary_round_aux_finite (sx : bool) (m e : Z) (l : location) :
  0 <= m < 2 ^ (1023 - e) -> e <= 0 ->
  match binary_round_aux prec emax sx m e l with
  | S754_infinity _ | S754_nan => False
  | _ => True
  end.
Proof.
  intros Hm He. unfold binary_round_aux.
  destruct (shr_fexp_bound 1023 m e l) as [[H1 H2] H3];
    [assumption | unfold prec; lia | unfold SpecFloat.emin, prec, emax; lia |].
  destruct (shr_fexp prec emax m e l) as [mrs' e1]. cbn [fst snd] in *.
  pose proof (round_nearest_even_bound (shr_m mrs') (loc_of_shr_record mrs') H1)
    as Hr.
  set (m1 := round_nearest_even (shr_m mrs') (loc_of_shr_record mrs')) in *.
  assert (Hm1 : m1 < 2 ^ (1024 - e1)).
  { replace (1024 - e1) with (Z.succ (1023 - e1)) by lia.
    rewrite Z.pow_succ_r by (unfold prec in *; lia).
    assert (0 < 2 ^ (1023 - e1))
      by (apply Z.pow_pos_nonneg; unfold prec in *; lia).
    lia. }
  destruct (shr_fexp_bound 1024 m1 e1 loc_Exact) as [[H4 H5] H6];
    [lia | unfold prec in *; lia | unfold SpecFloat.emin, prec, emax; lia |].
  destruct (shr_fexp prec emax m1 e1 loc_Exact) as [mrs'' e2].
  cbn [fst snd] in *.
  destruct (shr_m mrs'') as [|p|p]; [exact I | | lia].
  replace (e2 <=? emax - prec) with true; [exact I|].
  symmetry. apply Z.leb_le. unfold emax, prec in *. lia.
Qed.

Lemma SFdiv_core_bound (mx my : positive) :
  Zpos mx < 2 ^ 1023 ->
  let '(mz, ez, _) := SFdiv_core_binary prec emax (Zpos mx) 0 (Zpos my) 0 in
  0 <= mz < 2 ^ (1023 - ez) /\ ez <= 0.
Proof.
  intros Hx. unfold SFdiv_core_binary.
  set (e' := Z.min _ _).
  assert (He : e' <= 0) by (subst e'; lia).
  set (m' := match 0 - 0 - e' with
             | 0 => Zpos mx
             | Zpos _ => Z.shiftl (Zpos mx) (0 - 0 - e')
             | Zneg _ => 0
             end).
  assert (Hm' : m' = Zpos mx * 2 ^ (- e')).
  { subst m'. replace (0 - 0 - e') with (- e') by lia.
    destruct (- e') as [|s|s] eqn:Es; [simpl; lia | | lia].
    rewrite Z.shiftl_mul_pow2 by lia. reflexivity. }
  assert (Hp : 0 < 2 ^ (- e')) by (apply Z.pow_pos_nonneg; lia).
  pose proof (Z_div_mod m' (Zpos my) ltac:(lia)) as Hdiv.
  destruct (Z.div_eucl m' (Zpos my)) as [q r]. destruct Hdiv as [Hq Hr].
  split; [|assumption].
  assert (0 <= m') by (rewrite Hm'; lia).
  assert (Hq0 : 0 <= q) by nia.
  split; [assumption|].
  replace (1023 - e') with (1023 + - e') by lia.
  rewrite Z.pow_add_r by lia. nia.
Qed.

Lemma int_truediv_total (a b : Z) :
  0 < b -> Z.abs a < 2 ^ 1023 -> exists r, int_truediv a b = Ok r.
Proof.
  intros Hb Ha. unfold int_truediv.
  replace (b =? 0) with false by (symmetry; apply Z.eqb_neq; lia).
  destruct b as [|my|my]; try lia.
  destruct a as [|mx|mx]; [simpl; eauto | |];
    cbn [Z2SF SFdiv];
    pose proof (SFdiv_core_bound mx my ltac:(lia)) as H;
    destruct (SFdiv_core_binary prec emax (Zpos mx) 0 (Zpos my) 0)
      as [[mz ez] lz];
    destruct H as [Hm He].
  - pose proof (binary_round_aux_finite (xorb false false) mz ez lz Hm He) as F.
    destruct (binary_round_aux prec emax (xorb false false) mz ez lz);
      try contradiction; eauto.
  - pose proof (binary_round_aux_finite (xorb true false) mz ez lz Hm He) as F.
    destruct (binary_round_aux prec emax (xorb true false) mz ez lz);
      try contradiction; eauto.
Qed.

End PyNumFacts.

(* ------------------------------------------------------------------ *)
(** ** Signal fusion ([app.py]) *)

Module AppFacts.
Import App Spec PyNumFacts.

Open Scope float_scope.

Lemma gtb_ltb_swap (a b : Z) : (a >? b)%Z = (b <? a)%Z.
Proof. apply Z.gtb_ltb. Qed.

Lemma fuse_ratio_outcome (d t : Z) :
  (exists r, fuse_ratio d t = Ok r) \/ fuse_ratio d t = Raise OverflowError.
Proof.
  unfold fuse_ratio, int_truediv.
  destruct (0 <? t)%Z eqn:Ht.
  - apply Z.ltb_lt in Ht.
    replace (t =? 0)%Z with false by (symmetry; apply Z.eqb_neq; lia).
    destruct (SFdiv prec emax (Z2SF d) (Z2SF t)); eauto.
  - left. eauto.
Qed.

Lemma fuse_ratio_total (d t : Z) :
  (t <= 0)%Z \/ (Z.abs d < 2 ^ 1023)%Z -> exists r, fuse_ratio d t = Ok r.
Proof.
  intros H. unfold fuse_ratio. destruct (Z.ltb_spec0 0 t) as [Ht|Ht].
  - destruct H as [H|H]; [lia|]. now apply int_truediv_total.
  - eauto.
Qed.

Lemma combine_unfold (p : float) (d t m : Z) :
  combine_ml_vt_mb p d t m =
  (ratio <- fuse_ratio d t ;;
   Ok (fuse_score p ratio m, verdict_label (fuse_verdict p d m))).
Proof.
  unfold combine_ml_vt_mb, fuse_ratio, fuse_score, fuse_secondary,
    fuse_verdict, fuse_rules.
  rewrite !gtb_ltb_swap.
  destruct (0 <? t)%Z; simpl bind.
  - destruct (int_truediv d t) as [r|e]; simpl; [|reflexivity].
    destruct ((5 <? d)%Z || (0 <? m)%Z); simpl; [reflexivity|].
    destruct ((d =? 0)%Z && (m =? 0)%Z && (0.7 <? p)); simpl; [reflexivity|].
    destruct ((d =? 0)%Z && (m =? 0)%Z && (p <? 0.3)); reflexivity.
  - destruct ((5 <? d)%Z || (0 <? m)%Z); simpl; [reflexivity|].
    destruct ((d =? 0)%Z && (m =? 0)%Z && (0.7 <? p)); simpl; [reflexivity|].
    destruct ((d =? 0)%Z && (m =? 0)%Z && (p <? 0.3)); reflexivity.
Qed.

Lemma fuse_verdict_cases (p : float) (d m : Z) :
  fuse_verdict p d m =
    if (5 <? d)%Z || (0 <? m)%Z then ConfirmedMalicious
    else if (d =? 0)%Z && (m =? 0)%Z && (0.7 <? p) then SuspiciousUndetected
    else if (d =? 0)%Z && (m =? 0)%Z && (p <? 0.3) then LikelySafe
    else PotentiallyRisky.
Proof.
  unfold fuse_verdict, fuse_rules; simpl.
  destruct ((5 <? d)%Z || (0 <? m)%Z); [reflexivity|].
  destruct ((d =? 0)%Z && (m =? 0)%Z && (0.7 <? p)); [reflexivity|].
  destruct ((d =? 0)%Z && (m =? 0)%Z && (p <? 0.3)); reflexivity.
Qed.

Lemma rule_confirmed_reflect (d m : Z) :
  reflect (rule_confirmed d m) ((5 <? d)%Z || (0 <? m)%Z).
Proof.
  unfold rule_confirmed.
  destruct (Z.ltb_spec0 5 d), (Z.ltb_spec0 0 m); simpl; constructor; lia.
Qed.

Lemma rule_suspicious_reflect (p : float) (d m : Z) :
  reflect (rule_suspicious p d m) ((d =? 0)%Z && (m =? 0)%Z && (0.7 <? p)).
Proof.
  unfold rule_suspicious.
  destruct (Z.eqb_spec d 0), (Z.eqb_spec m 0), (0.7 <? p); simpl;
    constructor; intuition congruence.
Qed.

Lemma rule_safe_reflect (p : float) (d m : Z) :
  reflect (rule_safe p d m) ((d =? 0)%Z && (m =? 0)%Z && (p <? 0.3)).
Proof.
  unfold rule_safe.
  destruct (Z.eqb_spec d 0), (Z.eqb_spec m 0), (p <? 0.3); simpl;
    constructor; intuition congruence.
Qed.

Lemma fuse_verdict_precedence (p : float) (d m : Z) :
  (fuse_verdict p d m = ConfirmedMalicious <-> rule_confirmed d m) /\
  (fuse_verdict p d m = SuspiciousUndetected <->
     ~ rule_confirmed d m /\ rule_suspicious p d m) /\
  (fuse_verdict p d m = LikelySafe <->
     ~ rule_confirmed d m /\ ~ rule_suspicious p d m /\ rule_safe p d m) /\
  (fuse_verdict p d m = PotentiallyRisky <->
     ~ rule_confirmed d m /\ ~ rule_suspicious p d m /\ ~ rule_safe p d m).
Proof.
  rewrite fuse_verdict_cases.
  destruct (rule_confirmed_reflect d m) as [Hc|Hc];
  destruct (rule_suspicious_reflect p d m) as [Hs|Hs];
  destruct (rule_safe_reflect p d m) as [Hf|Hf];
  (split; [|split; [|split]]); (split; [intros H; try discriminate H; tauto | intros H; try reflexivity; tauto]).
Qed.

(** C1 (as amended).  For every binary64 [mlProbability] and all integer
    counts the fusion returns [(score, verdict)] unless
    [detectionTotal > 0] and the quotient [detectionCount / detectionTotal]
    overflows binary64, the one case in which it raises ([OverflowError]);
    it returns in particular whenever [detectionTotal <= 0] or
    [|detectionCount| < 2^1023].  The ratio is [0] when
    [detectionTotal <= 0] and the rounded quotient otherwise
    ([fuse_ratio]); the score is the binary64 value of
    [min(0.7*p + 0.15*ratio + 0.15*secondary, 1.0)]; the verdict follows
    the precedence confirmed / suspicious / likely safe / potentially
    risky.  [(0.8, 0, 0, 0)] gives the suspicious verdict with the
    binary64 product [0.7 * 0.8] as score, and [(0.1, 10, 20, 0)] the
    confirmed verdict with score [0.145]. *)
Theorem combine_ml_vt_mb_fuse (p : float) (d t m : Z) :
  (combine_ml_vt_mb p d t m =
     match fuse_ratio d t with
     | Ok ratio =>
         Ok (fuse_score p ratio m, verdict_label (fuse_verdict p d m))
     | Raise _ => Raise OverflowError
     end) /\
  ((t <= 0)%Z \/ (Z.abs d < 2 ^ 1023)%Z ->
   exists ratio,
     fuse_ratio d t = Ok ratio /\
     combine_ml_vt_mb p d t m =
       Ok (fuse_score p ratio m, verdict_label (fuse_verdict p d m))) /\
  (fuse_verdict p d m = ConfirmedMalicious <-> rule_confirmed d m) /\
  (fuse_verdict p d m = SuspiciousUndetected <->
     ~ rule_confirmed d m /\ rule_suspicious p d m) /\
  (fuse_verdict p d m = LikelySafe <->
     ~ rule_confirmed d m /\ ~ rule_suspicious p d m /\ rule_safe p d m) /\
  (fuse_verdict p d m = PotentiallyRisky <->
     ~ rule_confirmed d m /\ ~ rule_suspicious p d m /\ ~ rule_safe p d m) /\
  combine_ml_vt_mb 0.8 0 0 0 =
    Ok (0.7 * 0.8, verdict_label SuspiciousUndetected) /\
  combine_ml_vt_mb 0.1 10 20 0 =
    Ok (0.145, verdict_label ConfirmedMalicious).
Proof.
  split; [|split].
  - rewrite combine_unfold.
    destruct (fuse_ratio_outcome d t) as [[r Hr]|Hr]; rewrite Hr; reflexivity.
  - intros H. destruct (fuse_ratio_total d t H) as [r Hr].
    exists r. split; [assumption|].
    rewrite combine_unfold, Hr. reflexivity.
  - pose proof (fuse_verdict_precedence p d m) as (H1 & H2 & H3 & H4).
    split; [exact H1|]. split; [exact H2|]. split; [exact H3|].
    split; [exact H4|]. split; vm_compute; reflexivity.
Qed.

(** The second example of C1, through the theorem: the counts are in the
    range in which the fusion returns. *)
Lemma combine_ml_vt_mb_witness :
  (Z.abs 10 < 2 ^ 1023)%Z /\
  exists ratio,
    fuse_ratio 10 20 = Ok ratio /\
    combine_ml_vt_mb 0.1 10 20 0 =
      Ok (fuse_score 0.1 ratio 0,
          verdict_label (fuse_verdict 0.1 10 0)).
Proof.
  assert (H : (Z.abs 10 < 2 ^ 1023)%Z) by (vm_compute; reflexivity).
  split; [exact H|].
  exact (proj1 (proj2 (combine_ml_vt_mb_fuse 0.1 10 20 0)) (or_intror H)).
Defined.

(** C1, as stated, fails twice over: in binary64 the score of
    [(0.8, 0, 0, 0)] is not [0.56] (it is the next float below), and the
    function is not total on all integers. *)
Lemma combine_ml_vt_mb_not_as_stated :
  combine_ml_vt_mb 0.8 0 0 0 = Ok (0.7 * 0.8, "Suspicious (New Malware?)"%string) /\
  (0.7 * 0.8 =? 0.56) = false /\
  (0.7 * 0.8 <? 0.56) = true /\
  combine_ml_vt_mb 0.5 (2 ^ 1024) 1 0 = Raise OverflowError.
Proof. repeat split; vm_compute; reflexivity. Qed.

End AppFacts.

(* ------------------------------------------------------------------ *)
(** ** Printable strings ([extract_all_strings]) *)

Module StringsFacts.
Import Utils Spec Invariants.

Local Open Scope list_scope.

Lemma runs_nonempty (data : bytes) : runs data <> [].
Proof.
  destruct data as [|b rest]; simpl; [discriminate|].
  destruct (printable b); [|discriminate].
  destruct (runs rest); discriminate.
Qed.

Lemma runs_printable (data : bytes) :
  Forall (Forall (fun b => printable b = true)) (runs data).
Proof.
  induction data as [|b rest IH]; simpl.
  - repeat constructor.
  - destruct (printable b) eqn:Hb.
    + destruct (runs rest) as [|r rs]; [repeat constructor; assumption|].
      inversion IH; subst. constructor; [constructor|]; assumption.
    + constructor; [constructor | assumption].
Qed.

Lemma runs_count (data : bytes) :
  List.length (runs data) = S (List.length (cuts data)).
Proof.
  induction data as [|b rest IH]; simpl; [reflexivity|].
  destruct (printable b); simpl.
  - destruct (runs rest) as [|r rs] eqn:E; [now apply runs_nonempty in E|].
    simpl in *. assumption.
  - now rewrite IH.
Qed.

Lemma runs_weave (data : bytes) : weave (runs data) (cuts data) = data.
Proof.
  induction data as [|b rest IH]; simpl; [reflexivity|].
  destruct (printable b) eqn:Hb; simpl.
  - destruct (runs rest) as [|r rs] eqn:E; [now apply runs_nonempty in E|].
    destruct (cuts rest) as [|c cs]; simpl in *; now rewrite IH.
  - now rewrite IH.
Qed.

Lemma scan_runs (min_len : Z) (data : bytes) :
  forall out acc,
    flush min_len (fold_left (scan_step min_len) data (out, acc)) =
    out ++ emit min_len
             (match runs data with
              | r :: rs => (acc ++ map chr r) :: map (map chr) rs
              | [] => [acc]
              end).
Proof.
  induction data as [|b rest IH]; intros out acc; simpl.
  - rewrite app_nil_r. unfold emit; simpl.
    destruct (long_enough min_len (List.length acc)); simpl;
      [reflexivity | now rewrite app_nil_r].
  - destruct (printable b) eqn:Hb.
    + rewrite IH.
      destruct (runs rest) as [|r rs] eqn:E; [now apply runs_nonempty in E|].
      simpl. now rewrite <- app_assoc.
    + rewrite IH.
      destruct (runs rest) as [|r rs] eqn:E; [now apply runs_nonempty in E|].
      simpl. rewrite app_nil_r. unfold emit at 2; simpl.
      destruct (long_enough min_len (List.length acc)); simpl.
      * now rewrite <- app_assoc.
      * reflexivity.
Qed.

Lemma long_enough_at_least (min_len : Z) (r : bytes) :
  long_enough min_len (List.length (map chr r)) = at_least min_len r.
Proof.
  unfold long_enough, at_least. rewrite length_map.
  rewrite Z.geb_leb. reflexivity.
Qed.

Lemma emit_runs (min_len : Z) (rs : list bytes) :
  emit min_len (map (map chr) rs) = map text (filter (at_least min_len) rs).
Proof.
  unfold emit. induction rs as [|r rs IH]; simpl; [reflexivity|].
  rewrite long_enough_at_least.
  destruct (at_least min_len r); simpl; now rewrite IH.
Qed.

Lemma extract_all_strings_runs (data : option bytes) (min_len : Z) :
  extract_all_strings data min_len =
  printable_strings (bytes_or_empty data) min_len.
Proof.
  unfold extract_all_strings, printable_strings.
  pose proof (scan_runs min_len (bytes_or_empty data) [] []) as H.
  unfold flush in H.
  destruct (fold_left (scan_step min_len) (bytes_or_empty data) ([], []))
    as [out acc].
  rewrite H. simpl.
  destruct (runs (bytes_or_empty data)) as [|r rs] eqn:E;
    [now apply runs_nonempty in E|].
  change ((map chr r) :: map (map chr) rs) with (map (map chr) (r :: rs)).
  apply emit_runs.
Qed.

Lemma cuts_not_printable (data : bytes) :
  Forall (fun b => printable b = false) (cuts data).
Proof.
  unfold cuts. apply Forall_forall. intros b Hb.
  apply filter_In in Hb. destruct Hb as [_ Hb].
  now apply negb_true_iff in Hb.
Qed.

Lemma printable_range (b : byte) :
  printable b = true <-> (32 <= Byte.to_N b <= 126)%N.
Proof.
  unfold printable. rewrite andb_true_iff, !N.leb_le. tauto.
Qed.

(** C4.  [extract_all_strings] returns, in buffer order, the texts of
    the runs of bytes in [32, 126] whose length is at least [min_len],
    where the runs are what remains of the buffer when it is cut at every
    byte outside that range (so a run ends at such a byte, and the last
    run ends with the buffer); an absent buffer reads as the empty one.
    With [min_len = 5], [b"AB\x00CDEFG\x01"] yields [["CDEFG"]]. *)
Theorem extract_all_strings_scanner (data : option bytes) (min_len : Z) :
  extract_all_strings data min_len =
    map text (filter (at_least min_len) (runs (bytes_or_empty data))) /\
  weave (runs (bytes_or_empty data)) (cuts (bytes_or_empty data)) =
    bytes_or_empty data /\
  List.length (runs (bytes_or_empty data)) =
    S (List.length (cuts (bytes_or_empty data))) /\
  Forall (Forall (fun b => (32 <= Byte.to_N b <= 126)%N))
    (runs (bytes_or_empty data)) /\
  Forall (fun b => ~ (32 <= Byte.to_N b <= 126)%N)
    (cuts (bytes_or_empty data)) /\
  extract_all_strings (Some [x41; x42; x00; x43; x44; x45; x46; x47; x01]) 5
    = ["CDEFG"%string].
Proof.
  split; [apply extract_all_strings_runs|].
  split; [apply runs_weave|].
  split; [apply runs_count|].
  split; [|split].
  - eapply Forall_impl; [|apply runs_printable].
    intros r Hr. eapply Forall_impl; [|exact Hr].
    intros b Hb. now apply printable_range.
  - eapply Forall_impl; [|apply cuts_not_printable].
    intros b Hb Hr. apply printable_range in Hr. congruence.
  - reflexivity.
Qed.

End StringsFacts.

(* ------------------------------------------------------------------ *)
(** ** Strings of the runtime *)

Module PyStrFacts.

Local Open Scope string_scope.

Lemma prefix_app (p s : string) :
  prefix p s = true <-> exists post, s = p ++ post.
Proof.
  revert s. induction p as [|a p IH]; intros s; simpl.
  - destruct s; simpl; split; eauto.
  - destruct s as [|b s]; simpl.
    + split; [discriminate | intros [post H]; discriminate].
    + destruct (ascii_dec a b) as [->|Hab].
      * rewrite IH. split; intros [post H]; exists post; congruence.
      * split; [discriminate | intros [post H]; congruence].
Qed.

Lemma str_in_occurs (sub s : string) :
  str_in sub s = true <-> exists pre post, s = pre ++ sub ++ post.
Proof.
  induction s as [|c s IH]; cbn [str_in].
  - rewrite orb_false_r, prefix_app. split.
    + intros [post H]. exists "", post. exact H.
    + intros (pre & post & H). destruct pre; simpl in H; [eauto|discriminate].
  - rewrite orb_true_iff, prefix_app, IH. split.
    + intros [[post H]|(pre & post & H)].
      * exists "", post. exact H.
      * exists (String c pre), post. simpl. now rewrite H.
    + intros (pre & post & H). destruct pre as [|c' pre]; simpl in H.
      * left. eauto.
      * right. exists pre, post. congruence.
Qed.

Lemma lower_char_idem (c : ascii) : lower_char (lower_char c) = lower_char c.
Proof.
  destruct c as [[] [] [] [] [] [] [] []]; reflexivity.
Qed.

Lemma lower_idem (s : string) : lower (lower s) = lower s.
Proof.
  unfold lower. induction s as [|c s IH]; simpl; [reflexivity|].
  now rewrite lower_char_idem, IH.
Qed.

Lemma name_in_In (n : string) (names : list string) :
  IconUtils.name_in n names = true <-> In n names.
Proof.
  unfold IconUtils.name_in. rewrite existsb_exists. split.
  - intros (x & Hx & E). apply String.eqb_eq in E. now subst.
  - intros H. exists n. split; [assumption | apply String.eqb_refl].
Qed.

End PyStrFacts.

(* ------------------------------------------------------------------ *)
(** ** Archive entries ([extract_zip_entry_bytes]) *)

Module ArchiveFacts.
Import Utils Spec PyStrFacts.

Local Open Scope list_scope.

Lemma matches_contains_ci (needle name : string) :
  str_in (lower needle) (lower name) = true <-> contains_ci needle name.
Proof. apply str_in_occurs. Qed.

Lemma first_entry_none (z : ZipArchive) (needle : string) (names : list string) :
  (forall n, In n names -> ~ contains_ci needle n) ->
  first_entry z needle names = Ok None.
Proof.
  induction names as [|n rest IH]; intros H; simpl; [reflexivity|].
  destruct (str_in (lower needle) (lower n)) eqn:E.
  - apply matches_contains_ci in E. exfalso. apply (H n); simpl; auto.
  - apply IH. intros n' Hn'. apply H. simpl; auto.
Qed.

Lemma first_entry_first (z : ZipArchive) (needle : string)
    (pre : list string) (n : string) (post : list string) :
  (forall n', In n' pre -> ~ contains_ci needle n') ->
  contains_ci needle n ->
  first_entry z needle (pre ++ n :: post) =
  (data <- read z n ;; Ok (Some data)).
Proof.
  induction pre as [|n0 pre IH]; intros Hpre Hn; simpl.
  - apply matches_contains_ci in Hn. now rewrite Hn.
  - destruct (str_in (lower needle) (lower n0)) eqn:E.
    + apply matches_contains_ci in E. exfalso. apply (Hpre n0); simpl; auto.
    + apply IH; [|assumption]. intros n' Hn'. apply Hpre. simpl; auto.
Qed.

(** The names either hold no match or split at their first match. *)
Lemma first_match_split (needle : string) (names : list string) :
  (forall n, In n names -> ~ contains_ci needle n) \/
  exists pre n post,
    names = pre ++ n :: post /\
    (forall n', In n' pre -> ~ contains_ci needle n') /\
    contains_ci needle n.
Proof.
  induction names as [|n rest IH].
  - left. intros n [].
  - destruct (str_in (lower needle) (lower n)) eqn:E.
    + right. exists [], n, rest. split; [reflexivity|].
      split; [intros n' [] | now apply matches_contains_ci].
    + assert (Hn : ~ contains_ci needle n).
      { intros H. apply matches_contains_ci in H. congruence. }
      destruct IH as [IH|(pre & m & post & -> & Hpre & Hm)].
      * left. intros n' [<-|Hn']; auto.
      * right. exists (n :: pre), m, post. split; [reflexivity|].
        split; [|assumption]. intros n' [<-|Hn']; auto.
Qed.

Section Archive.

Variable ZipFile : string -> result ZipArchive.

Lemma extract_bad_zip (path needle : string) :
  ZipFile path = Raise BadZipFile ->
  extract_zip_entry_bytes ZipFile path needle = Ok None.
Proof.
  intros H. unfold extract_zip_entry_bytes. rewrite H. reflexivity.
Qed.

Lemma extract_open_error (path needle : string) (e : exn) :
  ZipFile path = Raise e -> e <> BadZipFile ->
  extract_zip_entry_bytes ZipFile path needle = Raise e.
Proof.
  intros H He. unfold extract_zip_entry_bytes. rewrite H. simpl.
  destruct e; try reflexivity. congruence.
Qed.

Lemma extract_no_match (path needle : string) (z : ZipArchive) :
  ZipFile path = Ok z ->
  (forall n, In n (namelist z) -> ~ contains_ci needle n) ->
  extract_zip_entry_bytes ZipFile path needle = Ok None.
Proof.
  intros H Hn. unfold extract_zip_entry_bytes. rewrite H. simpl.
  now rewrite first_entry_none.
Qed.

Lemma extract_first_match (path needle : string) (z : ZipArchive)
    (pre : list string) (n : string) (post : list string) :
  ZipFile path = Ok z ->
  namelist z = pre ++ n :: post ->
  (forall n', In n' pre -> ~ contains_ci needle n') ->
  contains_ci needle n ->
  extract_zip_entry_bytes ZipFile path needle =
    match read z n with
    | Ok data => Ok (Some data)
    | Raise BadZipFile => Ok None
    | Raise e => Raise e
    end.
Proof.
  intros H Hnames Hpre Hn. unfold extract_zip_entry_bytes.
  rewrite H. simpl. rewrite Hnames, first_entry_first by assumption.
  destruct (read z n) as [data|e]; simpl; [reflexivity|].
  destruct e; reflexivity.
Qed.

Lemma extract_never_bad_zip (path needle : string) :
  extract_zip_entry_bytes ZipFile path needle <> Raise BadZipFile.
Proof.
  unfold extract_zip_entry_bytes.
  destruct (ZipFile path) as [z|e]; simpl.
  - destruct (first_entry z needle (namelist z)) as [r|e]; simpl;
      [discriminate|].
    destruct e; simpl; discriminate.
  - destruct e; simpl; discriminate.
Qed.

End Archive.

(** C6 (as amended).  The entry is looked up by a case-insensitive
    substring match on the names, in archive order, and the bytes read
    under the first matching name are returned.  The result is absent when
    the archive is not a valid zip container ([BadZipFile], on opening or
    on reading the entry) or when no name matches.  Every other failure to
    open the archive or to read the entry is raised to the caller. *)
Theorem extract_zip_entry_bytes_first_match
    (ZipFile : string -> result ZipArchive) (path needle : string) :
  (ZipFile path = Raise BadZipFile ->
   extract_zip_entry_bytes ZipFile path needle = Ok None) /\
  (forall e, ZipFile path = Raise e -> e <> BadZipFile ->
   extract_zip_entry_bytes ZipFile path needle = Raise e) /\
  (forall z, ZipFile path = Ok z ->
   (forall n, In n (namelist z) -> ~ contains_ci needle n) ->
   extract_zip_entry_bytes ZipFile path needle = Ok None) /\
  (forall z pre n post, ZipFile path = Ok z ->
   namelist z = pre ++ n :: post ->
   (forall n', In n' pre -> ~ contains_ci needle n') ->
   contains_ci needle n ->
   extract_zip_entry_bytes ZipFile path needle =
     match read z n with
     | Ok data => Ok (Some data)
     | Raise BadZipFile => Ok None
     | Raise e => Raise e
     end) /\
  (forall z, ZipFile path = Ok z ->
   (forall n, In n (namelist z) -> ~ contains_ci needle n) \/
   exists pre n post,
     namelist z = pre ++ n :: post /\
     (forall n', In n' pre -> ~ contains_ci needle n') /\
     contains_ci needle n).
Proof.
  split; [apply extract_bad_zip|].
  split; [intros e; apply extract_open_error|].
  split; [intros z; apply extract_no_match|].
  split; [intros z pre n post; apply extract_first_match|].
  intros z _. apply first_match_split.
Qed.

End ArchiveFacts.

(* ------------------------------------------------------------------ *)
(** ** The runtime's control flow *)

Module PyFacts.

Lemma try_except_Exception_total {A : Type} (c : result A) (d : A) :
  exists a, try_except c (except_Exception (Ok d)) = Ok a.
Proof. destruct c as [a|e]; simpl; eauto. Qed.

Lemma try_except_Exception_raise {A : Type} (c : result A) (d : A) (e : exn) :
  c = Raise e -> try_except c (except_Exception (Ok d)) = Ok d.
Proof. intros ->. reflexivity. Qed.

Lemma bind_ok {A B : Type} (c : result A) (k : A -> result B) (b : B) :
  bind c k = Ok b -> exists a, c = Ok a /\ k a = Ok b.
Proof. destruct c as [a|e]; simpl; [eauto | discriminate]. Qed.

Lemma io_bind_ok {A B : Type} (c : IO A) (k : A -> IO B)
    (tr tr' : list string) (b : B) :
  io_bind c k tr = (Ok b, tr') ->
  exists a tr1, c tr = (Ok a, tr1) /\ k a tr1 = (Ok b, tr').
Proof.
  unfold io_bind. destruct (c tr) as [[a|e] tr1]; [eauto|].
  intros H. inversion H.
Qed.

Lemma io_lift_ok {A : Type} (c : result A) (tr tr' : list string) (a : A) :
  io_lift c tr = (Ok a, tr') -> c = Ok a /\ tr' = tr.
Proof. unfold io_lift. intros H. inversion H. auto. Qed.

End PyFacts.

(* ------------------------------------------------------------------ *)
(** ** The manifest extractor *)

Module ManifestFacts.
Import Utils IconUtils VtLookup StaticAnalyzer Spec PyFacts.

Local Open Scope list_scope.

Section Backends.

Variable L : Libs.
Variable W : World.

Lemma androguard_total (apk_path : string) :
  exists m, _extract_manifest_with_androguard L W apk_path = Ok m.
Proof.
  unfold _extract_manifest_with_androguard.
  destruct (lib_AG_APK L); [|eauto].
  apply try_except_Exception_total.
Qed.

Lemma apkutils_total (apk_path : string) :
  exists m, _extract_manifest_with_apkutils L W apk_path = Ok m.
Proof.
  unfold _extract_manifest_with_apkutils.
  destruct (lib_AU_APK L); [|eauto].
  apply try_except_Exception_total.
Qed.



Lemma androguard_accessor_raises (apk_path : string) AG_APK
    (a : AG_APK_obj) (e : exn) :
  lib_AG_APK L = Some AG_APK ->
  (content <- open_rb W apk_path ;; AG_APK content) = Ok a ->
  ag_get_app_name a = Raise e \/
  ag_get_androidversion_name a = Raise e \/
  ag_get_androidversion_code a = Raise e \/
  ag_get_permissions a = Raise e ->
  _extract_manifest_with_androguard L W apk_path = Ok None.
Proof.
  intros H1 H2 H. unfold _extract_manifest_with_androguard.
  rewrite H1, H2. cbn [bind].
  destruct (ag_get_app_name a) as [label|e1]; [|reflexivity].
  destruct (ag_get_androidversion_name a) as [vn|e2]; [|reflexivity].
  destruct (ag_get_androidversion_code a) as [vc|e3]; [|reflexivity].
  destruct (ag_get_permissions a) as [perms|e4].
  - destruct H as [H|[H|[H|H]]]; discriminate.
  - cbn [bind]. destruct (opt_truthy vc); reflexivity.
Qed.


Lemma extract_meta_first (apk_path : string) :
  exists m1 m2,
    _extract_manifest_with_androguard L W apk_path = Ok m1 /\
    _extract_manifest_with_apkutils L W apk_path = Ok m2 /\
    extract_meta L W apk_path = Ok (first_record m1 m2).
Proof.
  destruct (androguard_total apk_path) as [m1 H1].
  destruct (apkutils_total apk_path) as [m2 H2].
  exists m1, m2. split; [assumption|]. split; [assumption|].
  unfold extract_meta. rewrite H1. cbn [bind].
  destruct m1; [reflexivity | assumption].
Qed.

End Backends.

End ManifestFacts.

(* ------------------------------------------------------------------ *)
(** ** The orchestrator ([analyze_apk]) *)

Module AnalyzerFacts.
Import Utils IconUtils VtLookup StaticAnalyzer Spec PyFacts.

Local Open Scope list_scope.

Ltac io_inv H :=
  let a := fresh "a" in
  let tr1 := fresh "tr" in
  let H1 := fresh "H" in
  apply io_bind_ok in H; destruct H as (a & tr1 & H1 & H);
  apply io_lift_ok in H1; destruct H1 as [H1 ->].

(** What a returned result records, step by step. *)
Lemma analyze_apk_ok (L : Libs) (W : World) (apk td : string) (vte : bool)
    (tr tr' : list string) (r : AnalysisResult) :
  analyze_apk L W apk td vte tr = (Ok r, tr') ->
  exists meta classes trusted certs,
    extract_meta L W apk = Ok meta /\
    extract_zip_entry_bytes (ZipFile L W) apk "classes.dex" = Ok classes /\
    _load_trusted_data L W td = Ok trusted /\
    trusted_certs_of trusted = Ok certs /\
    package r = meta_get meta rec_package /\
    app_label r = meta_get meta rec_label /\
    version_name r = meta_get meta rec_version_name /\
    version_code r = meta_get meta rec_version_code /\
    permissions r = meta_permissions meta /\
    dangerous_permissions r = dangerous_of (meta_permissions meta) /\
    cert_fingerprint r = meta_get meta rec_cert_fingerprint /\
    cert_trusted_match r =
      cert_match_of (meta_get meta rec_cert_fingerprint) certs /\
    entropy_classes_dex r = entropy_of classes.
Proof.
  unfold analyze_apk. intros H.
  io_inv H. io_inv H. io_inv H. io_inv H. io_inv H. io_inv H.
  apply io_bind_ok in H. destruct H as (vt0 & tr2 & Hvt & H).
  io_inv H. io_inv H. io_inv H.
  apply io_lift_ok in H. destruct H as [H ->].
  inversion H; subst r; clear H. simpl.
  match goal with
  | Hm : extract_meta _ _ _ = Ok ?m,
    Hc : extract_zip_entry_bytes _ _ "classes.dex" = Ok ?c,
    Ht : _load_trusted_data _ _ _ = Ok ?t |- _ =>
      exists m, c, t
  end.
  eexists. repeat (split; [eassumption || reflexivity|]). reflexivity.
Qed.

(** *** No network request without [vt_enabled] *)




(** *** The result depends on the two files only *)


End AnalyzerFacts.

(* ------------------------------------------------------------------ *)
(** ** Sensitive permissions *)

Module PermissionFacts.
Import IconUtils StaticAnalyzer Spec PyStrFacts.

Local Open Scope list_scope.

(** *** The order on strings *)

Lemma ascii_compare_lt_trans (a b c : ascii) :
  Ascii.compare a b = Lt -> Ascii.compare b c = Lt -> Ascii.compare a c = Lt.
Proof.
  unfold Ascii.compare. rewrite !N.compare_lt_iff. lia.
Qed.

Lemma ascii_compare_refl (a : ascii) : Ascii.compare a a = Eq.
Proof. unfold Ascii.compare. apply N.compare_refl. Qed.

Lemma string_compare_refl (s : string) : String.compare s s = Eq.
Proof.
  induction s as [|c s IH]; simpl; [reflexivity|].
  now rewrite ascii_compare_refl.
Qed.

Lemma string_compare_lt_trans (a b c : string) :
  String.compare a b = Lt -> String.compare b c = Lt ->
  String.compare a c = Lt.
Proof.
  revert b c. induction a as [|x a IH]; intros [|y b] [|z c]; simpl;
    try discriminate; try reflexivity.
  destruct (Ascii.compare x y) eqn:Exy; try discriminate;
  destruct (Ascii.compare y z) eqn:Eyz; try discriminate; intros H1 H2.
  - apply Ascii.compare_eq_iff in Exy, Eyz. subst.
    rewrite ascii_compare_refl. eapply IH; eassumption.
  - apply Ascii.compare_eq_iff in Exy. subst. now rewrite Eyz.
  - apply Ascii.compare_eq_iff in Eyz. subst. now rewrite Exy.
  - now rewrite (ascii_compare_lt_trans x y z).
Qed.

Lemma leb_cases (a b : string) :
  String.leb a b = true <-> String.compare a b = Lt \/ a = b.
Proof.
  unfold String.leb. split.
  - destruct (String.compare a b) eqn:E; intros H; try discriminate.
    + right. now apply String.compare_eq_iff.
    + now left.
  - intros [H|H].
    + now rewrite H.
    + subst. now rewrite string_compare_refl.
Qed.

Lemma leb_trans (a b c : string) :
  String.leb a b = true -> String.leb b c = true -> String.leb a c = true.
Proof.
  rewrite !leb_cases. intros [H1|H1] [H2|H2]; subst; auto.
  left. eapply string_compare_lt_trans; eassumption.
Qed.

Lemma ltb_leb_neq (a b : string) :
  String.ltb a b = true <-> String.leb a b = true /\ a <> b.
Proof.
  rewrite leb_cases. unfold String.ltb. split.
  - destruct (String.compare a b) eqn:E; try discriminate. intros _.
    split; [now left|]. intros ->. rewrite string_compare_refl in E.
    discriminate.
  - intros [[H|H] Hne]; [now rewrite H | contradiction].
Qed.

Lemma ltb_irrefl (a : string) : String.ltb a a = false.
Proof. unfold String.ltb. now rewrite string_compare_refl. Qed.

Lemma ltb_asym (a b : string) :
  String.ltb a b = true -> String.ltb b a = true -> False.
Proof.
  unfold String.ltb. rewrite (String.compare_antisym b a).
  destruct (String.compare a b); simpl; discriminate.
Qed.

(** *** [set], [intersection], [sorted] *)

Lemma set_of_In (l : list string) (x : string) : In x (set_of l) <-> In x l.
Proof.
  induction l as [|y l IH]; simpl; [tauto|].
  destruct (name_in y (set_of l)) eqn:E.
  - apply name_in_In in E. rewrite IH. split; [tauto|].
    intros [<-|H]; [now apply IH | assumption].
  - simpl. rewrite IH. tauto.
Qed.

Lemma set_of_NoDup (l : list string) : NoDup (set_of l).
Proof.
  induction l as [|y l IH]; simpl; [constructor|].
  destruct (name_in y (set_of l)) eqn:E; [assumption|].
  constructor; [|assumption].
  intros H. apply name_in_In in H. congruence.
Qed.

Lemma intersection_In (a b : list string) (x : string) :
  In x (intersection a b) <-> In x a /\ In x b.
Proof.
  unfold intersection. rewrite filter_In, name_in_In. tauto.
Qed.

Lemma insert_sorted_perm (x : string) (l : list string) :
  Permutation (insert_sorted x l) (x :: l).
Proof.
  induction l as [|y l IH]; simpl; [reflexivity|].
  destruct (String.leb x y); [reflexivity|].
  rewrite IH. apply perm_swap.
Qed.

Lemma sorted_perm (l : list string) : Permutation (sorted l) l.
Proof.
  unfold sorted. induction l as [|x l IH]; simpl; [reflexivity|].
  rewrite insert_sorted_perm. now constructor.
Qed.

Lemma insert_sorted_le (x : string) (l : list string) :
  StronglySorted (fun a b => String.leb a b = true) l ->
  StronglySorted (fun a b => String.leb a b = true) (insert_sorted x l).
Proof.
  induction l as [|y l IH]; intros Hs; simpl.
  - repeat constructor.
  - inversion Hs as [|? ? Hs' Hy]; subst.
    destruct (String.leb x y) eqn:E.
    + constructor; [assumption|]. constructor; [assumption|].
      eapply Forall_impl; [|exact Hy]. intros z Hz.
      eapply leb_trans; eassumption.
    + constructor; [now apply IH|].
      assert (Hyx : String.leb y x = true).
      { destruct (String.leb_total x y); congruence. }
      apply Forall_forall. intros z Hz.
      apply (Permutation_in _ (insert_sorted_perm x l)) in Hz.
      destruct Hz as [<-|Hz]; [assumption|].
      rewrite Forall_forall in Hy. now apply Hy.
Qed.

Lemma sorted_le (l : list string) :
  StronglySorted (fun a b => String.leb a b = true) (sorted l).
Proof.
  unfold sorted. induction l as [|x l IH]; simpl; [constructor|].
  now apply insert_sorted_le.
Qed.

Lemma le_NoDup_strict (l : list string) :
  StronglySorted (fun a b => String.leb a b = true) l -> NoDup l ->
  strictly_ascending l.
Proof.
  unfold strictly_ascending.
  induction 1 as [|x l Hs IH Hx]; intros Hnd; [constructor|].
  inversion Hnd; subst. constructor; [now apply IH|].
  apply Forall_forall. intros y Hy. apply ltb_leb_neq.
  rewrite Forall_forall in Hx. split; [now apply Hx|].
  intros ->. contradiction.
Qed.

Lemma strictly_ascending_unique (l1 l2 : list string) :
  strictly_ascending l1 -> strictly_ascending l2 ->
  (forall x, In x l1 <-> In x l2) -> l1 = l2.
Proof.
  unfold strictly_ascending. intros H1. revert l2.
  induction H1 as [|a l1 Hs1 IH Ha]; intros l2 H2 Hmem.
  - destruct l2 as [|b l2]; [reflexivity|].
    exfalso. apply (Hmem b). now left.
  - destruct H2 as [|b l2 Hs2 Hb].
    + exfalso. apply (Hmem a). now left.
    + rewrite Forall_forall in Ha, Hb.
      assert (a = b) as <-.
      { destruct (proj1 (Hmem a) (or_introl eq_refl)) as [E|Hin]; [auto|].
        destruct (proj2 (Hmem b) (or_introl eq_refl)) as [E|Hin']; [auto|].
        exfalso. eapply ltb_asym; [apply Ha | apply Hb]; eassumption. }
      f_equal. apply IH; [assumption|]. intros x. split; intros Hx.
      * destruct (proj1 (Hmem x) (or_intror Hx)) as [E|Hin]; [|assumption].
        subst. apply Ha in Hx. rewrite ltb_irrefl in Hx. discriminate.
      * destruct (proj2 (Hmem x) (or_intror Hx)) as [E|Hin]; [|assumption].
        subst. apply Hb in Hx. rewrite ltb_irrefl in Hx. discriminate.
Qed.

(** *** The derived list *)

Lemma dangerous_of_In (perms : list string) (x : string) :
  In x (dangerous_of perms) <-> In x perms /\ In x DANGEROUS_PERMS.
Proof.
  unfold dangerous_of. split.
  - intros H. apply (Permutation_in _ (sorted_perm _)) in H.
    apply intersection_In in H. now rewrite set_of_In in H.
  - intros H. apply (Permutation_in _ (Permutation_sym (sorted_perm _))).
    apply intersection_In. now rewrite set_of_In.
Qed.

Lemma dangerous_of_NoDup (perms : list string) : NoDup (dangerous_of perms).
Proof.
  unfold dangerous_of.
  eapply Permutation_NoDup; [apply Permutation_sym, sorted_perm|].
  unfold intersection. apply NoDup_filter, set_of_NoDup.
Qed.

Lemma dangerous_of_ascending (perms : list string) :
  strictly_ascending (dangerous_of perms).
Proof.
  apply le_NoDup_strict; [apply sorted_le | apply dangerous_of_NoDup].
Qed.

End PermissionFacts.

(* ------------------------------------------------------------------ *)
(** ** Entropy ([shannon_entropy]) *)

Module EntropyFacts.
Import Utils Invariants.

Local Open Scope list_scope.

Lemma list_incr_length (l : list nat) (i : nat) :
  List.length (list_incr l i) = List.length l.
Proof.
  revert i. induction l as [|c l IH]; intros [|i]; simpl; auto.
Qed.

Lemma list_incr_nth (l : list nat) (i j : nat) :
  (j < List.length l)%nat ->
  nth i (list_incr l j) 0%nat =
  (nth i l 0 + if (j =? i)%nat then 1 else 0)%nat.
Proof.
  revert i j. induction l as [|c l IH]; intros i j Hj; simpl in Hj; [lia|].
  destruct j as [|j]; destruct i as [|i]; simpl; try lia.
  - apply IH. lia.
Qed.

Lemma list_incr_sum (l : list nat) (j : nat) :
  (j < List.length l)%nat -> list_sum (list_incr l j) = S (list_sum l).
Proof.
  revert j. induction l as [|c l IH]; intros j Hj; simpl in Hj; [lia|].
  destruct j as [|j]; simpl; [reflexivity|].
  rewrite IH by lia. lia.
Qed.

Lemma to_nat_lt (b : byte) : (Byte.to_nat b < 256)%nat.
Proof. pose proof (Byte.to_nat_bounded b). lia. Qed.

Lemma freq_fold (data : bytes) :
  forall acc, List.length acc = 256%nat ->
    let freq := fold_left (fun freq b => list_incr freq (Byte.to_nat b))
                  data acc in
    List.length freq = 256%nat /\
    list_sum freq = (list_sum acc + List.length data)%nat /\
    forall i, nth i freq 0%nat = (nth i acc 0 + byte_count i data)%nat.
Proof.
  induction data as [|b rest IH]; intros acc Hacc; simpl.
  - repeat split; auto.
  - pose proof (to_nat_lt b) as Hb.
    destruct (IH (list_incr acc (Byte.to_nat b))) as (H1 & H2 & H3).
    { now rewrite list_incr_length. }
    split; [exact H1|]. split.
    + rewrite H2, list_incr_sum by lia. lia.
    + intros i. rewrite H3, list_incr_nth by lia.
      unfold byte_count. simpl.
      destruct (Byte.to_nat b =? i)%nat; simpl; lia.
Qed.

Lemma repeat_zero_sum (n : nat) : list_sum (repeat 0%nat n) = 0%nat.
Proof. induction n; simpl; auto. Qed.

Lemma nth_repeat_zero (i n : nat) : nth i (repeat 0%nat n) 0%nat = 0%nat.
Proof.
  revert i. induction n as [|n IH]; intros [|i]; simpl; auto.
Qed.

Lemma byte_freq_length (data : bytes) : List.length (byte_freq data) = 256%nat.
Proof.
  apply (freq_fold data (repeat 0%nat 256)). apply repeat_length.
Qed.

Lemma byte_freq_sum (data : bytes) :
  list_sum (byte_freq data) = List.length data.
Proof.
  destruct (freq_fold data (repeat 0%nat 256)) as (_ & H & _);
    [apply repeat_length|].
  unfold byte_freq. rewrite H. now rewrite repeat_zero_sum.
Qed.

Lemma byte_freq_nth (data : bytes) (i : nat) :
  nth i (byte_freq data) 0%nat = byte_count i data.
Proof.
  destruct (freq_fold data (repeat 0%nat 256)) as (_ & _ & H);
    [apply repeat_length|].
  unfold byte_freq. rewrite H. now rewrite nth_repeat_zero.
Qed.

Lemma byte_count_le (i : nat) (data : bytes) :
  (byte_count i data <= List.length data)%nat.
Proof. apply filter_length_le. Qed.



Local Open Scope R_scope.

Lemma entropy_fold (n : nat) (l : list nat) :
  forall e, fold_left (entropy_step n) l e = e + sum_terms n l.
Proof.
  induction l as [|c l IH]; intros e; simpl; [lra|].
  rewrite IH. unfold entropy_step, term.
  destruct (c =? 0)%nat; lra.
Qed.

Lemma ln2_pos : 0 < ln 2.
Proof. rewrite <- ln_1. apply ln_increasing; lra. Qed.


Lemma ln_256 : ln 256 = 8 * ln 2.
Proof.
  replace 256 with (2 ^ 8) by (simpl; lra).
  rewrite ln_pow by lra. simpl INR. lra.
Qed.









Lemma In_le_list_sum (c : nat) (l : list nat) :
  In c l -> (c <= list_sum l)%nat.
Proof.
  induction l as [|x l IH]; simpl; [tauto|].
  intros [->|H]; [lia|]. apply IH in H. lia.
Qed.


Lemma shannon_entropy_sum (data : bytes) :
  data <> [] ->
  shannon_entropy data = sum_terms (List.length data) (byte_freq data).
Proof.
  intros H. unfold shannon_entropy. destruct data; [contradiction|].
  rewrite entropy_fold. lra.
Qed.



End EntropyFacts.

(* ------------------------------------------------------------------ *)
(** ** The trust database ([_load_trusted_data], certificate match) *)

Module TrustFacts.
Import Utils IconUtils VtLookup StaticAnalyzer Spec Scenario.
Import PyFacts PyStrFacts AnalyzerFacts.

Local Open Scope list_scope.
Local Open Scope string_scope.

Lemma load_missing (L : Libs) (W : World) (path : string) :
  files W path = None ->
  _load_trusted_data L W path = Ok empty_trusted_data.
Proof.
  intros H. unfold _load_trusted_data, path_exists. now rewrite H.
Qed.

Lemma load_present (L : Libs) (W : World) (path : string) (content : bytes) :
  files W path = Some content ->
  _load_trusted_data L W path = lib_json_load L content.
Proof.
  intros H. unfold _load_trusted_data, path_exists, open_rb. now rewrite H.
Qed.

(** C2 (as amended).  Loading the trust database returns the empty
    database (no certificate, no icon hash) when the source file is
    missing.  When the file exists the load is the JSON decoder's outcome
    on its contents: the decoded document, or the decoder's error, raised
    to the caller, when the contents cannot be parsed. *)
Theorem load_trusted_data_outcomes (L : Libs) (W : World) (path : string) :
  (files W path = None ->
   _load_trusted_data L W path = Ok empty_trusted_data) /\
  (forall content, files W path = Some content ->
   _load_trusted_data L W path = lib_json_load L content) /\
  (forall content e, files W path = Some content ->
   lib_json_load L content = Raise e ->
   _load_trusted_data L W path = Raise e) /\
  trusted_certs_of empty_trusted_data = Ok [] /\
  trusted_icons_of empty_trusted_data = Ok [].
Proof.
  split; [apply load_missing|].
  split; [intros content; apply load_present|].
  split; [|split; reflexivity].
  intros content e Hf He. now rewrite (load_present L W path content Hf).
Qed.

(** C2, as stated, fails: a trust file that exists and cannot be parsed
    makes the load raise. *)
Lemma load_trusted_data_unparsable :
  files world_broken_trust trust_path = Some [x7b] /\
  lib_json_load libs [x7b] = Raise JSONDecodeError /\
  _load_trusted_data libs world_broken_trust trust_path
    = Raise JSONDecodeError.
Proof. repeat split. Qed.

(** The three outcomes of C2 on the scenario: no file, a document, and
    a file the decoder refuses. *)
Lemma load_trusted_data_witness :
  (files world "/nowhere/trust.json" = None /\
   _load_trusted_data libs world "/nowhere/trust.json"
     = Ok empty_trusted_data) /\
  (files world trust_path = Some trust_bytes /\
   _load_trusted_data libs world trust_path = Ok trust_document) /\
  (files world_broken_trust trust_path = Some [x7b] /\
   lib_json_load libs [x7b] = Raise JSONDecodeError /\
   _load_trusted_data libs world_broken_trust trust_path
     = Raise JSONDecodeError).
Proof.
  split; [|split].
  - split; [reflexivity|].
    apply (proj1 (load_trusted_data_outcomes libs world "/nowhere/trust.json")).
    reflexivity.
  - split; [reflexivity|].
    apply (proj1 (proj2 (load_trusted_data_outcomes libs world trust_path))
             trust_bytes).
    reflexivity.
  - split; [reflexivity|]. split; [reflexivity|].
    apply (proj1 (proj2 (proj2
             (load_trusted_data_outcomes libs world_broken_trust trust_path)))
             [x7b] JSONDecodeError); reflexivity.
Defined.

(** *** Certificate match *)

Lemma map_result_lower (items : list json) (certs : list string) :
  map_result json_lower items = Ok certs ->
  exists entries, items = map JStr entries /\ certs = map lower entries.
Proof.
  revert certs. induction items as [|c items IH]; intros certs; simpl.
  - intros H. inversion H. exists []. auto.
  - destruct c; simpl; try discriminate.
    destruct (map_result json_lower items) as [bs|e]; simpl; [|discriminate].
    intros H. inversion H; subst.
    destruct (IH bs eq_refl) as (entries & -> & ->).
    exists (s :: entries). auto.
Qed.

Lemma cert_match_of_iff (cert_fp : option string) (entries : list string) :
  cert_match_of cert_fp (map lower entries) = true <->
  exists fp, cert_fp = Some fp /\ fp <> "" /\
    exists entry, In entry entries /\ lower entry = lower fp.
Proof.
  unfold cert_match_of. destruct cert_fp as [fp|].
  - rewrite andb_true_iff, name_in_In, in_map_iff. unfold str_truthy.
    rewrite negb_true_iff, String.eqb_neq. split.
    + intros [Hfp (entry & He & Hin)]. eauto 6.
    + intros (fp' & E & Hfp & entry & Hin & He). inversion E; subst. eauto.
  - split; [discriminate|]. intros (fp & E & _). discriminate.
Qed.

(** C7.  In every analysis result, [cert_trusted_match] is true exactly
    when a certificate fingerprint was extracted, is not the empty
    string, and equals an entry of the trust database's certificate list
    once both are lowered.  A result without fingerprint never has
    [cert_trusted_match] true.  The fingerprint ["AB12"] matches the entry
    ["ab12"]. *)
Theorem cert_trusted_match_sound (L : Libs) (W : World) (apk td : string)
    (vte : bool) (tr tr' : list string) (r : AnalysisResult) :
  analyze_apk L W apk td vte tr = (Ok r, tr') ->
  (exists trusted entries,
     _load_trusted_data L W td = Ok trusted /\
     trusted_certs_of trusted = Ok (map lower entries) /\
     (cert_trusted_match r = true <->
      exists fp, cert_fingerprint r = Some fp /\ fp <> "" /\
        exists entry, In entry entries /\ lower entry = lower fp)) /\
  (cert_fingerprint r = None -> cert_trusted_match r = false) /\
  cert_match_of (Some "AB12") (map lower ["ab12"]) = true.
Proof.
  intros H.
  destruct (analyze_apk_ok _ _ _ _ _ _ _ _ H)
    as (meta & classes & trusted & certs & _ & _ & Hload & Hcerts & _ & _
        & _ & _ & _ & _ & Hfp & Hmatch & _).
  assert (Hentries : exists entries, certs = map lower entries).
  { unfold trusted_certs_of in Hcerts.
    apply bind_ok in Hcerts. destruct Hcerts as (c0 & _ & Hcerts).
    apply bind_ok in Hcerts. destruct Hcerts as (items & _ & Hcerts).
    apply map_result_lower in Hcerts.
    destruct Hcerts as (entries & _ & ->). eauto. }
  destruct Hentries as (entries & ->).
  split; [|split].
  - exists trusted, entries. split; [assumption|]. split; [assumption|].
    rewrite Hmatch, Hfp. apply cert_match_of_iff.
  - intros Hnone. rewrite Hmatch, <- Hfp, Hnone. reflexivity.
  - reflexivity.
Qed.

(** C7 on the scenario: the fingerprint [ab12] of the signing certificate
    matches the entry [AB12] of the trust document. *)
Lemma cert_trusted_match_witness :
  exists r,
    analyze_apk libs world upload_path trust_path false [] = (Ok r, []) /\
    cert_fingerprint r = Some "ab12" /\
    cert_trusted_match r = true /\
    (exists trusted entries,
       _load_trusted_data libs world trust_path = Ok trusted /\
       trusted_certs_of trusted = Ok (map lower entries) /\
       (cert_trusted_match r = true <->
        exists fp, cert_fingerprint r = Some fp /\ fp <> "" /\
          exists entry, In entry entries /\ lower entry = lower fp)).
Proof.
  eexists. split; [reflexivity|]. split; [reflexivity|].
  split; [reflexivity|].
  apply (proj1 (cert_trusted_match_sound libs world upload_path trust_path
                  false [] [] _ eq_refl)).
Defined.

End TrustFacts.

(* ------------------------------------------------------------------ *)
(** ** The analysis result: permissions and entropy *)

Module ResultFacts.
Import Utils IconUtils VtLookup StaticAnalyzer Spec Scenario.
Import PyFacts PyStrFacts AnalyzerFacts ManifestFacts PermissionFacts.
Import EntropyFacts ArchiveFacts.

Local Open Scope list_scope.
Local Open Scope string_scope.

(** C10.  The derived list is strictly ascending (hence free of
    duplicates) and holds exactly the declared permissions that are in the
    catalog [DANGEROUS_PERMS]; it is the only list with these two
    properties.  As a set it is included in the declared permissions,
    which the result keeps as the backend declared them, in order and
    with duplicates.  The declaration [READ_SMS; INTERNET] derives
    [READ_SMS]. *)
Theorem sensitive_permissions_derivation (perms : list string) :
  strictly_ascending (dangerous_of perms) /\
  NoDup (dangerous_of perms) /\
  (forall x, In x (dangerous_of perms) <->
             In x perms /\ In x DANGEROUS_PERMS) /\
  (forall l, strictly_ascending l ->
             (forall x, In x l <-> In x perms /\ In x DANGEROUS_PERMS) ->
             l = dangerous_of perms) /\
  incl (dangerous_of perms) perms /\
  (forall L W apk td vte tr tr' r,
     analyze_apk L W apk td vte tr = (Ok r, tr') ->
     dangerous_permissions r = dangerous_of (permissions r) /\
     exists meta, extract_meta L W apk = Ok meta /\
                  permissions r = meta_permissions meta) /\
  dangerous_of ["android.permission.READ_SMS"; "android.permission.INTERNET"]
    = ["android.permission.READ_SMS"].
Proof.
  split; [apply dangerous_of_ascending|].
  split; [apply dangerous_of_NoDup|].
  split; [apply dangerous_of_In|].
  split; [|split; [|split]].
  - intros l Hl Hmem. apply strictly_ascending_unique;
      [assumption | apply dangerous_of_ascending|].
    intros x. rewrite Hmem. symmetry. apply dangerous_of_In.
  - intros x Hx. now apply dangerous_of_In in Hx.
  - intros L W apk td vte tr tr' r H.
    destruct (analyze_apk_ok _ _ _ _ _ _ _ _ H)
      as (meta & classes & trusted & certs & Hmeta & _ & _ & _ & _ & _
          & _ & _ & Hperms & Hdang & _).
    split; [now rewrite Hdang, Hperms | eauto].
  - reflexivity.
Qed.

(** C10 on the scenario: four declared permissions, one of them twice,
    two of them sensitive. *)
Lemma sensitive_permissions_witness :
  exists r,
    analyze_apk libs world upload_path trust_path false [] = (Ok r, []) /\
    permissions r =
      ["android.permission.SEND_SMS"; "android.permission.INTERNET";
       "android.permission.READ_SMS"; "android.permission.SEND_SMS"] /\
    dangerous_permissions r =
      ["android.permission.READ_SMS"; "android.permission.SEND_SMS"] /\
    strictly_ascending (dangerous_permissions r) /\
    dangerous_permissions r = dangerous_of (permissions r).
Proof.
  eexists. split; [reflexivity|]. split; [reflexivity|].
  split; [reflexivity|].
  pose proof (sensitive_permissions_derivation
                ["android.permission.SEND_SMS"; "android.permission.INTERNET";
                 "android.permission.READ_SMS"; "android.permission.SEND_SMS"])
    as (Hasc & _ & _ & _ & _ & Hres & _).
  split; [exact Hasc|].
  exact (proj1 (Hres libs world upload_path trust_path false [] [] _ eq_refl)).
Defined.

(** *** Entropy *)






End ResultFacts.

(* ------------------------------------------------------------------ *)
(** ** The fallback chain, the archive lookup, determinism *)

Module PipelineFacts.
Import Utils IconUtils VtLookup StaticAnalyzer Spec Scenario.
Import PyFacts PyStrFacts AnalyzerFacts ManifestFacts ArchiveFacts.

Local Open Scope list_scope.
Local Open Scope string_scope.




(** C6, as stated, fails: a path at which there is no file makes the
    lookup raise instead of returning an absent value. *)
Lemma extract_zip_entry_bytes_missing_file :
  files world "/tmp/gone.apk" = None /\
  ZipFile libs world "/tmp/gone.apk" = Raise FileNotFoundError /\
  extract_zip_entry_bytes (ZipFile libs world) "/tmp/gone.apk" "classes.dex"
    = Raise FileNotFoundError.
Proof. repeat split. Qed.

(** C6 on the scenario: a file that is no archive, a needle that no
    entry matches, and a needle matched up to case by the third entry. *)
Lemma extract_zip_entry_bytes_witness :
  (ZipFile libs world_broken_trust trust_path = Raise BadZipFile /\
   extract_zip_entry_bytes (ZipFile libs world_broken_trust) trust_path
     "classes.dex" = Ok None) /\
  (ZipFile libs world upload_path = Ok bank_archive /\
   extract_zip_entry_bytes (ZipFile libs world) upload_path "resources.arsc"
     = Ok None) /\
  (extract_zip_entry_bytes (ZipFile libs world) upload_path "classes.dex"
     = Ok (Some dex_payload)).
Proof.
  split; [|split].
  - split; [reflexivity|].
    apply (proj1 (extract_zip_entry_bytes_first_match
                    (ZipFile libs world_broken_trust) trust_path
                    "classes.dex")).
    reflexivity.
  - split; [reflexivity|].
    apply (proj1 (proj2 (proj2 (extract_zip_entry_bytes_first_match
                    (ZipFile libs world) upload_path "resources.arsc")))
             bank_archive eq_refl).
    intros n Hn Hc. apply matches_contains_ci in Hc.
    simpl in Hn. destruct Hn as [<-|[<-|[<-|[]]]]; discriminate Hc.
  - rewrite (proj1 (proj2 (proj2 (proj2 (extract_zip_entry_bytes_first_match
               (ZipFile libs world) upload_path "classes.dex"))))
               bank_archive ["AndroidManifest.xml"; "META-INF/CERT.RSA"]
               "Classes.DEX" [] eq_refl eq_refl).
    + reflexivity.
    + intros n Hn Hc. apply matches_contains_ci in Hc.
      simpl in Hn. destruct Hn as [<-|[<-|[]]]; discriminate Hc.
    + apply matches_contains_ci. reflexivity.
Defined.



(** With the lookup enabled the same archive and trust source give
    results that differ with the network, and a request is made. *)
Lemma analyze_apk_lookup_enabled :
  lookup_outcome (analyze_apk libs world upload_path trust_path true [])
    = Some ({| detections := 0; total := 0 |},
            ["https://www.virustotal.com/api/v3/files/9f86d081884c7d65"]) /\
  lookup_outcome
    (analyze_apk libs world_elsewhere "/srv/queue/0001.apk"
       "/etc/secureapk/trust.json" true [])
    = Some ({| detections := 9; total := 59 |},
            ["https://www.virustotal.com/api/v3/files/9f86d081884c7d65"]).
Proof. split; reflexivity. Qed.

End PipelineFacts.

(* ------------------------------------------------------------------ *)
(** ** Icon similarity ([similarity_score]) *)

Module IconFacts.
Import IconUtils Spec Scenario PyFacts.

Local Open Scope list_scope.
Local Open Scope string_scope.

Lemma count_differing_sym (a b : list bool) :
  count_differing a b = count_differing b a.
Proof.
  revert b. induction a as [|x a IH]; intros [|y b]; simpl; try reflexivity.
  rewrite IH. now destruct x, y.
Qed.

Lemma count_differing_same (a : list bool) : count_differing a a = 0%Z.
Proof.
  induction a as [|x a IH]; simpl; [reflexivity|].
  rewrite IH. now destruct x.
Qed.

Lemma shape_eqb_sym (a b : nat * nat) : shape_eqb a b = shape_eqb b a.
Proof. unfold shape_eqb. now rewrite (Nat.eqb_sym (fst a)), (Nat.eqb_sym (snd a)). Qed.

Lemma shape_eqb_refl (a : nat * nat) : shape_eqb a a = true.
Proof. unfold shape_eqb. now rewrite !Nat.eqb_refl. Qed.

Lemma shape_eqb_eq (a b : nat * nat) : shape_eqb a b = true -> a = b.
Proof.
  unfold shape_eqb. destruct a, b; simpl.
  rewrite andb_true_iff, !Nat.eqb_eq. intros [-> ->]. reflexivity.
Qed.

Lemma hash_sub_sym (h1 h2 : ImageHash) : hash_sub h1 h2 = hash_sub h2 h1.
Proof.
  unfold hash_sub. rewrite shape_eqb_sym.
  destruct (shape_eqb (hash_shape h2) (hash_shape h1)); [|reflexivity].
  now rewrite count_differing_sym.
Qed.

Lemma hash_sub_same (h : ImageHash) : hash_sub h h = Ok 0%Z.
Proof.
  unfold hash_sub. now rewrite shape_eqb_refl, count_differing_same.
Qed.

Lemma hash_sub_size (h1 h2 : ImageHash) (d : Z) :
  hash_sub h1 h2 = Ok d -> hash_size h1 = hash_size h2.
Proof.
  unfold hash_sub, hash_size.
  destruct (shape_eqb (hash_shape h1) (hash_shape h2)) eqn:E; [|discriminate].
  apply shape_eqb_eq in E. now rewrite E.
Qed.

Lemma int_truediv_zero (n : Z) : (0 < n)%Z -> int_truediv 0 n = Ok 0%float.
Proof.
  intros Hn. unfold int_truediv.
  destruct n as [|p|p]; try lia. reflexivity.
Qed.

Lemma str_truthy_iff (s : string) : str_truthy s = true <-> s <> "".
Proof.
  unfold str_truthy. now rewrite negb_true_iff, String.eqb_neq.
Qed.

Section Similarity.

Variable hex_to_hash : string -> result ImageHash.

Lemma similarity_decoded (s1 s2 : string) (h1 h2 : ImageHash) :
  s1 <> "" -> s2 <> "" ->
  hex_to_hash s1 = Ok h1 -> hex_to_hash s2 = Ok h2 ->
  similarity_score hex_to_hash (Some s1) (Some s2) = similarity_of h1 h2.
Proof.
  intros N1 N2 E1 E2. unfold similarity_score, similarity_of.
  apply str_truthy_iff in N1, N2. rewrite N1, N2, E1, E2. reflexivity.
Qed.

Lemma similarity_of_sym (h1 h2 : ImageHash) :
  similarity_of h1 h2 = similarity_of h2 h1.
Proof.
  unfold similarity_of. rewrite (hash_sub_sym h2 h1).
  destruct (hash_sub h1 h2) as [d|e] eqn:E; [|reflexivity].
  simpl. now rewrite (hash_sub_size h1 h2 d E).
Qed.

Lemma similarity_absent (h : option string) :
  similarity_score hex_to_hash None h = Ok 0%float /\
  similarity_score hex_to_hash h None = Ok 0%float /\
  similarity_score hex_to_hash (Some "") h = Ok 0%float /\
  similarity_score hex_to_hash h (Some "") = Ok 0%float.
Proof.
  unfold similarity_score. destruct h as [s|]; repeat split;
    try reflexivity.
  simpl. now rewrite orb_true_r.
Qed.

Lemma similarity_sym_value (h1 h2 : option string) (v : float) :
  similarity_score hex_to_hash h1 h2 = Ok v ->
  similarity_score hex_to_hash h2 h1 = Ok v.
Proof.
  destruct h1 as [s1|], h2 as [s2|]; try (intros H; exact H).
  unfold similarity_score.
  destruct (str_truthy s1) eqn:T1, (str_truthy s2) eqn:T2; simpl;
    try (intros H; exact H).
  destruct (hex_to_hash s1) as [a|e1] eqn:E1; [|discriminate].
  destruct (hex_to_hash s2) as [b|e2] eqn:E2; [|discriminate].
  intros H. pose proof (similarity_of_sym a b) as S.
  unfold similarity_of in S. simpl in *. rewrite <- S. exact H.
Qed.

End Similarity.

(** C8.  [similarity_score] is [0] as soon as one hash is absent or
    empty.  On two hashes that decode it is the binary64 value of
    [1 - dist / bits], with [dist] the number of differing cells and
    [bits] the size of the first hash (hashes of different shapes raise
    [TypeError]); it is symmetric: both orders give the same outcome on
    decodable hashes, and whenever one order returns a value the other
    returns the same.  A hash that decodes to at least one cell has
    similarity [1.0] with itself. *)
Theorem similarity_score_properties
    (hex_to_hash : string -> result ImageHash) :
  (forall h,
     similarity_score hex_to_hash None h = Ok 0%float /\
     similarity_score hex_to_hash h None = Ok 0%float /\
     similarity_score hex_to_hash (Some "") h = Ok 0%float /\
     similarity_score hex_to_hash h (Some "") = Ok 0%float) /\
  (forall s1 s2 h1 h2,
     s1 <> "" -> s2 <> "" ->
     hex_to_hash s1 = Ok h1 -> hex_to_hash s2 = Ok h2 ->
     similarity_score hex_to_hash (Some s1) (Some s2) =
       (if shape_eqb (hash_shape h1) (hash_shape h2) then
          ratio <- int_truediv (count_differing (hash_flat h1) (hash_flat h2))
                     (hash_size h1) ;;
          Ok (1.0 - ratio)%float
        else Raise TypeError) /\
     similarity_score hex_to_hash (Some s1) (Some s2) =
       similarity_score hex_to_hash (Some s2) (Some s1)) /\
  (forall h1 h2 v,
     similarity_score hex_to_hash h1 h2 = Ok v <->
     similarity_score hex_to_hash h2 h1 = Ok v) /\
  (forall s h,
     s <> "" -> hex_to_hash s = Ok h -> (0 < hash_size h)%Z ->
     similarity_score hex_to_hash (Some s) (Some s) = Ok 1.0%float).
Proof.
  split; [apply similarity_absent|].
  split; [|split].
  - intros s1 s2 h1 h2 N1 N2 E1 E2. split.
    + rewrite (similarity_decoded hex_to_hash s1 s2 h1 h2) by assumption.
      unfold similarity_of, hash_sub.
      destruct (shape_eqb (hash_shape h1) (hash_shape h2)); reflexivity.
    + rewrite (similarity_decoded hex_to_hash s1 s2 h1 h2) by assumption.
      rewrite (similarity_decoded hex_to_hash s2 s1 h2 h1) by assumption.
      apply similarity_of_sym.
  - intros h1 h2 v. split; apply similarity_sym_value.
  - intros s h N E Hsize.
    rewrite (similarity_decoded hex_to_hash s s h h) by assumption.
    unfold similarity_of. rewrite hash_sub_same. simpl.
    rewrite int_truediv_zero by assumption. reflexivity.
Qed.

(** C8 on 8 by 8 hashes: identical hashes, and two hashes that differ in
    4 of their 64 cells, in both orders. *)
Lemma similarity_score_witness :
  hex_to_hash_16 "ffffffffffffffff"
    = Ok {| hash_shape := (8, 8)%nat; hash_flat := repeat true 64 |} /\
  similarity_score hex_to_hash_16 (Some "ffffffffffffffff")
    (Some "ffffffffffffffff") = Ok 1.0%float /\
  similarity_score hex_to_hash_16 (Some "ffffffffffffffff")
    (Some "fffffffffffffff0") = Ok 0.9375%float /\
  similarity_score hex_to_hash_16 (Some "fffffffffffffff0")
    (Some "ffffffffffffffff") = Ok 0.9375%float.
Proof.
  split; [reflexivity|]. split; [|split].
  - apply (proj2 (proj2 (proj2 (similarity_score_properties hex_to_hash_16)))
             "ffffffffffffffff"
             {| hash_shape := (8, 8)%nat; hash_flat := repeat true 64 |}).
    + discriminate.
    + reflexivity.
    + reflexivity.
  - reflexivity.
  - rewrite <- (proj2 (proj1 (proj2 (similarity_score_properties
                   hex_to_hash_16))
                   "ffffffffffffffff" "fffffffffffffff0" _ _
                   ltac:(discriminate) ltac:(discriminate)
                   eq_refl eq_refl)).
    reflexivity.
Defined.

End IconFacts.

(* ------------------------------------------------------------------ *)
(** ** The content hash ([sha256_file]) *)

Module HashFacts.
Import Utils.

Local Open Scope list_scope.

Lemma chunk_size_pos : (0 < chunk_size)%nat.
Proof. unfold chunk_size. lia. Qed.

(** With fuel beyond the length of what is left, the chunks fed to the
    hash object add up to what is left. *)
Lemma read_chunks_feed (fuel : nat) :
  forall (rest acc : bytes),
    (List.length rest < fuel)%nat ->
    fold_left (fun h chunk => h ++ chunk) (read_chunks fuel rest) acc
    = acc ++ rest.
Proof.
  induction fuel as [|fuel IH]; intros rest acc Hlen; [lia|].
  cbn [read_chunks]. pose proof chunk_size_pos as Hc.
  destruct rest as [|b rest'].
  - rewrite firstn_nil. simpl. now rewrite app_nil_r.
  - destruct (firstn chunk_size (b :: rest')) as [|c chunk] eqn:E.
    + destruct chunk_size; [lia | discriminate E].
    + cbn [fold_left]. rewrite IH.
      * rewrite <- app_assoc, <- E. now rewrite firstn_skipn.
      * rewrite length_skipn. simpl in *. lia.
Qed.

(** X1.  [sha256_file] returns the digest of the whole contents of the
    file, whatever their length: the chunks of 8192 bytes fed to the hash
    object add up to the contents.  It raises what opening the file
    raises, and nothing else. *)
Theorem sha256_file_whole (open_rb : string -> result bytes)
    (sha256_hexdigest : bytes -> string) (path : string) :
  sha256_file open_rb sha256_hexdigest path =
  (content <- open_rb path ;; Ok (sha256_hexdigest content)).
Proof.
  unfold sha256_file. destruct (open_rb path) as [content|e]; cbn [bind];
    [|reflexivity].
  rewrite read_chunks_feed by lia. reflexivity.
Qed.

End HashFacts.

(* ------------------------------------------------------------------ *)
(** ** Strings, entropy and archives, continued *)

Module UtilsMoreFacts.
Import Cases.
Import Utils UtilsRest StaticAnalyzer Spec Invariants Scenario.
Import PyStrFacts StringsFacts ArchiveFacts EntropyFacts PermissionFacts.

Local Open Scope list_scope.
Local Open Scope string_scope.

(** *** Strings of the runtime, continued *)

Lemma str_map_app (f : ascii -> ascii) (a b : string) :
  str_map f (a ++ b) = str_map f a ++ str_map f b.
Proof. induction a as [|c a IH]; simpl; [reflexivity | now rewrite IH]. Qed.

Lemma lower_app (a b : string) : lower (a ++ b) = lower a ++ lower b.
Proof. apply str_map_app. Qed.

Lemma lower_upper_char (c : ascii) : lower_char (upper_char c) = lower_char c.
Proof. destruct c as [[] [] [] [] [] [] [] []]; reflexivity. Qed.

Lemma lower_upper (s : string) : lower (upper s) = lower s.
Proof.
  unfold lower, upper. induction s as [|c s IH]; simpl; [reflexivity|].
  now rewrite lower_upper_char, IH.
Qed.

Lemma string_app_assoc (a b c : string) : (a ++ b) ++ c = a ++ (b ++ c).
Proof. induction a as [|x a IH]; simpl; [reflexivity | now rewrite IH]. Qed.


Lemma string_app_length (a b : string) :
  String.length (a ++ b) = (String.length a + String.length b)%nat.
Proof. induction a as [|x a IH]; simpl; [reflexivity | now rewrite IH]. Qed.

Lemma substring_app_right (a b : string) :
  substring (String.length a) (String.length b) (a ++ b) = b.
Proof.
  induction a as [|x a IH]; simpl; [|exact IH].
  induction b as [|y b IHb]; simpl; [reflexivity|].
  destruct b; simpl in *; now rewrite ?IHb.
Qed.

Lemma substring_full (s : string) : substring 0 (String.length s) s = s.
Proof. induction s as [|c s IH]; simpl; [reflexivity | now rewrite IH]. Qed.

Lemma substring_split (s : string) :
  forall k, (k <= String.length s)%nat ->
    exists pre, s = pre ++ substring k (String.length s - k) s.
Proof.
  induction s as [|c s IH]; intros k Hk; simpl in Hk.
  - exists "". destruct k; [reflexivity | lia].
  - destruct k as [|k].
    + exists "". rewrite Nat.sub_0_r. now rewrite substring_full.
    + destruct (IH k ltac:(lia)) as [pre Hpre].
      exists (String c pre). simpl. now rewrite <- Hpre.
Qed.

Lemma endswith_iff (s p : string) :
  endswith s p = true <-> exists pre, s = pre ++ p.
Proof.
  unfold endswith. rewrite andb_true_iff, Nat.leb_le, String.eqb_eq. split.
  - intros [Hle Hsub].
    destruct (substring_split s (String.length s - String.length p)
                ltac:(lia)) as [pre Hpre].
    replace (String.length s - (String.length s - String.length p))%nat
      with (String.length p) in Hpre by lia.
    rewrite Hsub in Hpre. eauto.
  - intros [pre ->]. rewrite string_app_length. split; [lia|].
    replace (String.length pre + String.length p - String.length p)%nat
      with (String.length pre) by lia.
    apply substring_app_right.
Qed.

(** *** [count_suspicious_strings] *)

Lemma keyword_count (strings : list string) (acc : Z) :
  fold_left (fun acc s => (acc + if keyword_hit s then 1 else 0)%Z) strings acc
  = (acc + Z.of_nat (List.length (filter keyword_hit strings)))%Z.
Proof.
  revert acc. induction strings as [|s strings IH]; intros acc; simpl;
    [lia|].
  rewrite IH. destruct (keyword_hit s); simpl List.length; lia.
Qed.

Lemma keyword_hit_iff (s : string) :
  keyword_hit s = true <->
  exists k, In k keyword_catalog /\ exists pre post, lower s = pre ++ k ++ post.
Proof.
  unfold keyword_hit. rewrite existsb_exists. split.
  - intros (k & Hk & H). apply str_in_occurs in H. eauto.
  - intros (k & Hk & H). exists k. split; [assumption|].
    now apply str_in_occurs.
Qed.

(** X2.  Whatever the two patterns match, the summary of
    [count_suspicious_strings] is coherent: the URL and IP lists hold
    only strings of the input, their counts are the lengths of these
    lists, [keywords] and [keyword_hits] are the same number, namely the
    number of input strings that contain a keyword (a string counts once,
    however many keywords it contains), and no count exceeds the number
    of input strings. *)
Theorem count_suspicious_strings_coherent
    (url ip : string -> bool) (strings : list string) :
  incl (urls (count_suspicious_strings url ip strings)) strings /\
  incl (ips (count_suspicious_strings url ip strings)) strings /\
  url_count (count_suspicious_strings url ip strings)
    = Z.of_nat (List.length (urls (count_suspicious_strings url ip strings))) /\
  ip_count (count_suspicious_strings url ip strings)
    = Z.of_nat (List.length (ips (count_suspicious_strings url ip strings))) /\
  keywords (count_suspicious_strings url ip strings)
    = keyword_hits (count_suspicious_strings url ip strings) /\
  keyword_hits (count_suspicious_strings url ip strings)
    = Z.of_nat (List.length (filter keyword_hit strings)) /\
  (0 <= url_count (count_suspicious_strings url ip strings)
     <= Z.of_nat (List.length strings))%Z /\
  (0 <= ip_count (count_suspicious_strings url ip strings)
     <= Z.of_nat (List.length strings))%Z /\
  (0 <= keyword_hits (count_suspicious_strings url ip strings)
     <= Z.of_nat (List.length strings))%Z.
Proof.
  unfold count_suspicious_strings; cbn [urls ips url_count ip_count keywords
                                         keyword_hits].
  rewrite keyword_count.
  pose proof (filter_length_le url strings).
  pose proof (filter_length_le ip strings).
  pose proof (filter_length_le keyword_hit strings).
  repeat split; try lia; try reflexivity;
    intros x Hx; apply filter_In in Hx; tauto.
Qed.

(** X3.  A string that contains a keyword keeps its hit when it is
    embedded in a longer string and when its case is changed: the match
    is by substring on the lowered text. *)
Theorem keyword_hit_stable (s pre post : string) :
  keyword_hit s = true ->
  keyword_hit (pre ++ s ++ post) = true /\
  keyword_hit (upper s) = true /\
  keyword_hit (lower s) = true.
Proof.
  intros H. apply keyword_hit_iff in H.
  destruct H as (k & Hk & a & b & E).
  split; [|split]; apply keyword_hit_iff; exists k; (split; [assumption|]).
  - exists (lower pre ++ a), (b ++ lower post).
    rewrite !lower_app, E, !string_app_assoc. reflexivity.
  - rewrite lower_upper. eauto.
  - rewrite lower_idem. eauto.
Qed.

Lemma keyword_hit_stable_witness :
  keyword_hit "Login" = true /\
  keyword_hit ("com/bank/" ++ "Login" ++ "Activity") = true /\
  keyword_hit (upper "Login") = true /\
  keyword_hit (lower "Login") = true.
Proof.
  split; [reflexivity|].
  exact (keyword_hit_stable "Login" "com/bank/" "Activity" eq_refl).
Defined.


(** *** [extract_all_strings] *)

Lemma string_of_list_ascii_length (l : list ascii) :
  String.length (string_of_list_ascii l) = List.length l.
Proof. induction l as [|c l IH]; simpl; [reflexivity | now rewrite IH]. Qed.

Lemma text_length (r : bytes) : String.length (text r) = List.length r.
Proof. unfold text. now rewrite string_of_list_ascii_length, length_map. Qed.

Lemma chr_code (b : byte) : N_of_ascii (chr b) = Byte.to_N b.
Proof. destruct b; reflexivity. Qed.

Lemma runs_total (data : bytes) :
  (list_sum (map (@List.length byte) (runs data)) + List.length (cuts data)
   = List.length data)%nat.
Proof.
  induction data as [|b rest IH]; simpl; [reflexivity|].
  unfold cuts in *. simpl. destruct (printable b); simpl.
  - destruct (runs rest) as [|r rs] eqn:E; [now apply runs_nonempty in E|].
    simpl in *. lia.
  - lia.
Qed.

Lemma filter_sum_le (f : bytes -> bool) (rs : list bytes) :
  (list_sum (map (@List.length byte) (filter f rs))
   <= list_sum (map (@List.length byte) rs))%nat.
Proof.
  induction rs as [|r rs IH]; simpl; [lia|].
  destruct (f r); simpl; lia.
Qed.

Lemma run_length_le (data r : bytes) :
  In r (runs data) -> (List.length r <= List.length data)%nat.
Proof.
  intros H. pose proof (runs_total data) as T.
  assert (List.length r <= list_sum (map (@List.length byte) (runs data)))%nat.
  { apply In_le_list_sum. now apply in_map. }
  lia.
Qed.

(** X4.  Every string [extract_all_strings] returns has at least
    [min_len] characters, all of them with codes in [32, 126], and
    the returned strings together are no longer than the buffer. *)
Theorem extract_all_strings_output (data : option bytes) (min_len : Z) :
  Forall (fun s =>
            (min_len <= Z.of_nat (String.length s))%Z /\
            Forall (fun c => (32 <= N_of_ascii c <= 126)%N)
                   (list_ascii_of_string s))
         (extract_all_strings data min_len) /\
  (list_sum (map String.length (extract_all_strings data min_len))
   <= List.length (bytes_or_empty data))%nat.
Proof.
  rewrite extract_all_strings_runs. unfold printable_strings. split.
  - apply Forall_forall. intros s Hs.
    apply in_map_iff in Hs. destruct Hs as (r & <- & Hr).
    apply filter_In in Hr. destruct Hr as [Hr Hlen].
    split.
    + rewrite text_length. unfold at_least in Hlen. now apply Z.leb_le.
    + unfold text. rewrite list_ascii_of_string_of_list_ascii.
      pose proof (runs_printable (bytes_or_empty data)) as P.
      rewrite Forall_forall in P. specialize (P r Hr).
      apply Forall_forall. intros c Hc.
      apply in_map_iff in Hc. destruct Hc as (b & <- & Hb).
      rewrite Forall_forall in P. rewrite chr_code.
      now apply printable_range, P.
  - rewrite map_map.
    rewrite (map_ext _ (@List.length byte)) by (intros r; apply text_length).
    pose proof (filter_sum_le (at_least min_len) (runs (bytes_or_empty data))).
    pose proof (runs_total (bytes_or_empty data)). lia.
Qed.

Lemma runs_split (a : bytes) (sep : byte) (b : bytes) :
  printable sep = false ->
  runs (a ++ sep :: b)%list = (runs a ++ runs b)%list.
Proof.
  intros Hsep. induction a as [|x a IH]; simpl.
  - now rewrite Hsep.
  - rewrite IH. destruct (printable x); [|reflexivity].
    destruct (runs a) as [|r rs] eqn:E; [now apply runs_nonempty in E|].
    reflexivity.
Qed.

(** X5.  A byte outside [32, 126] separates the buffer: the strings of
    the whole are the strings of what precedes it followed by the strings
    of what follows it. *)
Theorem extract_all_strings_split (a : bytes) (sep : byte) (b : bytes)
    (min_len : Z) :
  printable sep = false ->
  extract_all_strings (Some (a ++ sep :: b)%list) min_len =
  (extract_all_strings (Some a) min_len
   ++ extract_all_strings (Some b) min_len)%list.
Proof.
  intros Hsep. rewrite !extract_all_strings_runs. unfold printable_strings.
  cbn [bytes_or_empty]. rewrite runs_split by assumption.
  now rewrite filter_app, map_app.
Qed.

Lemma extract_all_strings_split_witness :
  printable x00 = false /\
  extract_all_strings
    (Some ([x68; x65; x6c; x6c; x6f]
           ++ x00 :: [x77; x6f; x72; x6c; x64; x21])%list)
    5 = ["hello"; "world!"].
Proof.
  split; [reflexivity|].
  rewrite (extract_all_strings_split [x68; x65; x6c; x6c; x6f] x00
             [x77; x6f; x72; x6c; x64; x21] 5 eq_refl).
  reflexivity.
Defined.

Lemma filter_none {A : Type} (f : A -> bool) (l : list A) :
  (forall x, In x l -> f x = false) -> filter f l = [].
Proof.
  induction l as [|x l IH]; intros H; simpl; [reflexivity|].
  rewrite (H x) by (now left). apply IH. intros y Hy. apply H. now right.
Qed.

(** X6.  Two edges of the length threshold.  A buffer shorter than
    [min_len] yields nothing.  With [min_len <= 0] every run is emitted,
    the empty ones included, so the result has one string more than the
    buffer has bytes outside [32, 126] (the empty buffer yields one empty
    string). *)
Theorem extract_all_strings_threshold (data : option bytes) (min_len : Z) :
  ((Z.of_nat (List.length (bytes_or_empty data)) < min_len)%Z ->
   extract_all_strings data min_len = []) /\
  ((min_len <= 0)%Z ->
   List.length (extract_all_strings data min_len)
   = S (List.length (cuts (bytes_or_empty data)))).
Proof.
  rewrite extract_all_strings_runs. unfold printable_strings. split.
  - intros Hlen.
    replace (filter (at_least min_len) (runs (bytes_or_empty data)))
      with (@nil bytes); [reflexivity|].
    symmetry. apply filter_none. intros r Hr.
    apply run_length_le in Hr. unfold at_least.
    apply Z.leb_gt. lia.
  - intros Hmin. rewrite length_map, <- runs_count.
    f_equal. apply forallb_filter_id.
    apply forallb_forall. intros r _. unfold at_least. apply Z.leb_le. lia.
Qed.

Lemma extract_all_strings_threshold_witness :
  extract_all_strings (Some [x41; x42; x43]) 5 = [] /\
  extract_all_strings None 0 = [""] /\
  List.length (extract_all_strings (Some [x00; x41; x01]) 0) = 3%nat.
Proof.
  split; [|split].
  - apply (proj1 (extract_all_strings_threshold (Some [x41; x42; x43]) 5)).
    simpl. lia.
  - reflexivity.
  - apply (proj2 (extract_all_strings_threshold (Some [x00; x41; x01]) 0)).
    lia.
Defined.


(** *** [shannon_entropy] *)

Lemma byte_count_perm (i : nat) (a b : bytes) :
  Permutation a b -> byte_count i a = byte_count i b.
Proof.
  unfold byte_count. induction 1 as [|x a b _ IH|x y a|a b c _ IH1 _ IH2];
    simpl; try reflexivity.
  - destruct (Byte.to_nat x =? i)%nat; simpl; now rewrite IH.
  - destruct (Byte.to_nat x =? i)%nat, (Byte.to_nat y =? i)%nat; reflexivity.
  - now rewrite IH1.
Qed.

Lemma byte_freq_ext (a b : bytes) :
  (forall i, byte_count i a = byte_count i b) -> byte_freq a = byte_freq b.
Proof.
  intros H. apply (nth_ext _ _ 0%nat 0%nat).
  - now rewrite !byte_freq_length.
  - intros i _. now rewrite !byte_freq_nth.
Qed.

(** X7.  The entropy depends on the histogram only: reordering the bytes
    of a buffer does not change it. *)
Theorem shannon_entropy_permutation (a b : bytes) :
  Permutation a b -> shannon_entropy a = shannon_entropy b.
Proof.
  intros P. unfold shannon_entropy.
  rewrite (byte_freq_ext a b) by (intros i; now apply byte_count_perm).
  rewrite (Permutation_length P).
  destruct a as [|x a], b as [|y b]; try reflexivity.
  apply Permutation_nil in P. discriminate.
Qed.

Lemma shannon_entropy_permutation_witness :
  Permutation [x41; x42; x41; x43] [x43; x41; x41; x42] /\
  shannon_entropy [x41; x42; x41; x43] = shannon_entropy [x43; x41; x41; x42].
Proof.
  assert (P : Permutation [x41; x42; x41; x43] [x43; x41; x41; x42]).
  { apply Permutation_sym. apply (Permutation_cons_app [x41; x42; x41] []).
    apply perm_skip, perm_swap. }
  split; [exact P | exact (shannon_entropy_permutation _ _ P)].
Defined.

Lemma sum_terms_repeat (n c m : nat) :
  sum_terms n (repeat c m) = (INR m * term n c)%R.
Proof.
  induction m as [|m IH].
  - simpl. lra.
  - change (repeat c (S m)) with (c :: repeat c m).
    cbn [sum_terms]. rewrite IH, S_INR. lra.
Qed.

Lemma list_sum_repeat (k m : nat) : list_sum (repeat k m) = (m * k)%nat.
Proof.
  induction m as [|m IH]; [reflexivity|].
  change (repeat k (S m)) with (k :: repeat k m).
  cbn [list_sum fold_right]. fold (list_sum (repeat k m)). rewrite IH. lia.
Qed.

Lemma byte_index (i : nat) :
  (i < 256)%nat -> exists b, Byte.to_nat b = i.
Proof.
  intros Hi. destruct (Byte.of_nat i) as [b|] eqn:E.
  - exists b. now apply Byte.to_of_nat.
  - apply Byte.of_nat_None_iff in E. lia.
Qed.

(** X8.  A buffer in which each of the 256 byte values occurs the same
    number of times (at least once) has the maximal entropy, 8 bits per
    byte. *)
Theorem shannon_entropy_uniform (data : bytes) (k : nat) :
  (0 < k)%nat ->
  (forall b : byte, byte_count (Byte.to_nat b) data = k) ->
  shannon_entropy data = 8%R.
Proof.
  intros Hk Hall.
  assert (Hfreq : byte_freq data = repeat k 256).
  { apply (nth_ext _ _ 0%nat 0%nat).
    - now rewrite byte_freq_length, repeat_length.
    - intros i Hi. rewrite byte_freq_length in Hi.
      rewrite byte_freq_nth. destruct (byte_index i Hi) as [b <-].
      rewrite Hall. symmetry. apply nth_repeat_lt. apply to_nat_lt. }
  assert (Hlen : List.length data = (256 * k)%nat).
  { rewrite <- byte_freq_sum, Hfreq. apply list_sum_repeat. }
  rewrite shannon_entropy_sum
    by (intros ->; simpl in Hlen; lia).
  rewrite Hfreq, sum_terms_repeat, Hlen.
  unfold term. replace (k =? 0)%nat with false
    by (symmetry; apply Nat.eqb_neq; lia).
  assert (HK : (0 < INR k)%R) by (apply lt_0_INR; lia).
  rewrite mult_INR.
  replace (INR 256) with 256%R by (rewrite INR_IZR_INZ; reflexivity).
  replace (INR k / (256 * INR k))%R with (/ 256)%R by (field; lra).
  unfold log2. rewrite ln_Rinv by lra. rewrite ln_256.
  pose proof ln2_pos. field. lra.
Qed.

Lemma shannon_entropy_uniform_witness :
  (0 < 1)%nat /\
  (forall b : byte, byte_count (Byte.to_nat b) all_bytes = 1%nat) /\
  shannon_entropy all_bytes = 8%R.
Proof.
  assert (H : forall b : byte, byte_count (Byte.to_nat b) all_bytes = 1%nat)
    by (intros b; destruct b; vm_compute; reflexivity).
  split; [lia|]. split; [exact H|].
  exact (shannon_entropy_uniform all_bytes 1 ltac:(lia) H).
Defined.


(** *** [is_valid_apk] and [extract_zip_entry_bytes] *)

Section Validity.

Variable ZipFile : string -> result ZipArchive.

Lemma is_valid_apk_true (path : string) :
  is_valid_apk ZipFile path = Ok true <->
  exists z n pre,
    ZipFile path = Ok z /\ In n (namelist z) /\
    n = pre ++ "AndroidManifest.xml".
Proof.
  unfold is_valid_apk. destruct (ZipFile path) as [z|e]; simpl.
  - split.
    + intros H. assert (H' : existsb
          (fun n => endswith n "AndroidManifest.xml")
          (set_of (namelist z)) = true) by congruence.
      clear H. apply existsb_exists in H'.
      destruct H' as (n & Hn & He).
      apply (proj1 (set_of_In _ _)) in Hn.
      apply endswith_iff in He. destruct He as [pre ->].
      exists z, (pre ++ "AndroidManifest.xml"), pre. auto.
    + intros (z' & n & pre & E & Hn & ->). inversion E; subst z'.
      f_equal. apply existsb_exists. exists (pre ++ "AndroidManifest.xml").
      split; [now apply (proj2 (set_of_In _ _))|].
      apply endswith_iff. eauto.
  - split; [discriminate|].
    intros (z' & n & pre & E & _). discriminate.
Qed.

(** X9.  [is_valid_apk] never raises.  It answers [True] exactly when
    the archive opens and the name of one of its entries ends with
    [AndroidManifest.xml], in that very case; it answers [False]
    otherwise, whatever made the archive unreadable. *)
Theorem is_valid_apk_iff (path : string) :
  (is_valid_apk ZipFile path = Ok true <->
   exists z n pre,
     ZipFile path = Ok z /\ In n (namelist z) /\
     n = pre ++ "AndroidManifest.xml") /\
  (is_valid_apk ZipFile path = Ok true \/
   is_valid_apk ZipFile path = Ok false) /\
  (forall e, ZipFile path = Raise e -> is_valid_apk ZipFile path = Ok false).
Proof.
  split; [apply is_valid_apk_true|]. unfold is_valid_apk.
  destruct (ZipFile path) as [z|e]; simpl.
  - split; [|discriminate]. destruct (existsb _ _); auto.
  - auto.
Qed.


(** X11.  [extract_zip_entry_bytes] never raises [BadZipFile], and an
    exception it raises was raised either by opening the archive or by
    reading an entry whose name matches the needle. *)
Theorem extract_zip_entry_bytes_raises (path needle : string) (e : exn) :
  extract_zip_entry_bytes ZipFile path needle = Raise e ->
  e <> BadZipFile /\
  (ZipFile path = Raise e \/
   exists z n, ZipFile path = Ok z /\ In n (namelist z) /\
               contains_ci needle n /\ read z n = Raise e).
Proof.
  intros H. split.
  - intros ->. now apply (extract_never_bad_zip ZipFile path needle).
  - destruct (ZipFile path) as [z|e0] eqn:Hz.
    + right.
      destruct (first_match_split needle (namelist z))
        as [Hnone|(p & m & q & Hsplit & Hpre & Hm)].
      * rewrite (extract_no_match ZipFile path needle z Hz Hnone) in H.
        discriminate.
      * rewrite (extract_first_match ZipFile path needle z p m q
                   Hz Hsplit Hpre Hm) in H.
        exists z, m. split; [reflexivity|]. split.
        { rewrite Hsplit. apply in_or_app. right. now left. }
        split; [assumption|].
        destruct (read z m) as [d|e1]; [discriminate|].
        destruct e1; try discriminate; congruence.
    + left. unfold extract_zip_entry_bytes in H. rewrite Hz in H.
      simpl in H. destruct e0; simpl in H; try discriminate; congruence.
Qed.

End Validity.


Lemma extract_zip_entry_bytes_raises_witness :
  extract_zip_entry_bytes (ZipFile libs world) "/tmp/gone.apk" "classes.dex"
    = Raise FileNotFoundError /\
  FileNotFoundError <> BadZipFile /\
  (ZipFile libs world "/tmp/gone.apk" = Raise FileNotFoundError \/
   exists z n, ZipFile libs world "/tmp/gone.apk" = Ok z /\
               In n (namelist z) /\ contains_ci "classes.dex" n /\
               read z n = Raise FileNotFoundError).
Proof.
  split; [reflexivity|].
  exact (extract_zip_entry_bytes_raises (ZipFile libs world) "/tmp/gone.apk"
           "classes.dex" FileNotFoundError eq_refl).
Defined.

End UtilsMoreFacts.

(* ------------------------------------------------------------------ *)
(** ** The primary icon *)

Module IconSelectionFacts.
Import Utils IconUtils Scenario Cases PyFacts PyStrFacts.

Local Open Scope string_scope.
Local Open Scope list_scope.
Local Open Scope Z_scope.

Section Icons.

Variable ZipFile : string -> result ZipArchive.
Variable Image_open : bytes -> result Image.

Lemma collect_candidates_In (z : ZipArchive) (names : list string)
    (c : candidate) :
  In c (collect_candidates Image_open z names) ->
  In (cand_name c) names /\ icon_candidate_name (cand_name c) = true /\
  read z (cand_name c) = Ok (cand_data c) /\
  Image_open (cand_data c) = Ok (cand_img c) /\
  cand_area c = img_width (cand_img c) * img_height (cand_img c).
Proof.
  induction names as [|n rest IH]; simpl; [tauto|].
  destruct (icon_candidate_name n) eqn:En.
  - destruct (read z n) as [data|e] eqn:Er; simpl.
    + destruct (Image_open data) as [img|e] eqn:Ei; simpl.
      * intros [<-|H]; simpl; [auto 6|]. destruct (IH H) as (? & ?). auto.
      * intros H. destruct (IH H); auto.
    + intros H. destruct (IH H); auto.
  - intros H; destruct (IH H); auto.
Qed.

(** The head of the sorted list is the first candidate of largest area. *)
Lemma sort_desc_head (cs : list candidate) :
  match sort_desc cs with
  | [] => cs = []
  | h :: _ =>
      exists pre post, cs = pre ++ h :: post /\
        (forall c, In c pre -> cand_area c < cand_area h) /\
        (forall c, In c post -> cand_area c <= cand_area h)
  end.
Proof.
  induction cs as [|c cs IH]; simpl; [reflexivity|].
  destruct (sort_desc cs) as [|h t] eqn:E.
  - subst cs. simpl. exists [], []. split; [reflexivity|].
    split; intros c' [].
  - simpl. destruct IH as (pre & post & -> & Hpre & Hpost).
    destruct (Z.ltb_spec (cand_area c) (cand_area h)).
    + exists (c :: pre), post. split; [reflexivity|]. split; [|assumption].
      intros c' [<-|Hin]; [assumption | now apply Hpre].
    + exists [], (pre ++ h :: post). split; [reflexivity|].
      split; [intros c' []|]. intros c' Hin.
      apply in_app_or in Hin. destruct Hin as [Hin|[<-|Hin]].
      * specialize (Hpre _ Hin). lia.
      * assumption.
      * specialize (Hpost _ Hin). lia.
Qed.

Lemma fallback_unfold (apk_path : string) (hint : option string)
    (z : ZipArchive) :
  ZipFile apk_path = Ok z ->
  (forall h, hint = Some h -> h = "" \/ ~ In h (namelist z)) ->
  extract_primary_icon ZipFile Image_open apk_path hint =
    match sort_desc (collect_candidates Image_open z (namelist z)) with
    | [] => Ok (None, None)
    | c :: _ => Ok (Some (cand_data c), Some (cand_img c))
    end.
Proof.
  intros Hz Hhint. unfold extract_primary_icon. rewrite Hz. cbn [bind].
  destruct hint as [h|]; [|reflexivity].
  destruct (Hhint h eq_refl) as [->|Hn]; [reflexivity|].
  destruct (name_in h (namelist z)) eqn:E.
  - apply name_in_In in E. contradiction.
  - now rewrite andb_false_r.
Qed.


(** X13.  Whatever the hint, a result of [extract_primary_icon] is either
    [(None, None)] or the payload of an entry of the archive together
    with the image decoded from that payload; the two components are
    never one present and one absent.  With a usable hint the entry is
    the hinted one, and [(None, None)] only comes from the scan. *)
Theorem extract_primary_icon_sound (apk_path : string)
    (hint : option string) (d : option bytes) (i : option Image) :
  extract_primary_icon ZipFile Image_open apk_path hint = Ok (d, i) ->
  exists z, ZipFile apk_path = Ok z /\
    ((d = None /\ i = None /\
      collect_candidates Image_open z (namelist z) = [] /\
      forall h, hint = Some h -> h = "" \/ ~ In h (namelist z)) \/
     exists n data img,
       d = Some data /\ i = Some img /\ In n (namelist z) /\
       read z n = Ok data /\ Image_open data = Ok img /\
       forall h, hint = Some h -> h <> "" -> In h (namelist z) -> n = h).
Proof.
  intros H.
  destruct (ZipFile apk_path) as [z|e] eqn:Hz;
    [|unfold extract_primary_icon in H; rewrite Hz in H; discriminate].
  exists z. split; [reflexivity|].
  assert (Hfall :
    (forall h, hint = Some h -> h = "" \/ ~ In h (namelist z)) ->
    (d = None /\ i = None /\
      collect_candidates Image_open z (namelist z) = [] /\
      forall h, hint = Some h -> h = "" \/ ~ In h (namelist z)) \/
     exists n data img,
       d = Some data /\ i = Some img /\ In n (namelist z) /\
       read z n = Ok data /\ Image_open data = Ok img /\
       forall h, hint = Some h -> h <> "" -> In h (namelist z) -> n = h).
  { intros Hhint. rewrite (fallback_unfold _ _ _ Hz Hhint) in H.
    pose proof (sort_desc_head
                  (collect_candidates Image_open z (namelist z))) as Hs.
    destruct (sort_desc (collect_candidates Image_open z (namelist z)))
      as [|c t]; inversion H; subst.
    - left. auto.
    - right. destruct Hs as (pre & post & E & _).
      assert (Hc : In c (collect_candidates Image_open z (namelist z)))
        by (rewrite E; apply in_or_app; right; now left).
      apply collect_candidates_In in Hc.
      destruct Hc as (Hin & _ & Hr & Ho & _).
      exists (cand_name c), (cand_data c), (cand_img c).
      repeat (split; [reflexivity || assumption|]).
      intros h Hh Hne Hinh. destruct (Hhint h Hh); contradiction. }
  destruct hint as [h|].
  - destruct (str_truthy h && name_in h (namelist z)) eqn:E.
    + apply andb_true_iff in E. destruct E as [Ht Hn].
      apply name_in_In in Hn.
      unfold extract_primary_icon in H. rewrite Hz in H. cbn [bind] in H.
      rewrite Ht in H. rewrite (proj2 (name_in_In _ _) Hn) in H.
      cbn [andb] in H.
      apply bind_ok in H. destruct H as (data & Hr & H).
      apply bind_ok in H. destruct H as (img & Ho & H).
      inversion H; subst. right. exists h, data, img.
      repeat (split; [reflexivity || assumption|]).
      intros h' Hh' _ _. congruence.
    + apply Hfall. intros h' Hh'. inversion Hh'; subst h'.
      apply andb_false_iff in E. destruct E as [E|E].
      * left. unfold str_truthy in E. apply negb_false_iff in E.
        now apply String.eqb_eq in E.
      * right. intros Hin. apply name_in_In in Hin. congruence.
  - apply Hfall. intros h Hh. discriminate.
Qed.

End Icons.


Lemma extract_primary_icon_sound_witness :
  extract_primary_icon icon_zip icon_decoder upload_path
    (Some "assets/logo.png") =
    Ok (Some [x04],
        Some {| img_width := 512; img_height := 512; img_pixels := [] |}) /\
  exists z, icon_zip upload_path = Ok z /\
    ((Some [x04] = None /\
      Some {| img_width := 512; img_height := 512; img_pixels := [] |} = None
      /\ collect_candidates icon_decoder z (namelist z) = [] /\
      forall h, Some "assets/logo.png" = Some h ->
                h = "" \/ ~ In h (namelist z)) \/
     exists n data img,
       Some [x04] = Some data /\
       Some {| img_width := 512; img_height := 512; img_pixels := [] |}
         = Some img /\
       In n (namelist z) /\
       read z n = Ok data /\ icon_decoder data = Ok img /\
       forall h, Some "assets/logo.png" = Some h -> h <> "" ->
                 In h (namelist z) -> n = h).
Proof.
  split; [reflexivity|].
  exact (extract_primary_icon_sound icon_zip icon_decoder upload_path
           (Some "assets/logo.png") _ _ eq_refl).
Defined.

End IconSelectionFacts.

(* ------------------------------------------------------------------ *)
(** ** The upload filter, the reputation lookups and the fusion *)

Module EndpointFacts.
Import Utils IconUtils VtLookup StaticAnalyzer App AppRest Spec.
Import Fragments Scenario Cases PyFacts PyStrFacts.

Local Open Scope list_scope.
Local Open Scope string_scope.

(** *** [allowed_file] *)

Lemma str_in_dot_cons (c : ascii) (s : string) :
  str_in "." (String c s) = (c =? ".")%char || str_in "." s.
Proof.
  cbn [str_in prefix]. destruct (Ascii.eqb_spec c "."%char) as [->|Hc].
  - destruct (ascii_dec "." ".") as [_|Hn]; [|contradiction].
    destruct s; reflexivity.
  - destruct (ascii_dec "." c) as [E|_]; [congruence|]. reflexivity.
Qed.

Lemma after_last_dot_none (s : string) :
  after_last_dot s = None <-> str_in "." s = false.
Proof.
  induction s as [|c s IH].
  - simpl. split; reflexivity.
  - rewrite str_in_dot_cons. cbn [after_last_dot].
    destruct (after_last_dot s) as [tail|].
    + split; [discriminate|]. intros H. apply orb_false_iff in H.
      destruct H as [_ H]. apply IH in H. discriminate.
    + assert (Hs : str_in "." s = false) by now apply IH.
      rewrite Hs, orb_false_r.
      destruct (c =? ".")%char; split; congruence.
Qed.

Lemma after_last_dot_some (s ext : string) :
  after_last_dot s = Some ext <->
  exists stem, s = stem ++ "." ++ ext /\ str_in "." ext = false.
Proof.
  split.
  - revert ext. induction s as [|c s IH]; intros ext; [discriminate|].
    cbn [after_last_dot]. destruct (after_last_dot s) as [tail|] eqn:E.
    + intros H. inversion H; subst tail.
      destruct (IH ext eq_refl) as (stem & -> & Hext).
      exists (String c stem). auto.
    + destruct (Ascii.eqb_spec c "."%char) as [->|Hc]; [|discriminate].
      intros H. inversion H; subst ext. exists "". split; [reflexivity|].
      now apply after_last_dot_none.
  - intros (stem & -> & Hext). apply after_last_dot_none in Hext.
    induction stem as [|c stem IH].
    + simpl. now rewrite Hext.
    + change (String c stem ++ "." ++ ext)
        with (String c (stem ++ "." ++ ext)).
      cbn [after_last_dot]. now rewrite IH.
Qed.

(** X14.  [allowed_file] accepts exactly the names [stem.ext] whose part
    after the last dot is [apk] in any mix of upper and lower case; the
    stem may be empty and may hold further dots. *)
Theorem allowed_file_iff (filename : string) :
  allowed_file filename = true <->
  exists stem ext,
    filename = stem ++ "." ++ ext /\ str_in "." ext = false /\
    lower ext = "apk".
Proof.
  unfold allowed_file. rewrite andb_true_iff. split.
  - intros [_ H]. destruct (after_last_dot filename) as [ext|] eqn:E;
      [|discriminate].
    apply after_last_dot_some in E. destruct E as (stem & -> & Hext).
    exists stem, ext. split; [reflexivity|]. split; [assumption|].
    apply name_in_In in H. destruct H as [H|[]]. now symmetry.
  - intros (stem & ext & -> & Hext & Hl).
    assert (E : after_last_dot (stem ++ "." ++ ext) = Some ext)
      by (apply after_last_dot_some; eauto).
    split.
    + destruct (str_in "." (stem ++ "." ++ ext)) eqn:Hs; [reflexivity|].
      apply after_last_dot_none in Hs. congruence.
    + rewrite E, Hl. reflexivity.
Qed.

(** *** [malwarebazaar_lookup_sha256] *)

Section Bazaar.

Variable requests_post : string -> string -> result PostResponse.

(** X15.  [malwarebazaar_lookup_sha256] never raises and never reports a
    negative count.  It reports a positive count only for an answer with
    status 200 whose body is a JSON object with a [data] member, and the
    count is then the length of that member; every failure on the way
    (no connection, a body that is no JSON or no object, a [data] member
    without a length) counts as no detection. *)
Theorem malwarebazaar_lookup_sha256_outcome (sha256 : string) :
  exists r,
    malwarebazaar_lookup_sha256 requests_post sha256 = Ok r /\
    (0 <= mb_detections r)%Z /\
    ((0 < mb_detections r)%Z ->
     exists resp fields v,
       requests_post MB_URL sha256 = Ok resp /\
       post_status resp = 200%Z /\
       post_json resp = Ok (JDict fields) /\
       assoc "data" fields = Some v /\
       json_len v = Ok (mb_detections r) /\
       mb_raw_entry r = RawBody (JDict fields)) /\
    (forall e, requests_post MB_URL sha256 = Raise e ->
               mb_detections r = 0%Z /\ mb_raw_entry r = RawException e).
Proof.
  unfold malwarebazaar_lookup_sha256.
  destruct (requests_post MB_URL sha256) as [resp|e] eqn:Hp; cbn [bind].
  2:{ eexists. split; [reflexivity|]. simpl. split; [lia|].
      split; [lia|]. intros e' E. inversion E; subst. auto. }
  destruct (Z.eqb_spec (post_status resp) 200) as [Hs|Hs].
  2:{ eexists. split; [reflexivity|]. simpl. split; [lia|].
      split; [lia|]. discriminate. }
  destruct (post_json resp) as [j|e] eqn:Hj; cbn [bind].
  2:{ eexists. split; [reflexivity|]. simpl. split; [lia|].
      split; [lia|]. discriminate. }
  assert (Hzero : forall c : result MbResult,
            (exists e, c = Raise e) ->
            exists r,
              try_except c
                (fun e => Some (Ok {| mb_detections := 0;
                                      mb_raw_entry := RawException e |}))
              = Ok r /\ mb_detections r = 0%Z).
  { intros c [e ->]. simpl. eauto. }
  destruct j as [| b | z | f | s | items | fields];
    try (eexists; split; [reflexivity|]; simpl; split; [lia|];
         split; [lia | discriminate]).
  - (* a string *)
    cbn [json_contains bind].
    destruct (str_in "data" s); cbn [json_get bind try_except];
      eexists; (split; [reflexivity|]); simpl; (split; [lia|]);
      (split; [lia | discriminate]).
  - (* a list *)
    cbn [json_contains bind].
    destruct (existsb _ items); cbn [json_get bind try_except];
      eexists; (split; [reflexivity|]); simpl; (split; [lia|]);
      (split; [lia | discriminate]).
  - (* an object *)
    cbn [json_contains bind json_get].
    destruct (assoc "data" fields) as [v|] eqn:Hd; cbn [bind].
    + destruct (json_len v) as [n|e] eqn:Hn; cbn [bind try_except].
      * eexists. split; [reflexivity|]. simpl.
        assert (Hnn : (0 <= n)%Z).
        { destruct v; simpl in Hn; inversion Hn; lia. }
        split; [assumption|]. split; [|discriminate].
        intros _. exists resp, fields, v. auto 7.
      * eexists. split; [reflexivity|]. simpl. split; [lia|].
        split; [lia | discriminate].
    + eexists. split; [reflexivity|]. simpl. split; [lia|].
      split; [lia | discriminate].
Qed.

End Bazaar.

(** *** [vt_lookup_sha256] *)

Section Lookup.

Variable requests_get : string -> result Response.

Lemma vt_lookup_unfold (sha256 : string) (tr : list string) :
  vt_lookup_sha256 requests_get sha256 tr =
  (try_except
     (resp <- requests_get (VT_BASE_URL ++ sha256) ;;
      if (status_code resp =? 200)%Z then
        stats <- stats_of resp ;;
        malicious <- stat stats "malicious" ;;
        suspicious <- stat stats "suspicious" ;;
        total <- sum_stats stats
                   ["harmless"; "malicious"; "suspicious"; "undetected";
                    "timeout"] 0%Z ;;
        Ok {| detections := malicious + suspicious;
              total := Z.max total 1 |}
      else Ok no_data)
     (except_RequestException (Ok no_data)),
   (tr ++ [(VT_BASE_URL ++ sha256)%string])%list).
Proof.
  unfold vt_lookup_sha256, stats_of. f_equal.
  destruct (requests_get (VT_BASE_URL ++ sha256)) as [resp|e]; cbn [bind];
    [|reflexivity].
  destruct (status_code resp =? 200)%Z.
  - destruct (resp_json resp) as [data|e]; cbn [bind]; [|reflexivity].
    destruct (json_get data "data" (JDict [])) as [d1|e]; cbn [bind];
      [|reflexivity].
    destruct (json_get d1 "attributes" (JDict [])) as [d2|e]; cbn [bind];
      reflexivity.
  - destruct (status_code resp =? 404)%Z; reflexivity.
Qed.



End Lookup.


Lemma malwarebazaar_lookup_sha256_witness :
  exists r,
    malwarebazaar_lookup_sha256 (fun _ _ => Ok bazaar_hit) "9f86" = Ok r /\
    mb_detections r = 2%Z /\
    exists resp fields v,
      (fun _ _ : string => Ok bazaar_hit) MB_URL "9f86" = Ok resp /\
      post_status resp = 200%Z /\
      post_json resp = Ok (JDict fields) /\
      assoc "data" fields = Some v /\
      json_len v = Ok (mb_detections r) /\
      mb_raw_entry r = RawBody (JDict fields).
Proof.
  destruct (malwarebazaar_lookup_sha256_outcome (fun _ _ => Ok bazaar_hit)
              "9f86") as (r & Hr & _ & Hpos & _).
  exists r. split; [exact Hr|].
  assert (E : mb_detections r = 2%Z).
  { vm_compute in Hr. inversion Hr. reflexivity. }
  split; [exact E|]. apply Hpos. rewrite E. reflexivity.
Defined.

(** *** The fusion, once more *)

(** X17.  A score [combine_ml_vt_mb] returns never exceeds 1.0, whatever
    the model probability and the counts, and the verdict is one of the
    four labels. *)
Theorem combine_ml_vt_mb_clamped (p : float) (d t m : Z)
    (score : float) (decision : string) :
  combine_ml_vt_mb p d t m = Ok (score, decision) ->
  (1.0 <? score)%float = false /\
  In decision ["Likely Malware (Confirmed)"; "Suspicious (New Malware?)";
               "Likely Safe"; "Potentially Risky"].
Proof.
  unfold combine_ml_vt_mb. intros H. apply bind_ok in H.
  destruct H as (vt_score & _ & H). inversion H as [[Hs Hd]]. split.
  - unfold py_min.
    destruct (1.0 <? 0.7 * p + 0.15 * vt_score
                     + 0.15 * (if (m >? 0)%Z then 1.0 else 0))%float eqn:E;
      [reflexivity | exact E].
  - destruct ((d >? 5)%Z || (m >? 0)%Z); [simpl; auto|].
    destruct ((d =? 0)%Z && (m =? 0)%Z && (0.7 <? p)%float); [simpl; auto|].
    destruct ((d =? 0)%Z && (m =? 0)%Z && (p <? 0.3)%float); simpl; auto.
Qed.

Lemma combine_ml_vt_mb_clamped_witness :
  combine_ml_vt_mb 2.0 10 10 1 = Ok (1.0%float, "Likely Malware (Confirmed)")
  /\ (1.0 <? 1.0)%float = false /\
  In "Likely Malware (Confirmed)"
     ["Likely Malware (Confirmed)"; "Suspicious (New Malware?)";
      "Likely Safe"; "Potentially Risky"].
Proof.
  split; [vm_compute; reflexivity|].
  exact (combine_ml_vt_mb_clamped 2.0 10 10 1 1.0%float
           "Likely Malware (Confirmed)" ltac:(vm_compute; reflexivity)).
Defined.

(** X26.  When neither reputation service gives an answer with status
    200 (the request fails or another status comes back), both lookups
    still return, and the fusion of their counts returns as well: the
    score is the model's share alone, and the verdict follows the model
    probability and is never the confirmed one. *)
Theorem fusion_without_reputation
    (requests_get : string -> result Response)
    (requests_post : string -> string -> result PostResponse)
    (sha256 : string) (tr : list string) (p : float) :
  (requests_get (VT_BASE_URL ++ sha256) = Raise RequestException \/
   exists resp, requests_get (VT_BASE_URL ++ sha256) = Ok resp /\
                status_code resp <> 200%Z) ->
  ((exists e, requests_post MB_URL sha256 = Raise e) \/
   exists resp, requests_post MB_URL sha256 = Ok resp /\
                post_status resp <> 200%Z) ->
  exists vt mb,
    fst (vt_lookup_sha256 requests_get sha256 tr) = Ok vt /\
    malwarebazaar_lookup_sha256 requests_post sha256 = Ok mb /\
    combine_ml_vt_mb p (detections vt) (total vt) (mb_detections mb) =
      Ok (py_min (0.7 * p + 0.15 * 0 + 0.15 * 0) 1.0,
          if (0.7 <? p)%float then "Suspicious (New Malware?)"
          else if (p <? 0.3)%float then "Likely Safe"
          else "Potentially Risky").
Proof.
  intros Hvt Hmb.
  assert (Ev : fst (vt_lookup_sha256 requests_get sha256 tr) = Ok no_data).
  { rewrite vt_lookup_unfold. cbn [fst].
    destruct Hvt as [->|(resp & -> & Hs)]; [reflexivity|]. cbn [bind].
    destruct (Z.eqb_spec (status_code resp) 200); [contradiction|].
    reflexivity. }
  assert (Em : exists mb,
             malwarebazaar_lookup_sha256 requests_post sha256 = Ok mb /\
             mb_detections mb = 0%Z).
  { unfold malwarebazaar_lookup_sha256.
    destruct Hmb as [(e & ->)|(resp & -> & Hs)].
    - eexists. split; reflexivity.
    - cbn [bind]. destruct (Z.eqb_spec (post_status resp) 200);
        [contradiction|]. eexists. split; reflexivity. }
  destruct Em as (mb & Emb & Ez).
  exists no_data, mb. split; [assumption|]. split; [assumption|].
  rewrite Ez. unfold combine_ml_vt_mb. cbn [detections total no_data].
  cbn [Z.gtb Z.compare bind orb Z.eqb andb]. reflexivity.
Qed.

Lemma fusion_without_reputation_witness :
  exists vt mb,
    fst (vt_lookup_sha256 (fun _ => Raise RequestException) "9f86" [])
      = Ok vt /\
    malwarebazaar_lookup_sha256
      (fun _ _ => Ok {| post_status := 503; post_json := Raise ValueError;
                        post_text := "Service Unavailable" |}) "9f86"
      = Ok mb /\
    combine_ml_vt_mb 0.9 (detections vt) (total vt) (mb_detections mb) =
      Ok (py_min (0.7 * 0.9 + 0.15 * 0 + 0.15 * 0) 1.0,
          if (0.7 <? 0.9)%float then "Suspicious (New Malware?)"
          else if (0.9 <? 0.3)%float then "Likely Safe"
          else "Potentially Risky").
Proof.
  apply (fusion_without_reputation
           (fun _ => Raise RequestException)
           (fun _ _ => Ok {| post_status := 503; post_json := Raise ValueError;
                             post_text := "Service Unavailable" |})
           "9f86" [] 0.9%float).
  - left. reflexivity.
  - right. eexists. split; [reflexivity|]. simpl. discriminate.
Defined.

End EndpointFacts.

(* ------------------------------------------------------------------ *)
(** ** The analysis, step by step *)

Module AnalysisFacts.
Import Utils IconUtils VtLookup StaticAnalyzer App AppRest Spec.
Import Scenario Cases.
Import PyFacts PyStrFacts ArchiveFacts ManifestFacts AnalyzerFacts.
Import PermissionFacts TrustFacts HashFacts.

Local Open Scope list_scope.
Local Open Scope string_scope.

(** What a returned result records of the icon, the digest, the
    reputation lookup and the trust document. *)
Lemma analyze_apk_ok_rest (L : Libs) (W : World) (apk td : string)
    (vte : bool) (tr tr' : list string) (r : AnalysisResult) :
  analyze_apk L W apk td vte tr = (Ok r, tr') ->
  exists meta icon trusted,
    extract_meta L W apk = Ok meta /\
    extract_primary_icon (ZipFile L W) (lib_Image_open L) apk
      (meta_get meta rec_icon_hint) = Ok icon /\
    match snd icon with
    | Some img => h <- lib_phash L img ;; Ok (Some h)
    | None => Ok None
    end = Ok (icon_hash r) /\
    sha256_file (open_rb W) (lib_sha256_hexdigest L) apk = Ok (sha256 r) /\
    (if vte then vt_lookup_sha256 (requests_get W) (sha256 r) tr
     else (Ok no_data, tr)) = (Ok (vt r), tr') /\
    _load_trusted_data L W td = Ok trusted /\
    match icon_hash r with
    | Some h =>
        if str_truthy h then
          icons <- json_get trusted "trusted_icons" (JList []) ;;
          entries <- json_iter icons ;;
          best_similarity L h entries 0%float
        else Ok 0%float
    | None => Ok 0%float
    end = Ok (icon_similarity_score r).
Proof.
  unfold analyze_apk. intros H.
  io_inv H. io_inv H. io_inv H. io_inv H. io_inv H. io_inv H.
  apply io_bind_ok in H. destruct H as (vt0 & tr2 & Hvt & H).
  io_inv H. io_inv H. io_inv H.
  apply io_lift_ok in H. destruct H as [H ->].
  inversion H; subst r; clear H. cbn [icon_hash sha256 vt icon_similarity_score].
  match goal with
  | Hm : extract_meta _ _ _ = Ok ?m,
    Hi : extract_primary_icon _ _ _ _ = Ok ?i,
    Ht : _load_trusted_data _ _ _ = Ok ?t |- _ =>
      exists m, i, t
  end.
  repeat (split; [eassumption|]).
  split; [|split; [eassumption|eassumption]].
  destruct vte; [exact Hvt|].
  unfold io_lift in Hvt. exact Hvt.
Qed.

Lemma io_bind_lift {A B : Type} (c : result A) (k : A -> IO B)
    (tr : list string) :
  io_bind (io_lift c) k tr =
  match c with
  | Ok a => k a tr
  | Raise e => (Raise e, tr)
  end.
Proof. unfold io_bind, io_lift. destruct c; reflexivity. Qed.

Lemma best_similarity_cases (L : Libs) (h : string) (entries : list json) :
  forall (acc v : float),
    best_similarity L h entries acc = Ok v ->
    v = acc \/
    exists e, In e entries /\ similarity_with_entry L h e = Ok v.
Proof.
  induction entries as [|e entries IH]; intros acc v H.
  - inversion H. now left.
  - cbn [best_similarity] in H. apply bind_ok in H.
    destruct H as (s & Hs & H). apply IH in H.
    destruct H as [->|(e' & Hin & He')].
    + unfold py_max. destruct (acc <? s)%float; [right|left; reflexivity].
      exists e. split; [now left | assumption].
    + right. exists e'. split; [now right | assumption].
Qed.

Lemma best_similarity_all (L : Libs) (h : string) (entries : list json) :
  forall (acc v : float),
    best_similarity L h entries acc = Ok v ->
    forall e, In e entries -> exists s, similarity_with_entry L h e = Ok s.
Proof.
  induction entries as [|e entries IH]; intros acc v H e' Hin; [destruct Hin|].
  cbn [best_similarity] in H. apply bind_ok in H.
  destruct H as (s & Hs & H). destruct Hin as [<-|Hin]; [eauto|].
  eapply IH; eassumption.
Qed.

(** X18.  When the trust file does not exist, no analysis marks the
    certificate as trusted, and every analysis records the icon
    similarity 0.0. *)
Theorem analyze_apk_without_trust_file (L : Libs) (W : World)
    (apk td : string) (vte : bool) (tr tr' : list string)
    (r : AnalysisResult) :
  files W td = None ->
  analyze_apk L W apk td vte tr = (Ok r, tr') ->
  cert_trusted_match r = false /\ icon_similarity_score r = 0%float.
Proof.
  intros Hnone H. split.
  - destruct (analyze_apk_ok _ _ _ _ _ _ _ _ H)
      as (meta & classes & trusted & certs & _ & _ & Hload & Hcerts & _ & _
          & _ & _ & _ & _ & _ & Hmatch & _).
    rewrite (load_missing L W td Hnone) in Hload.
    inversion Hload; subst trusted. inversion Hcerts; subst certs.
    rewrite Hmatch. unfold cert_match_of.
    destruct (meta_get meta rec_cert_fingerprint) as [fp|]; [|reflexivity].
    cbn [name_in existsb]. apply andb_false_r.
  - destruct (analyze_apk_ok_rest _ _ _ _ _ _ _ _ H)
      as (meta & icon & trusted & _ & _ & _ & _ & _ & Hload & Hsim).
    rewrite (load_missing L W td Hnone) in Hload.
    inversion Hload; subst trusted.
    destruct (icon_hash r) as [h|]; [|congruence].
    destruct (str_truthy h); [|congruence].
    inversion Hsim. reflexivity.
Qed.

(** X19.  In every analysis result the icon similarity is 0.0 or the
    similarity of the icon's hash with one entry of the trust document's
    icon list; every entry of that list was compared without error.  A
    result without icon hash has similarity 0.0. *)
Theorem icon_similarity_provenance (L : Libs) (W : World)
    (apk td : string) (vte : bool) (tr tr' : list string)
    (r : AnalysisResult) :
  analyze_apk L W apk td vte tr = (Ok r, tr') ->
  (icon_similarity_score r = 0%float \/
   exists h trusted entries e,
     icon_hash r = Some h /\ h <> "" /\
     _load_trusted_data L W td = Ok trusted /\
     trusted_icons_of trusted = Ok entries /\
     In e entries /\
     similarity_with_entry L h e = Ok (icon_similarity_score r) /\
     forall e', In e' entries ->
                exists s, similarity_with_entry L h e' = Ok s) /\
  (icon_hash r = None -> icon_similarity_score r = 0%float).
Proof.
  intros H.
  destruct (analyze_apk_ok_rest _ _ _ _ _ _ _ _ H)
    as (meta & icon & trusted & _ & _ & _ & _ & _ & Hload & Hsim).
  split.
  - destruct (icon_hash r) as [h|]; [|left; congruence].
    destruct (str_truthy h) eqn:Ht; [|left; congruence].
    apply bind_ok in Hsim. destruct Hsim as (icons & Hicons & Hsim).
    apply bind_ok in Hsim. destruct Hsim as (entries & Hentries & Hsim).
    destruct (best_similarity_cases _ _ _ _ _ Hsim) as [E|(e & Hin & He)];
      [left; assumption|].
    right. exists h, trusted, entries, e. split; [reflexivity|].
    split.
    { intros ->. discriminate Ht. }
    split; [assumption|]. split.
    { unfold trusted_icons_of. rewrite Hicons. exact Hentries. }
    split; [assumption|]. split; [assumption|].
    eapply best_similarity_all; eassumption.
  - intros Hnone. rewrite Hnone in Hsim. congruence.
Qed.

(** X20.  An upload that cannot be opened as an archive makes
    [analyze_apk] raise what opening it raised, [BadZipFile] included,
    although both manifest backends and the entry reader tolerate it; no
    request is sent before. *)
Theorem analyze_apk_unreadable_archive (L : Libs) (W : World)
    (apk td : string) (vte : bool) (tr : list string) (e : exn) :
  ZipFile L W apk = Raise e ->
  analyze_apk L W apk td vte tr = (Raise e, tr).
Proof.
  intros Hz. unfold analyze_apk.
  destruct (extract_meta_first L W apk) as (m1 & m2 & _ & _ & Hmeta).
  rewrite io_bind_lift, Hmeta.
  rewrite io_bind_lift.
  assert (Hb : e = BadZipFile \/ e <> BadZipFile)
    by (destruct e; (left; reflexivity) || (right; discriminate)).
  destruct Hb as [->|Hne].
  - rewrite (extract_bad_zip (ZipFile L W) apk "classes.dex" Hz).
    cbn [bytes_truthy]. rewrite io_bind_lift.
    rewrite (extract_bad_zip (ZipFile L W) apk "AndroidManifest.xml" Hz).
    cbn [bind bytes_or_empty]. rewrite io_bind_lift.
    unfold extract_primary_icon. rewrite Hz. reflexivity.
  - rewrite (extract_open_error (ZipFile L W) apk "classes.dex" e Hz Hne).
    reflexivity.
Qed.

(** X21.  The digest an analysis records is that of the whole uploaded
    file.  With the lookup enabled the analysis sends exactly one request,
    for the address of that digest; with the lookup disabled it sends
    none and records the pair of zeros. *)
Theorem analyze_apk_digest_and_request (L : Libs) (W : World)
    (apk td : string) (vte : bool) (tr tr' : list string)
    (r : AnalysisResult) :
  analyze_apk L W apk td vte tr = (Ok r, tr') ->
  (exists content,
     files W apk = Some content /\
     sha256 r = lib_sha256_hexdigest L content) /\
  tr' = (if vte then tr ++ [(VT_BASE_URL ++ sha256 r)%string] else tr)%list /\
  (vte = false -> vt r = no_data).
Proof.
  intros H.
  destruct (analyze_apk_ok_rest _ _ _ _ _ _ _ _ H)
    as (meta & icon & trusted & _ & _ & _ & Hsha & Hvt & _).
  split; [|split].
  - unfold sha256_file, open_rb in Hsha.
    destruct (files W apk) as [content|]; [|discriminate].
    exists content. split; [reflexivity|]. cbn [bind] in Hsha.
    rewrite read_chunks_feed in Hsha by lia. inversion Hsha. reflexivity.
  - destruct vte; [|now inversion Hvt].
    unfold vt_lookup_sha256 in Hvt. inversion Hvt. reflexivity.
  - intros ->. now inversion Hvt.
Qed.


Lemma analyze_apk_without_trust_file_witness :
  files world "nowhere.json" = None /\
  exists r,
    analyze_apk libs_icon world upload_path "nowhere.json" false []
      = (Ok r, []) /\
    cert_fingerprint r = Some "ab12" /\
    icon_hash r = Some "fffffffffffffffe" /\
    cert_trusted_match r = false /\ icon_similarity_score r = 0%float.
Proof.
  split; [reflexivity|].
  eexists. split; [reflexivity|]. split; [reflexivity|].
  split; [reflexivity|].
  exact (analyze_apk_without_trust_file libs_icon world upload_path
           "nowhere.json" false [] [] _ eq_refl eq_refl).
Defined.

Lemma icon_similarity_provenance_witness :
  exists r,
    analyze_apk libs_icon world upload_path trust_path false [] = (Ok r, [])
    /\ icon_similarity_score r = 0.984375%float /\
    (icon_similarity_score r = 0%float \/
     exists h trusted entries e,
       icon_hash r = Some h /\ h <> "" /\
       _load_trusted_data libs_icon world trust_path = Ok trusted /\
       trusted_icons_of trusted = Ok entries /\
       In e entries /\
       similarity_with_entry libs_icon h e = Ok (icon_similarity_score r) /\
       forall e', In e' entries ->
                  exists s, similarity_with_entry libs_icon h e' = Ok s).
Proof.
  eexists. split; [reflexivity|]. split; [reflexivity|].
  exact (proj1 (icon_similarity_provenance libs_icon world upload_path
                  trust_path false [] [] _ eq_refl)).
Defined.

Lemma analyze_apk_unreadable_archive_witness :
  ZipFile libs world_no_archive upload_path = Raise BadZipFile /\
  _extract_manifest_with_androguard libs world_no_archive upload_path
    = Ok None /\
  extract_zip_entry_bytes (ZipFile libs world_no_archive) upload_path
    "classes.dex" = Ok None /\
  analyze_apk libs world_no_archive upload_path trust_path true []
    = (Raise BadZipFile, []).
Proof.
  split; [reflexivity|]. split; [reflexivity|]. split; [reflexivity|].
  exact (analyze_apk_unreadable_archive libs world_no_archive upload_path
           trust_path true [] BadZipFile eq_refl).
Defined.

Lemma analyze_apk_digest_and_request_witness :
  exists r,
    analyze_apk libs world_elsewhere "/srv/queue/0001.apk"
      "/etc/secureapk/trust.json" true []
      = (Ok r, ["https://www.virustotal.com/api/v3/files/9f86d081884c7d65"])
    /\
    (exists content,
       files world_elsewhere "/srv/queue/0001.apk" = Some content /\
       sha256 r = lib_sha256_hexdigest libs content) /\
    ["https://www.virustotal.com/api/v3/files/9f86d081884c7d65"]
      = ([] ++ [(VT_BASE_URL ++ sha256 r)%string])%list.
Proof.
  eexists. split; [cbv -[shannon_entropy]; reflexivity|].
  assert (H := analyze_apk_digest_and_request libs world_elsewhere
                 "/srv/queue/0001.apk" "/etc/secureapk/trust.json" true []
                 _ _ ltac:(cbv -[shannon_entropy]; reflexivity)).
  split; [exact (proj1 H) | exact (proj1 (proj2 H))].
Defined.

End AnalysisFacts.

(* ------------------------------------------------------------------ *)
(** ** The manifest backends, field by field *)

Module BackendFacts.
Import Utils IconUtils VtLookup StaticAnalyzer Spec.
Import Fragments Scenario Cases.
Import PyFacts PyStrFacts ManifestFacts.

Local Open Scope list_scope.
Local Open Scope string_scope.

Lemma try_except_some {A : Type} (c : result (option A)) (a : A) :
  try_except c (except_Exception (Ok None)) = Ok (Some a) -> c = Ok (Some a).
Proof. destruct c as [x|e]; simpl; [auto | discriminate]. Qed.

Lemma truthy_version (code : option string) :
  opt_truthy code = true ->
  exists s, Some (py_str code) = Some s /\ s <> "".
Proof.
  destruct code as [s|]; [|discriminate]. simpl. intros H.
  exists s. split; [reflexivity|]. intros ->. discriminate.
Qed.

Section Backends.

Variable L : Libs.
Variable W : World.

Lemma androguard_version_code (apk : string) (r : ExtractionRecord) :
  _extract_manifest_with_androguard L W apk = Ok (Some r) ->
  rec_version_code r = None \/
  exists s, rec_version_code r = Some s /\ s <> "".
Proof.
  unfold _extract_manifest_with_androguard.
  destruct (lib_AG_APK L) as [AG|]; [|discriminate].
  intros H. apply try_except_some in H.
  apply bind_ok in H. destruct H as (a & _ & H).
  apply bind_ok in H. destruct H as (label & _ & H).
  apply bind_ok in H. destruct H as (vn & _ & H).
  apply bind_ok in H. destruct H as (code & Hcode & H).
  apply bind_ok in H. destruct H as (vc & Hvc & H).
  apply bind_ok in H. destruct H as (perms & _ & H).
  apply bind_ok in H. destruct H as (fp & _ & H).
  apply bind_ok in H. destruct H as (hint & _ & H).
  inversion H; subst r; clear H. cbn [rec_version_code].
  destruct (opt_truthy code) eqn:Ht.
  - rewrite Hcode in Hvc. cbn [bind] in Hvc. inversion Hvc; subst vc.
    right. now apply truthy_version.
  - inversion Hvc. now left.
Qed.

Lemma permission_names_spec (items : list xml) :
  forall (acc perms : list string),
    permission_names items acc = Ok perms ->
    exists names,
      map_result (fun p => xml_attr_get_or p "@android:name" "@name") items
        = Ok names /\
      perms = (acc ++ flat_map kept_name names)%list.
Proof.
  induction items as [|p items IH]; intros acc perms H.
  - inversion H. exists []. simpl. now rewrite app_nil_r.
  - cbn [permission_names] in H. apply bind_ok in H.
    destruct H as (name & Hname & H).
    assert (Hk : permission_names items (acc ++ kept_name name) = Ok perms).
    { destruct name as [n|]; simpl.
      - destruct (str_truthy n); [assumption|]. now rewrite app_nil_r.
      - now rewrite app_nil_r. }
    destruct (IH _ _ Hk) as (names & Hnames & ->).
    exists (name :: names). cbn [map_result]. rewrite Hname, Hnames.
    split; [reflexivity|]. simpl. now rewrite app_assoc.
Qed.

Lemma kept_names_nonempty (names : list (option string)) :
  Forall (fun n => n <> "") (flat_map kept_name names).
Proof.
  induction names as [|name names IH]; simpl; [constructor|].
  apply Forall_app. split; [|assumption].
  destruct name as [n|]; simpl; [|constructor].
  destruct (str_truthy n) eqn:E; constructor; [|constructor].
  intros ->. discriminate.
Qed.

Lemma kept_names_length (names : list (option string)) :
  (List.length (flat_map kept_name names) <= List.length names)%nat.
Proof.
  induction names as [|name names IH]; simpl; [lia|].
  rewrite length_app.
  destruct name as [n|]; simpl; [destruct (str_truthy n); simpl|]; lia.
Qed.

Lemma map_result_length {A B : Type} (f : A -> result B) (l : list A)
    (bs : list B) :
  map_result f l = Ok bs -> List.length bs = List.length l.
Proof.
  revert bs. induction l as [|a l IH]; intros bs H.
  - inversion H. reflexivity.
  - cbn [map_result] in H. apply bind_ok in H. destruct H as (b & _ & H).
    apply bind_ok in H. destruct H as (bs' & Hbs & H).
    inversion H. simpl. now rewrite (IH _ Hbs).
Qed.

(** What the record of the second backend holds of the manifest. *)
Lemma apkutils_record (apk : string) (r : ExtractionRecord) :
  _extract_manifest_with_apkutils L W apk = Ok (Some r) ->
  exists AU a manifest root uses items names version_code,
    lib_AU_APK L = Some AU /\
    (content <- open_rb W apk ;; AU content) = Ok a /\
    au_get_manifest a = Ok manifest /\
    xml_item manifest "manifest" = Ok root /\
    xml_attr_item root "@package" = Ok (py_str (rec_package r)) /\
    xml_attr_get_or root "@android:versionCode" "@versionCode"
      = Ok version_code /\
    rec_version_code r =
      (if opt_truthy version_code then Some (py_str version_code)
       else None) /\
    xml_get root "uses-permission" (XList []) = Ok uses /\
    xml_iter (match uses with
              | XElem _ _ => XList [uses]
              | _ => uses
              end) = Ok items /\
    map_result (fun p => xml_attr_get_or p "@android:name" "@name") items
      = Ok names /\
    rec_permissions r = flat_map kept_name names.
Proof.
  unfold _extract_manifest_with_apkutils.
  destruct (lib_AU_APK L) as [AU|]; [|discriminate].
  intros H. apply try_except_some in H.
  apply bind_ok in H. destruct H as (a & Ha & H).
  apply bind_ok in H. destruct H as (manifest & Hm & H).
  apply bind_ok in H. destruct H as (root & Hroot & H).
  apply bind_ok in H. destruct H as (pkg & Hpkg & H).
  apply bind_ok in H. destruct H as (app & _ & H).
  apply bind_ok in H. destruct H as (label & _ & H).
  apply bind_ok in H. destruct H as (vn & _ & H).
  apply bind_ok in H. destruct H as (vc & Hvc & H).
  apply bind_ok in H. destruct H as (uses & Huses & H).
  apply bind_ok in H. destruct H as (items & Hitems & H).
  apply bind_ok in H. destruct H as (perms & Hperms & H).
  apply bind_ok in H. destruct H as (hint & _ & H).
  apply bind_ok in H. destruct H as (fp & _ & H).
  inversion H; subst r; clear H.
  cbn [rec_version_code rec_permissions rec_package py_str].
  destruct (permission_names_spec _ _ _ Hperms) as (names & Hnames & ->).
  exists AU, a, manifest, root, uses, items, names, vc.
  repeat (split; [reflexivity || assumption|]). reflexivity.
Qed.

(** X22.  Whichever backend produced it, a manifest record never holds
    the empty string as version code: the code is absent or a string
    that is not empty. *)
Theorem extract_meta_version_code (apk : string) (r : ExtractionRecord) :
  extract_meta L W apk = Ok (Some r) ->
  rec_version_code r = None \/
  exists s, rec_version_code r = Some s /\ s <> "".
Proof.
  unfold extract_meta. intros H. apply bind_ok in H.
  destruct H as (m1 & H1 & H). destruct m1 as [r1|].
  - inversion H; subst r1. now apply (androguard_version_code apk).
  - destruct (apkutils_record apk r H)
      as (AU & a & manifest & root & uses & items & names & vc & _ & _ & _
          & _ & _ & _ & Hvc & _).
    rewrite Hvc. destruct (opt_truthy vc) eqn:Ht; [right|now left].
    now apply truthy_version.
Qed.

(** X23.  The permissions of the second backend are the names of the
    [uses-permission] elements of the manifest, in document order and
    with repetitions, read from [android:name] or else from [name]; an
    element with no name or an empty one is skipped, and a single
    element counts as a list of one.  So no recorded permission is the
    empty string, and there are at most as many as elements. *)
Theorem apkutils_permissions (apk : string) (r : ExtractionRecord) :
  _extract_manifest_with_apkutils L W apk = Ok (Some r) ->
  exists AU a manifest root uses items names,
    lib_AU_APK L = Some AU /\
    (content <- open_rb W apk ;; AU content) = Ok a /\
    au_get_manifest a = Ok manifest /\
    xml_item manifest "manifest" = Ok root /\
    xml_get root "uses-permission" (XList []) = Ok uses /\
    xml_iter (match uses with
              | XElem _ _ => XList [uses]
              | _ => uses
              end) = Ok items /\
    map_result (fun p => xml_attr_get_or p "@android:name" "@name") items
      = Ok names /\
    rec_permissions r = flat_map kept_name names /\
    Forall (fun n => n <> "") (rec_permissions r) /\
    (List.length (rec_permissions r) <= List.length items)%nat.
Proof.
  intros H.
  destruct (apkutils_record apk r H)
    as (AU & a & manifest & root & uses & items & names & vc & H1 & H2 & H3
        & H4 & _ & _ & _ & H5 & H6 & H7 & H8).
  exists AU, a, manifest, root, uses, items, names.
  repeat (split; [assumption|]).
  split; [rewrite H8; apply kept_names_nonempty|].
  rewrite H8, <- (map_result_length _ _ _ H7). apply kept_names_length.
Qed.

End Backends.

Lemma extract_meta_version_code_witness :
  exists r,
    extract_meta libs_odd world upload_path = Ok (Some r) /\
    rec_package r = Some "com.example.odd" /\
    (rec_version_code r = None \/
     exists s, rec_version_code r = Some s /\ s <> "").
Proof.
  eexists. split; [reflexivity|]. split; [reflexivity|].
  exact (extract_meta_version_code libs_odd world upload_path _ eq_refl).
Defined.

Lemma apkutils_permissions_witness :
  exists r,
    _extract_manifest_with_apkutils libs_odd world upload_path
      = Ok (Some r) /\
    rec_permissions r
      = ["android.permission.CAMERA"; "android.permission.CAMERA"] /\
    exists AU a manifest root uses items names,
      lib_AU_APK libs_odd = Some AU /\
      (content <- open_rb world upload_path ;; AU content) = Ok a /\
      au_get_manifest a = Ok manifest /\
      xml_item manifest "manifest" = Ok root /\
      xml_get root "uses-permission" (XList []) = Ok uses /\
      xml_iter (match uses with
                | XElem _ _ => XList [uses]
                | _ => uses
                end) = Ok items /\
      map_result (fun p => xml_attr_get_or p "@android:name" "@name") items
        = Ok names /\
      rec_permissions r = flat_map kept_name names /\
      Forall (fun n => n <> "") (rec_permissions r) /\
      (List.length (rec_permissions r) <= List.length items)%nat.
Proof.
  eexists. split; [reflexivity|]. split; [reflexivity|].
  exact (apkutils_permissions libs_odd world upload_path _ eq_refl).
Defined.

End BackendFacts.

(* ------------------------------------------------------------------ *)
(** ** Sensitive permissions and the feature row *)

Module FeatureFacts.
Import Utils IconUtils VtLookup StaticAnalyzer App AppRest Spec.
Import Scenario Cases.
Import PyFacts PyStrFacts AnalyzerFacts PermissionFacts ResultFacts.

Local Open Scope list_scope.
Local Open Scope string_scope.

Lemma dangerous_of_length (perms : list string) :
  (List.length (dangerous_of perms) <= List.length perms)%nat /\
  (List.length (dangerous_of perms) <= 13)%nat.
Proof.
  split.
  - apply NoDup_incl_length; [apply dangerous_of_NoDup|].
    intros x Hx. now apply dangerous_of_In in Hx.
  - change 13%nat with (List.length DANGEROUS_PERMS).
    apply NoDup_incl_length; [apply dangerous_of_NoDup|].
    intros x Hx. now apply dangerous_of_In in Hx.
Qed.

(** X24.  The derived list depends on the declared permissions as a set
    only: neither their order nor their repetitions matter.  Deriving
    again from the derived list changes nothing, and the derived list is
    no longer than the declaration or than the catalog of 13 names. *)
Theorem dangerous_of_invariance (perms : list string) :
  (forall perms', (forall x, In x perms <-> In x perms') ->
                  dangerous_of perms = dangerous_of perms') /\
  dangerous_of (dangerous_of perms) = dangerous_of perms /\
  dangerous_of (rev perms ++ perms)%list = dangerous_of perms /\
  (List.length (dangerous_of perms) <= List.length perms)%nat /\
  (List.length (dangerous_of perms) <= 13)%nat.
Proof.
  assert (Hset : forall a b, (forall x, In x a <-> In x b) ->
                             dangerous_of a = dangerous_of b).
  { intros a b H. apply strictly_ascending_unique;
      try apply dangerous_of_ascending.
    intros x. rewrite !dangerous_of_In, H. tauto. }
  split; [apply Hset|]. split; [|split].
  - apply strictly_ascending_unique; try apply dangerous_of_ascending.
    intros x. rewrite !dangerous_of_In. tauto.
  - apply Hset. intros x. rewrite in_app_iff, <- in_rev. tauto.
  - apply dangerous_of_length.
Qed.




End FeatureFacts.
